(** * Eteon relay bot: sessions, artifacts, formatting and response rendering

    A shallow embedding of the Go package [app] (session.go, artifacts.go,
    format.go, app.go).  Go strings are byte strings: they are modelled
    by [string], whose characters are the bytes of the UTF-8 text.  Nil-able
    pointers are [option]s, slices are lists, maps are [gmap]s, the [uint64]
    counter of the artifact store is an [N] reduced modulo [2^64], and a
    run-time panic is the [None] of an [option] result. *)

From Stdlib Require Import ZArith NArith Ascii String List Lia Bool.
From stdpp Require Import base option strings list gmap pretty.

Local Open Scope N_scope.
Local Open Scope nat_scope.

(** ** The parts of Go's [strings] and [unicode] packages the bot uses *)

Module Strings.

Definition LF : ascii := "010"%char.
Definition newline : string := String LF "".

Definition byte (n : N) : ascii := ascii_of_N n.

(** [utf8.AppendRune] for the basic multilingual plane. *)
Definition utf8 (r : N) : string :=
  if (r <? 128)%N then String (byte r) ""
  else if (r <? 2048)%N then
    String (byte (192 + r / 64)) (String (byte (128 + r mod 64)) "")
  else
    String (byte (224 + r / 4096))
      (String (byte (128 + (r / 64) mod 64))
         (String (byte (128 + r mod 64)) "")).

(** The code points of [unicode.White_Space], the table behind
    [unicode.IsSpace]. *)
Definition whiteSpace : list N :=
  [9; 10; 11; 12; 13; 32; 133; 160; 5760;
   8192; 8193; 8194; 8195; 8196; 8197; 8198; 8199; 8200; 8201; 8202;
   8232; 8233; 8239; 8287; 12288]%N.

Fixpoint rev (s : string) : string :=
  match s with
  | "" => ""
  | String c r => rev r +:+ String c ""
  end.

(** Width in bytes of the white-space rune [s] starts with, if any.  An
    invalid or truncated encoding decodes to [utf8.RuneError], which is not
    white space. *)
Definition spaceWidth (table : list string) (s : string) : option nat :=
  String.length <$> find (fun enc => String.prefix enc s) table.

(** Drop leading white-space runes; [skip] counts the bytes of the current
    rune that are still to be dropped. *)
Fixpoint trimFrom (table : list string) (skip : nat) (s : string) : string :=
  match s with
  | "" => ""
  | String _ r =>
      match skip with
      | S k => trimFrom table k r
      | O =>
          match spaceWidth table s with
          | Some w => trimFrom table (pred w) r
          | None => s
          end
      end
  end.

Definition TrimLeftSpace (s : string) : string :=
  trimFrom (utf8 <$> whiteSpace) 0 s.

(** Runes are decoded backwards from the end of the string. *)
Definition TrimRightSpace (s : string) : string :=
  rev (trimFrom (rev <$> (utf8 <$> whiteSpace)) 0 (rev s)).

(** [strings.TrimSpace]. *)
Definition TrimSpace (s : string) : string :=
  TrimRightSpace (TrimLeftSpace s).

(** [strings.Join]. *)
Fixpoint Join (elems : list string) (sep : string) : string :=
  match elems with
  | [] => ""
  | [e] => e
  | e :: rest => e +:+ sep +:+ Join rest sep
  end.

(** [strings.Contains]. *)
Fixpoint Contains (s substr : string) : bool :=
  String.prefix substr s ||
  match s with
  | "" => false
  | String _ r => Contains r substr
  end.

End Strings.

(** Go's [error] values, by their message, and functions that return a value
    or an error. *)
Definition error := string.

Inductive result (A : Type) : Type :=
| Ok (a : A)
| Err (e : error).
Arguments Ok {A} a.
Arguments Err {A} e.

(** ** The types of the [genai] SDK the bot reads and builds *)

Module genai.

Definition RoleUser : string := "user".
Definition RoleModel : string := "model".
Definition BlockedReasonUnspecified : string := "BLOCKED_REASON_UNSPECIFIED".

Module Blob.
Record t := { Data : string; MIMEType : string }.
End Blob.

Module ExecutableCode.
Record t := { Code : string; Language : string }.
End ExecutableCode.

Module CodeExecutionResult.
Record t := { Outcome : string; Output : string }.
End CodeExecutionResult.

Module Part.
Record t := {
  Text : string;
  Thought : bool;
  InlineData : option Blob.t;
  ExecutableCode : option ExecutableCode.t;
  CodeExecutionResult : option CodeExecutionResult.t
}.
End Part.

Module Content.
Record t := { Parts : list (option Part.t); Role : string }.
End Content.

Module Citation.
Record t := { Title : string; URI : string }.
End Citation.

Module CitationMetadata.
Record t := { Citations : list (option Citation.t) }.
End CitationMetadata.

Module GroundingChunkWeb.
Record t := { Title : string; URI : string }.
End GroundingChunkWeb.

Module GroundingChunk.
Record t := { Web : option GroundingChunkWeb.t }.
End GroundingChunk.

Module GroundingMetadata.
Record t := { GroundingChunks : list (option GroundingChunk.t) }.
End GroundingMetadata.

Module Candidate.
Record t := {
  Content : option Content.t;
  CitationMetadata : option CitationMetadata.t;
  GroundingMetadata : option GroundingMetadata.t
}.
End Candidate.

Module PromptFeedback.
Record t := { BlockReason : string }.
End PromptFeedback.

Module GenerateContentResponse.
Record t := {
  Candidates : list (option Candidate.t);
  PromptFeedback : option PromptFeedback.t
}.
End GenerateContentResponse.

Module ThinkingConfig.
Record t := { IncludeThoughts : bool; ThinkingBudget : option Z }.
End ThinkingConfig.

Definition NewPartFromText (text : string) : Part.t :=
  {| Part.Text := text; Part.Thought := false; Part.InlineData := None;
     Part.ExecutableCode := None; Part.CodeExecutionResult := None |}.

Definition NewPartFromBlob (b : Blob.t) : Part.t :=
  {| Part.Text := ""; Part.Thought := false; Part.InlineData := Some b;
     Part.ExecutableCode := None; Part.CodeExecutionResult := None |}.

Definition NewContentFromParts (parts : list (option Part.t)) (role : string)
  : Content.t :=
  {| Content.Parts := parts; Content.Role := role |}.

(** [client.Models.GenerateContent]: the completion service, seen as what it
    answers to a conversation under a thinking configuration. *)
Definition Client : Type :=
  list Content.t -> ThinkingConfig.t -> result GenerateContentResponse.t.

End genai.

(** ** The types of the [telebot] SDK the bot builds, and the bot's channel *)

Module tele.

Definition ModeMarkdownV2 : string := "MarkdownV2".

(** [Btn], and the [InlineButton] it becomes: the fields the bot sets. *)
Module Btn.
Record t := { Unique : string; Text : string; Data : string }.
End Btn.

Definition Row : Type := list Btn.t.

Module ReplyMarkup.
Record t := { InlineKeyboard : list (list Btn.t) }.
Definition empty : t := {| InlineKeyboard := [] |}.
End ReplyMarkup.

(** [ReplyMarkup.Data(text, unique, data...)]. *)
Definition Data (text unique : string) (data : list string) : Btn.t :=
  {| Btn.Unique := unique; Btn.Text := text;
     Btn.Data := Strings.Join data "|" |}.

(** [ReplyMarkup.Inline(rows...)] (telebot, markup.go) turns the rows it is
    given into a grid of inline buttons and assigns this grid to the
    [InlineKeyboard] field of the receiver: the rows of an earlier call are
    overwritten, not extended. *)
Definition Inline (rows : list Row) (r : ReplyMarkup.t) : ReplyMarkup.t :=
  {| ReplyMarkup.InlineKeyboard := rows |}.

Module SendOptions.
Record t := {
  ReplyMarkup : option ReplyMarkup.t;
  DisableWebPagePreview : bool;
  ParseMode : string
}.
End SendOptions.

(** One call of [bot.Send]. *)
Module Sent.
Record t := { To : Z; Body : string; Options : SendOptions.t }.
End Sent.

(** The channel as the bot sees it: the calls of [Send] made so far, and what
    the channel answers to the calls to come ([None] is success, and a
    channel with no answer left accepts). *)
Module Bot.
Record t := { calls : list Sent.t; answers : list (option error) }.
Definition idle : t := {| calls := []; answers := [] |}.
End Bot.

Definition Send (to : Z) (text : string) (opts : SendOptions.t) (b : Bot.t)
  : option error * Bot.t :=
  let call := {| Sent.To := to; Sent.Body := text; Sent.Options := opts |} in
  match Bot.answers b with
  | [] => (None, {| Bot.calls := Bot.calls b ++ [call]; Bot.answers := [] |})
  | answer :: rest =>
      (answer, {| Bot.calls := Bot.calls b ++ [call]; Bot.answers := rest |})
  end.

(** What fetching an attachment gives: [bot.File] fails, [bot.Download]
    fails, or the bytes arrive, with the MIME type found for them (the one
    the channel names, else the one of the file extension, else the one
    sniffed from the bytes). *)
Module Fetch.
Inductive t :=
| FileFailed (e : error)
| DownloadFailed (e : error)
| Downloaded (data : string) (mimeType : string).
End Fetch.

(** An incoming message: its chat, text and caption, and the attachments it
    carries, in the order photo, document, video, audio, voice note, video
    note. *)
Module Message.
Record t := {
  ChatID : Z;
  Text : string;
  Caption : string;
  Media : list Fetch.t
}.
End Message.

End tele.

(** ** format.go *)

(** [strings.NewReplacer] with single-byte old strings builds a byte-to-string
    replacer: every byte that has an entry is replaced by its string, and the
    first entry given for a byte is the one that counts. *)
Module Replacer.

Definition t : Type := list (ascii * string).

Definition lookup (r : t) (c : ascii) : option string :=
  snd <$> find (fun entry => Ascii.eqb (fst entry) c) r.

Fixpoint Replace (r : t) (s : string) : string :=
  match s with
  | "" => ""
  | String c rest => default (String c "") (lookup r c) +:+ Replace r rest
  end.

End Replacer.

Definition markdownV2Escaper : Replacer.t :=
  [ ("\"%char, "\\"); ("_"%char, "\_"); ("*"%char, "\*"); ("["%char, "\[");
    ("]"%char, "\]"); ("("%char, "\("); (")"%char, "\)"); ("~"%char, "\~");
    ("`"%char, "\`"); (">"%char, "\>"); ("#"%char, "\#"); ("+"%char, "\+");
    ("-"%char, "\-"); ("="%char, "\="); ("|"%char, "\|"); ("{"%char, "\{");
    ("}"%char, "\}"); ("."%char, "\."); ("!"%char, "\!") ].

Definition escapeMarkdownV2 (text : string) : string :=
  Replacer.Replace markdownV2Escaper text.

(** The regular expression of [sentenceSplitter] matches a maximal run of
    the bytes [.], [?], [!] and line feed. *)
Definition isBoundary (c : ascii) : bool :=
  Ascii.eqb c "."%char || Ascii.eqb c "?"%char || Ascii.eqb c "!"%char
  || Ascii.eqb c Strings.LF.

(** [sentenceSplitter.Split(s, -1)]: the substrings between the matches.  A
    match at the start of [s] leaves an empty first substring, a match at its
    end an empty last one, and the empty string splits into one empty
    substring.  [inRun] tells that the byte before was part of a match, and
    [cur] is the substring read since the last match. *)
Fixpoint splitRuns (inRun : bool) (cur : string) (s : string) : list string :=
  match s with
  | "" => [cur]
  | String c rest =>
      if isBoundary c then
        if inRun then splitRuns true "" rest
        else cur :: splitRuns true "" rest
      else splitRuns false (cur +:+ String c "") rest
  end.

Definition sentenceSplit (s : string) : list string :=
  splitRuns false "" s.

(** The body of the inner loop of [summarizeThoughts]. *)
Definition keepChunk (cleaned : list string) (chunk : string) : list string :=
  let chunk := Strings.TrimSpace chunk in
  if String.eqb chunk "" then cleaned else cleaned ++ [chunk].

Definition cleanThought (cleaned : list string) (thought : string)
  : list string :=
  foldl keepChunk cleaned (sentenceSplit thought).

(** [limit] is a Go [int]; slicing [cleaned[:limit]] with a negative [limit]
    panics, which is the result [None]. *)
Definition summarizeThoughts (thoughts : list string) (limit : Z)
  : option (list string) :=
  let cleaned := foldl cleanThought [] thoughts in
  if (limit <? Z.of_nat (length cleaned))%Z then
    if (limit <? 0)%Z then None
    else Some (take (Z.to_nat limit) cleaned ++ ["..."])
  else Some cleaned.

(** ** session.go *)

Definition maxHistoryEntries : nat := 20.

Definition thinkingMode : Type := string.

Definition thinkingModeLow : thinkingMode := "low".
Definition thinkingModeMedium : thinkingMode := "medium".
Definition thinkingModeHigh : thinkingMode := "high".
Definition thinkingModeDynamic : thinkingMode := "dynamic".

Definition defaultThinkingMode : thinkingMode := thinkingModeMedium.

Definition isThinkingMode (v : string) : bool :=
  String.eqb v thinkingModeLow || String.eqb v thinkingModeMedium
  || String.eqb v thinkingModeHigh || String.eqb v thinkingModeDynamic.

Definition parseThinkingMode (v : string) : thinkingMode :=
  if isThinkingMode v then v else defaultThinkingMode.

(** The [int32] the returned pointer points to; the pointer is never nil. *)
Definition budgetTokens (m : thinkingMode) : option Z :=
  if String.eqb m thinkingModeLow then Some 4096%Z
  else if String.eqb m thinkingModeMedium then Some 16384%Z
  else if String.eqb m thinkingModeHigh then Some 32768%Z
  else if String.eqb m thinkingModeDynamic then Some (-1)%Z
  else Some 16384%Z.

Definition label (m : thinkingMode) : string :=
  if String.eqb m thinkingModeLow then "Low - 4,096 tokens"
  else if String.eqb m thinkingModeMedium then "Medium - 16,384 tokens"
  else if String.eqb m thinkingModeHigh then "High - 32,768 tokens"
  else if String.eqb m thinkingModeDynamic then "Dynamic reasoning"
  else "Medium - 16,384 tokens".

Record sessionState := {
  history : list genai.Content.t;
  thinking : thinkingMode
}.

(** The manager owns the sessions: a handler takes the session of a chat
    out of the table, works on it and puts it back. *)
Record sessionManager := {
  sessions : gmap Z sessionState;
  defaultMode : thinkingMode
}.

Definition newSessionManager (defaultMode : thinkingMode) : sessionManager :=
  {| sessions := ∅; defaultMode := defaultMode |}.

Definition sessionManager_get (m : sessionManager) (chatID : Z)
  : sessionState * sessionManager :=
  match sessions m !! chatID with
  | Some session => (session, m)
  | None =>
      let session := {| history := []; thinking := defaultMode m |} in
      (session,
       {| sessions := <[chatID := session]> (sessions m);
          defaultMode := defaultMode m |})
  end.

(** Writes a session a handler worked on back to the table. *)
Definition sessionManager_set (m : sessionManager) (chatID : Z)
    (session : sessionState) : sessionManager :=
  {| sessions := <[chatID := session]> (sessions m);
     defaultMode := defaultMode m |}.

Definition conversationWith (s : sessionState) (user : genai.Content.t)
  : list genai.Content.t :=
  history s ++ [user].

Definition appendTurn (s : sessionState)
    (user model : option genai.Content.t) : sessionState :=
  let h := history s in
  let h := match user with Some u => h ++ [u] | None => h end in
  let h := match model with Some m => h ++ [m] | None => h end in
  let h :=
    if maxHistoryEntries <? length h
    then drop (length h - maxHistoryEntries) h
    else h in
  {| history := h; thinking := thinking s |}.

Definition currentThinking (s : sessionState) : thinkingMode * sessionState :=
  if String.eqb (thinking s) ""
  then (defaultThinkingMode,
        {| history := history s; thinking := defaultThinkingMode |})
  else (thinking s, s).

Definition setThinking (s : sessionState) (mode : thinkingMode)
  : sessionState :=
  {| history := history s; thinking := mode |}.

(** ** artifacts.go *)

Record sourceRef := { Title : string; URI : string }.

Record codeSnippet := {
  Language : string;
  Code : string;
  Outcome : string;
  Output : string
}.

Record responseArtifacts := {
  Thoughts : list string;
  Sources : list sourceRef;
  CodeSnippets : list codeSnippet
}.

Record artifactStore := {
  items : gmap string responseArtifacts;
  counter : N
}.

Definition newArtifactStore : artifactStore :=
  {| items := ∅; counter := 0%N |}.

(** [atomic.AddUint64(&s.counter, 1)] wraps around at [2^64]. *)
Definition uint64_succ (n : N) : N := ((n + 1) mod 2 ^ 64)%N.

(** [strconv.FormatUint(id, 10)]. *)
Definition FormatUint (id : N) : string := pretty id.

Definition put (s : artifactStore) (art : option responseArtifacts)
  : string * artifactStore :=
  match art with
  | None => ("", s)
  | Some art =>
      let id := uint64_succ (counter s) in
      let key := FormatUint id in
      (key, {| items := <[key := art]> (items s); counter := id |})
  end.

Definition get (s : artifactStore) (id : string)
  : option responseArtifacts * bool :=
  match items s !! id with
  | Some art => (Some art, true)
  | None => (None, false)
  end.

(** ** app.go *)

Definition showThoughtsUnique : string := "show_thoughts".
Definition showSourcesUnique : string := "show_sources".
Definition showCodeUnique : string := "show_code".
Definition selectThinkingModeUnique : string := "set_thinking_mode".

(** The fields of [App] that change or answer while it runs; the system
    instruction and the tools are constants of every request. *)
Module App.
Record t := {
  bot : tele.Bot.t;
  client : genai.Client;
  sessions : sessionManager;
  artifacts : artifactStore
}.
End App.

(** The application [New] returns, for a given completion service. *)
Definition New (client : genai.Client) : App.t :=
  {| App.bot := tele.Bot.idle;
     App.client := client;
     App.sessions := newSessionManager defaultThinkingMode;
     App.artifacts := newArtifactStore |}.

(** The options most sends use: no keyboard, no page preview. *)
Definition plainOptions : tele.SendOptions.t :=
  {| tele.SendOptions.ReplyMarkup := None;
     tele.SendOptions.DisableWebPagePreview := true;
     tele.SendOptions.ParseMode := "" |}.

Definition isParseError (err : option error) : bool :=
  match err with
  | None => false
  | Some msg =>
      Strings.Contains msg "can't parse entities"
      || Strings.Contains msg "can't parse message"
  end.

Definition withParseMode (opts : tele.SendOptions.t) (mode : string)
  : tele.SendOptions.t :=
  {| tele.SendOptions.ReplyMarkup := tele.SendOptions.ReplyMarkup opts;
     tele.SendOptions.DisableWebPagePreview :=
       tele.SendOptions.DisableWebPagePreview opts;
     tele.SendOptions.ParseMode := mode |}.

(** Every caller passes options, so [opts] is not nil here.  The result is
    the error of the last [Send]. *)
Definition sendWithFallback (b : tele.Bot.t) (recipient : Z) (text : string)
    (opts : tele.SendOptions.t) : option error * tele.Bot.t :=
  let cloned :=
    if String.eqb (tele.SendOptions.ParseMode opts) ""
    then withParseMode opts tele.ModeMarkdownV2 else opts in
  let '(err, b) := tele.Send recipient text cloned b in
  if negb (isParseError err) then (err, b)
  else
    let cloned := withParseMode opts tele.ModeMarkdownV2 in
    let safe := escapeMarkdownV2 text in
    tele.Send recipient safe cloned b.

Definition firstCandidate (resp : option genai.GenerateContentResponse.t)
  : option genai.Candidate.t :=
  match resp with
  | None => None
  | Some resp =>
      match genai.GenerateContentResponse.Candidates resp with
      | [] => None
      | cand :: _ => cand
      end
  end.

(** The parts the loop of [filterModelContent] keeps: those that are
    neither nil nor marked as reasoning. *)
Definition keepPart (part : option genai.Part.t) : bool :=
  match part with
  | None => false
  | Some part => negb (genai.Part.Thought part)
  end.

Definition filterModelContent (content : option genai.Content.t)
  : option genai.Content.t :=
  match content with
  | None => None
  | Some content =>
      Some {| genai.Content.Role := genai.RoleModel;
              genai.Content.Parts :=
                foldl (fun cleaned part =>
                         if keepPart part then cleaned ++ [part] else cleaned)
                      [] (genai.Content.Parts content) |}
  end.

(** The state of the two loops of [collectSources]: the [seen] map, used as
    a set, and the sources found so far. *)
Definition sourceAcc : Type := gset string * list sourceRef.

Definition citationStep (acc : sourceAcc)
    (citation : option genai.Citation.t) : sourceAcc :=
  match citation with
  | None => acc
  | Some citation =>
      let uri := Strings.TrimSpace (genai.Citation.URI citation) in
      if String.eqb uri "" || bool_decide (uri ∈ acc.1) then acc
      else ({[uri]} ∪ acc.1,
            acc.2 ++ [{| Title := Strings.TrimSpace
                                    (genai.Citation.Title citation);
                         URI := uri |}])
  end.

Definition chunkStep (acc : sourceAcc)
    (chunk : option genai.GroundingChunk.t) : sourceAcc :=
  match chunk with
  | None => acc
  | Some chunk =>
      match genai.GroundingChunk.Web chunk with
      | None => acc
      | Some web =>
          let uri := Strings.TrimSpace (genai.GroundingChunkWeb.URI web) in
          if String.eqb uri "" || bool_decide (uri ∈ acc.1) then acc
          else ({[uri]} ∪ acc.1,
                acc.2 ++ [{| Title := Strings.TrimSpace
                                        (genai.GroundingChunkWeb.Title web);
                             URI := uri |}])
      end
  end.

Definition collectSources (candidate : option genai.Candidate.t)
  : list sourceRef :=
  match candidate with
  | None => []
  | Some candidate =>
      let acc : sourceAcc := (∅, []) in
      let acc :=
        match genai.Candidate.CitationMetadata candidate with
        | Some meta =>
            foldl citationStep acc (genai.CitationMetadata.Citations meta)
        | None => acc
        end in
      let acc :=
        match genai.Candidate.GroundingMetadata candidate with
        | Some meta =>
            foldl chunkStep acc (genai.GroundingMetadata.GroundingChunks meta)
        | None => acc
        end in
      acc.2
  end.

(** The three slices the loop of [renderResponse] fills. *)
Record rendering := {
  mainParts : list string;
  thoughtParts : list string;
  codeSnippets : list codeSnippet
}.

Definition renderPart (acc : rendering) (part : option genai.Part.t)
  : rendering :=
  match part with
  | None => acc
  | Some part =>
      if genai.Part.Thought part then
        let text := Strings.TrimSpace (genai.Part.Text part) in
        if String.eqb text "" then acc
        else {| mainParts := mainParts acc;
                thoughtParts := thoughtParts acc ++ [text];
                codeSnippets := codeSnippets acc |}
      else
        let main := mainParts acc in
        let text := Strings.TrimSpace (genai.Part.Text part) in
        let main := if String.eqb text "" then main else main ++ [text] in
        let main :=
          match genai.Part.CodeExecutionResult part with
          | Some res =>
              let out :=
                Strings.TrimSpace (genai.CodeExecutionResult.Output res) in
              if String.eqb out "" then main
              else main ++ ["Result:" +:+ Strings.newline +:+ out]
          | None => main
          end in
        let snippets :=
          match genai.Part.ExecutableCode part with
          | Some code =>
              let outcome :=
                match genai.Part.CodeExecutionResult part with
                | Some res => genai.CodeExecutionResult.Outcome res
                | None => ""
                end in
              let output :=
                match genai.Part.CodeExecutionResult part with
                | Some res => genai.CodeExecutionResult.Output res
                | None => ""
                end in
              codeSnippets acc ++
                [{| Language := genai.ExecutableCode.Language code;
                    Code := genai.ExecutableCode.Code code;
                    Outcome := outcome;
                    Output := output |}]
          | None => codeSnippets acc
          end in
        {| mainParts := main;
           thoughtParts := thoughtParts acc;
           codeSnippets := snippets |}
  end.

Definition renderResponse (resp : option genai.GenerateContentResponse.t)
  : string * responseArtifacts :=
  let noContent :=
    ("", {| Thoughts := []; Sources := []; CodeSnippets := [] |}) in
  match firstCandidate resp with
  | None => noContent
  | Some cand =>
      match genai.Candidate.Content cand with
      | None => noContent
      | Some content =>
          let acc :=
            foldl renderPart
              {| mainParts := []; thoughtParts := []; codeSnippets := [] |}
              (genai.Content.Parts content) in
          let sources := collectSources (Some cand) in
          let reply :=
            Strings.TrimSpace
              (Strings.Join (mainParts acc)
                 (Strings.newline +:+ Strings.newline)) in
          (reply, {| Thoughts := thoughtParts acc;
                     Sources := sources;
                     CodeSnippets := codeSnippets acc |})
      end
  end.

(** The body of [buildResponseMarkup], with the [Inline] method of the
    markup it builds as [inline]. *)
Definition buildResponseMarkupWith
    (inline : list tele.Row -> tele.ReplyMarkup.t -> tele.ReplyMarkup.t)
    (id : string) (art : option responseArtifacts)
  : option tele.ReplyMarkup.t :=
  match art with
  | None => None
  | Some art =>
      if String.eqb id "" then None
      else
        let markup := tele.ReplyMarkup.empty in
        let thoughtBtn := tele.Data "Show thoughts" showThoughtsUnique [id] in
        let markup := inline [[thoughtBtn]] markup in
        let markup :=
          if 0 <? length (Sources art) then
            let sourcesBtn :=
              tele.Data "Show sources" showSourcesUnique [id] in
            inline [[sourcesBtn]] markup
          else markup in
        let markup :=
          if 0 <? length (CodeSnippets art) then
            let codeBtn := tele.Data "Show code" showCodeUnique [id] in
            inline [[codeBtn]] markup
          else markup in
        Some markup
  end.

Definition buildResponseMarkup (id : string) (art : option responseArtifacts)
  : option tele.ReplyMarkup.t :=
  buildResponseMarkupWith tele.Inline id art.

Definition partFromFile (file : tele.Fetch.t) : result genai.Part.t :=
  match file with
  | tele.Fetch.FileFailed err => Err ("get file: " +:+ err)
  | tele.Fetch.DownloadFailed err => Err ("download file: " +:+ err)
  | tele.Fetch.Downloaded data mimeType =>
      if String.eqb data "" then Err "empty media payload"
      else Ok (genai.NewPartFromBlob
                 {| genai.Blob.Data := data;
                    genai.Blob.MIMEType := mimeType |})
  end.

(** The six attachment checks of [collectParts], one after the other. *)
Fixpoint collectMedia (parts : list (option genai.Part.t))
    (media : list tele.Fetch.t) : result (list (option genai.Part.t)) :=
  match media with
  | [] => Ok parts
  | file :: rest =>
      match partFromFile file with
      | Ok part => collectMedia (parts ++ [Some part]) rest
      | Err err => Err err
      end
  end.

Definition collectParts (msg : tele.Message.t)
  : result (list (option genai.Part.t)) :=
  let parts := [] in
  let text := Strings.TrimSpace (tele.Message.Text msg) in
  let parts :=
    if String.eqb text "" then parts
    else parts ++ [Some (genai.NewPartFromText text)] in
  let caption := Strings.TrimSpace (tele.Message.Caption msg) in
  let parts :=
    if negb (String.eqb caption "") && negb (String.eqb caption text)
    then parts ++ [Some (genai.NewPartFromText caption)]
    else parts in
  collectMedia parts (tele.Message.Media msg).

Definition buildGenerateConfig (mode : thinkingMode)
  : genai.ThinkingConfig.t :=
  {| genai.ThinkingConfig.IncludeThoughts := true;
     genai.ThinkingConfig.ThinkingBudget := budgetTokens mode |}.

(** The test of the safety check of [handleUserMessage]. *)
Definition blocked (resp : genai.GenerateContentResponse.t) : bool :=
  match genai.GenerateContentResponse.PromptFeedback resp with
  | None => false
  | Some feedback =>
      negb (String.eqb (genai.PromptFeedback.BlockReason feedback)
              genai.BlockedReasonUnspecified)
  end.

Definition safetyWarning : string :=
  "The request was blocked by safety filters.".

(** The handler returns its error and the application it leaves: the
    session it held the lock of is written back on every way out. *)
Definition handleUserMessage (a : App.t) (msg : option tele.Message.t)
  : option error * App.t :=
  match msg with
  | None => (None, a)
  | Some msg =>
      let chat := tele.Message.ChatID msg in
      let '(session, manager) := sessionManager_get (App.sessions a) chat in
      let leave (err : option error) (session : sessionState)
                (store : artifactStore) (b : tele.Bot.t) :=
        (err, {| App.bot := b;
                 App.client := App.client a;
                 App.sessions := sessionManager_set manager chat session;
                 App.artifacts := store |}) in
      match collectParts msg with
      | Err err =>
          let '(_, b) :=
            sendWithFallback (App.bot a) chat
              "I could not process that input." plainOptions in
          leave (Some err) session (App.artifacts a) b
      | Ok [] =>
          let '(err, b) :=
            sendWithFallback (App.bot a) chat
              "Please send text or supported media." plainOptions in
          leave err session (App.artifacts a) b
      | Ok parts =>
          let userContent :=
            genai.NewContentFromParts parts genai.RoleUser in
          let conversation := conversationWith session userContent in
          let '(mode, session) := currentThinking session in
          let cfg := buildGenerateConfig mode in
          match App.client a conversation cfg with
          | Err err =>
              let '(_, b) :=
                sendWithFallback (App.bot a) chat
                  "Eteon could not complete that request." plainOptions in
              leave (Some err) session (App.artifacts a) b
          | Ok resp =>
              if blocked resp then
                let '(_, b) :=
                  sendWithFallback (App.bot a) chat safetyWarning
                    plainOptions in
                leave None session (App.artifacts a) b
              else
                let '(reply, artifacts) := renderResponse (Some resp) in
                let reply :=
                  if String.eqb reply "" then "No content received."
                  else reply in
                let session :=
                  match firstCandidate (Some resp) with
                  | Some candidate =>
                      match genai.Candidate.Content candidate with
                      | Some content =>
                          appendTurn session (Some userContent)
                            (filterModelContent (Some content))
                      | None => appendTurn session (Some userContent) None
                      end
                  | None => appendTurn session (Some userContent) None
                  end in
                let '(recordID, store) :=
                  put (App.artifacts a) (Some artifacts) in
                let markup :=
                  if String.eqb recordID "" then None
                  else buildResponseMarkup recordID (Some artifacts) in
                let '(sendErr, b) :=
                  sendWithFallback (App.bot a) chat reply
                    {| tele.SendOptions.ReplyMarkup := markup;
                       tele.SendOptions.DisableWebPagePreview := true;
                       tele.SendOptions.ParseMode := "" |} in
                leave sendErr session store b
          end
      end
  end.

Definition handleSettings (a : App.t) (chat : Z) : option error * App.t :=
  let '(session, manager) := sessionManager_get (App.sessions a) chat in
  let menu := tele.ReplyMarkup.empty in
  let btnLow :=
    tele.Data "Low - 4,096 tokens" selectThinkingModeUnique
      [thinkingModeLow] in
  let btnMed :=
    tele.Data "Medium - 16,384 tokens" selectThinkingModeUnique
      [thinkingModeMedium] in
  let btnHigh :=
    tele.Data "High - 32,768 tokens" selectThinkingModeUnique
      [thinkingModeHigh] in
  let btnDyn :=
    tele.Data "Dynamic reasoning" selectThinkingModeUnique
      [thinkingModeDynamic] in
  let menu := tele.Inline [[btnLow]] menu in
  let menu := tele.Inline [[btnMed]] menu in
  let menu := tele.Inline [[btnHigh]] menu in
  let menu := tele.Inline [[btnDyn]] menu in
  let '(mode, session) := currentThinking session in
  let body := "Current thinking budget: " +:+ label mode in
  let '(err, b) :=
    sendWithFallback (App.bot a) chat body
      {| tele.SendOptions.ReplyMarkup := Some menu;
         tele.SendOptions.DisableWebPagePreview := true;
         tele.SendOptions.ParseMode := "" |} in
  (err, {| App.bot := b;
           App.client := App.client a;
           App.sessions := sessionManager_set manager chat session;
           App.artifacts := App.artifacts a |}).

Definition handleModeSelection (a : App.t) (chat : Z) (payload : string)
  : option error * App.t :=
  let mode := parseThinkingMode payload in
  let '(session, manager) := sessionManager_get (App.sessions a) chat in
  let session := setThinking session mode in
  let confirmation := "Thinking budget switched to " +:+ label mode in
  let '(err, b) :=
    sendWithFallback (App.bot a) chat confirmation plainOptions in
  (err, {| App.bot := b;
           App.client := App.client a;
           App.sessions := sessionManager_set manager chat session;
           App.artifacts := App.artifacts a |}).

(** The updates that reach a handler which touches a session. *)
Inductive update :=
| OnMessage (msg : option tele.Message.t)
| OnSettings (chat : Z)
| OnModeSelection (chat : Z) (payload : string).

Definition dispatch (a : App.t) (u : update) : App.t :=
  match u with
  | OnMessage msg => (handleUserMessage a msg).2
  | OnSettings chat => (handleSettings a chat).2
  | OnModeSelection chat payload => (handleModeSelection a chat payload).2
  end.

(** A run of the bot: before each update, [expect] fixes what the channel
    will answer to the sends of its handler. *)
Definition expect (a : App.t) (answers : list (option error)) : App.t :=
  {| App.bot := {| tele.Bot.calls := tele.Bot.calls (App.bot a);
                   tele.Bot.answers := answers |};
     App.client := App.client a;
     App.sessions := App.sessions a;
     App.artifacts := App.artifacts a |}.

Definition run (a : App.t) (us : list (list (option error) * update))
  : App.t :=
  foldl (fun a u => dispatch (expect a u.1) u.2) a us.

(** ** app.go: the configuration *)

Module Config.
Record t := { TelegramToken : string; GeminiAPIKey : string }.
End Config.

(** [Config.Validate]; [None] is the nil error. *)
Definition Validate (c : Config.t) : option error :=
  if String.eqb (Strings.TrimSpace (Config.TelegramToken c)) ""
  then Some "TELEGRAM_BOT_TOKEN is required"
  else if String.eqb (Strings.TrimSpace (Config.GeminiAPIKey c)) ""
  then Some "GEMINI_API_KEY is required"
  else None.

(** ** app.go: the callback handlers *)

(** [strings.ReplaceAll(s, old, new)] for an [old] of one byte: every
    occurrence of the byte is replaced. *)
Definition ReplaceAll (s : string) (old : ascii) (new : string) : string :=
  Replacer.Replace [(old, new)] s.

(** [strings.TrimRight(s, cutset)] for a cutset of one ASCII byte: the
    trailing occurrences of the byte are removed. *)
Fixpoint dropLeading (cut : ascii) (s : string) : string :=
  match s with
  | "" => ""
  | String c rest => if Ascii.eqb c cut then dropLeading cut rest else s
  end.

Definition TrimRight (s : string) (cut : ascii) : string :=
  Strings.rev (dropLeading cut (Strings.rev s)).

(** The decimal [fmt.Sprintf] writes for [%d], for an index that is not
    negative. *)
Definition Itoa (n : nat) : string := pretty (N.of_nat n).

Definition escapeCode (text : string) : string :=
  let text := ReplaceAll text "\"%char "\\" in
  ReplaceAll text "`"%char "\`".

(** [formatCodeSnippet]; [toLower] is [strings.ToLower], which maps the runes
    of its argument through Unicode's lower-case tables. *)
Definition formatCodeSnippet (toLower : string -> string) (index : nat)
    (snippet : codeSnippet) : string :=
  let language := toLower (Strings.TrimSpace (Language snippet)) in
  let language := if String.eqb language "" then "text" else language in
  let b := "Code snippet " +:+ Itoa index +:+ ":" +:+ Strings.newline in
  let b := b +:+ "```" in
  let b := b +:+ language in
  let b := b +:+ Strings.newline in
  let b := b +:+ escapeCode (Code snippet) in
  let b := b +:+ Strings.newline +:+ "```" in
  let b :=
    if String.eqb (Outcome snippet) "" then b
    else (b +:+ Strings.newline +:+ "Outcome: ") +:+ Outcome snippet in
  let b :=
    if String.eqb (Strings.TrimSpace (Output snippet)) "" then b
    else
      ((((b +:+ Strings.newline +:+ "Output:" +:+ Strings.newline +:+ "```")
         +:+ language) +:+ Strings.newline) +:+ escapeCode (Output snippet))
      +:+ Strings.newline +:+ "```" in
  b.

(** One call of [bot.Edit]: the message edited, named by the position of the
    [Send] call that created it, and the new text and options. *)
Module Edited.
Record t := { Target : nat; Body : string; Options : tele.SendOptions.t }.
End Edited.

(** [bot.Edit] is answered by the channel like [bot.Send]; its calls are
    kept in a list of their own. *)
Definition Edit (target : nat) (text : string) (opts : tele.SendOptions.t)
    (b : tele.Bot.t) (edits : list Edited.t)
  : option error * tele.Bot.t * list Edited.t :=
  let call := {| Edited.Target := target; Edited.Body := text;
                 Edited.Options := opts |} in
  match tele.Bot.answers b with
  | [] => (None, b, edits ++ [call])
  | answer :: rest =>
      (answer,
       {| tele.Bot.calls := tele.Bot.calls b; tele.Bot.answers := rest |},
       edits ++ [call])
  end.

(** [editWithFallback], for options that are not nil. *)
Definition editWithFallback (b : tele.Bot.t) (edits : list Edited.t)
    (target : nat) (text : string) (opts : tele.SendOptions.t)
  : option error * tele.Bot.t * list Edited.t :=
  let cloned :=
    if String.eqb (tele.SendOptions.ParseMode opts) ""
    then withParseMode opts tele.ModeMarkdownV2 else opts in
  let '(err, b, edits) := Edit target text cloned b edits in
  if negb (isParseError err) then (err, b, edits)
  else
    let cloned := withParseMode cloned tele.ModeMarkdownV2 in
    let safe := escapeMarkdownV2 text in
    Edit target safe cloned b edits.

(** The loop of [handleShowThoughts] over the steps. *)
Definition writeStep (b : string) (step : string) : string :=
  ((b +:+ "- ") +:+ step) +:+ Strings.newline.

(** The text [handleShowThoughts] shows for what the store holds under a
    key.  The limit passed to [summarizeThoughts] is 5, so it does not
    panic. *)
Definition thoughtsPrompt (found : option responseArtifacts * bool)
  : string :=
  let prompt := "Reasoning summary is unavailable." in
  match found with
  | (Some art, true) =>
      if 0 <? length (Thoughts art) then
        match summarizeThoughts (Thoughts art) 5 with
        | Some steps =>
            if 0 <? length steps then
              let b := "Reasoning summary:" +:+ Strings.newline in
              let b := foldl writeStep b steps in
              TrimRight b Strings.LF
            else prompt
        | None => prompt
        end
      else prompt
  | _ => prompt
  end.

(** [handleShowThoughts]: the placeholder is sent, then edited into the
    summary; the message edited is the one the last [Send] created. *)
Definition handleShowThoughts (a : App.t) (edits : list Edited.t)
    (chat : Z) (id : string) : option error * App.t * list Edited.t :=
  let prompt := thoughtsPrompt (get (App.artifacts a) id) in
  let '(err, b) :=
    sendWithFallback (App.bot a) chat "Summarising thoughts..."
      plainOptions in
  let a' := {| App.bot := b; App.client := App.client a;
               App.sessions := App.sessions a;
               App.artifacts := App.artifacts a |} in
  match err with
  | Some err => (Some err, a', edits)
  | None =>
      let placeholder := pred (length (tele.Bot.calls b)) in
      let '(err, b, edits) :=
        editWithFallback b edits placeholder prompt plainOptions in
      (err,
       {| App.bot := b; App.client := App.client a;
          App.sessions := App.sessions a;
          App.artifacts := App.artifacts a |},
       edits)
  end.

(** The loop of [handleShowSources]: [i] is the index of the source. *)
Definition writeSource (b : string) (i : nat) (src : sourceRef) : string :=
  let title := Title src in
  let title := if String.eqb title "" then "Untitled" else title in
  b +:+ (Itoa (i + 1) +:+ ". " +:+ title +:+ " - " +:+ URI src
         +:+ Strings.newline).

Fixpoint writeSources (b : string) (i : nat) (sources : list sourceRef)
  : string :=
  match sources with
  | [] => b
  | src :: rest => writeSources (writeSource b i src) (S i) rest
  end.

Definition handleShowSources (a : App.t) (chat : Z) (id : string)
  : option error * App.t :=
  let leave (sent : option error * tele.Bot.t) :=
    (sent.1, {| App.bot := sent.2; App.client := App.client a;
                App.sessions := App.sessions a;
                App.artifacts := App.artifacts a |}) in
  let notice :=
    leave (sendWithFallback (App.bot a) chat
             "No sources available for this reply." plainOptions) in
  match get (App.artifacts a) id with
  | (Some art, true) =>
      if length (Sources art) =? 0 then notice
      else
        let b := "Sources:" +:+ Strings.newline in
        let b := writeSources b 0 (Sources art) in
        let body := TrimRight b Strings.LF in
        leave (sendWithFallback (App.bot a) chat body
                 {| tele.SendOptions.ReplyMarkup := None;
                    tele.SendOptions.DisableWebPagePreview := false;
                    tele.SendOptions.ParseMode := "" |})
  | _ => notice
  end.

Definition handleShowCode (toLower : string -> string) (a : App.t)
    (chat : Z) (id : string) : option error * App.t :=
  let leave (sent : option error * tele.Bot.t) :=
    (sent.1, {| App.bot := sent.2; App.client := App.client a;
                App.sessions := App.sessions a;
                App.artifacts := App.artifacts a |}) in
  let notice :=
    leave (sendWithFallback (App.bot a) chat
             "No executable code was used for this reply." plainOptions) in
  match get (App.artifacts a) id with
  | (Some art, true) =>
      if length (CodeSnippets art) =? 0 then notice
      else
        let sections :=
          imap (fun idx snippet => formatCodeSnippet toLower (idx + 1) snippet)
               (CodeSnippets art) in
        let body :=
          Strings.Join sections (Strings.newline +:+ Strings.newline) in
        leave (sendWithFallback (App.bot a) chat body plainOptions)
  | _ => notice
  end.

(** ** app.go: the routes *)

(** The handler [registerHandlers] installs for [/start]. *)
Definition handleStart (a : App.t) (chat : Z) : option error * App.t :=
  let welcome :=
    "Hi, I am Eteon. Share a prompt, a link, or media and I will respond concisely."
  in
  let '(err, b) := sendWithFallback (App.bot a) chat welcome plainOptions in
  (err, {| App.bot := b;
           App.client := App.client a;
           App.sessions := App.sessions a;
           App.artifacts := App.artifacts a |}).

(** What reaches the bot: an update for one of the handlers that touch a
    session, the start command, or a press on one of the buttons under a
    reply, with the key the button carries. *)
Inductive event :=
| OnUpdate (u : update)
| OnStart (chat : Z)
| OnShowThoughts (chat : Z) (id : string)
| OnShowSources (chat : Z) (id : string)
| OnShowCode (chat : Z) (id : string).

(** The routes of [registerHandlers].  The state is the application and the
    edits made so far; before each event, [expect] fixes what the channel
    will answer to the calls of its handler. *)
Definition serve (toLower : string -> string) (st : App.t * list Edited.t)
    (e : list (option error) * event) : App.t * list Edited.t :=
  let a := expect st.1 e.1 in
  match e.2 with
  | OnUpdate u => (dispatch a u, st.2)
  | OnStart chat => ((handleStart a chat).2, st.2)
  | OnShowThoughts chat id =>
      let shown := handleShowThoughts a st.2 chat id in
      (shown.1.2, shown.2)
  | OnShowSources chat id => ((handleShowSources a chat id).2, st.2)
  | OnShowCode chat id => ((handleShowCode toLower a chat id).2, st.2)
  end.

Definition serveAll (toLower : string -> string) (st : App.t * list Edited.t)
    (events : list (list (option error) * event)) : App.t * list Edited.t :=
  foldl (serve toLower) st events.

(** * The notions the properties are stated with *)

(** ** Trimming: notions *)

(** The encodings of the white-space runes. *)
Definition spaceRunes : list string := Strings.utf8 <$> Strings.whiteSpace.

(** Strings put one after the other. *)
Definition glue (l : list string) : string := foldr String.append "" l.

(** ** Markup escaping: notions *)

(** The characters Telegram's MarkdownV2 dialect reserves. *)
Definition reservedMarkdownV2 : list ascii :=
  [ "_"; "*"; "["; "]"; "("; ")"; "~"; "`"; ">"; "#"; "+"; "-"; "="; "|";
    "{"; "}"; "."; "!" ]%char.

(** The bytes the escaper rewrites: the reserved ones and the backslash. *)
Definition needsEscape (c : ascii) : bool :=
  bool_decide (c ∈ "\"%char :: reservedMarkdownV2).

(** Escaping as the specification words it: a backslash before every
    occurrence of a byte that needs one. *)
Fixpoint backslashEach (s : string) : string :=
  match s with
  | "" => ""
  | String c rest =>
      if needsEscape c then String "\"%char (String c (backslashEach rest))
      else String c (backslashEach rest)
  end.

(** ** Summaries of the reasoning: notions *)

(** The chunks of one fragment: its pieces between the boundary runs,
    trimmed, the empty ones left out. *)
Definition chunksOf (thought : string) : list string :=
  filter (fun chunk => chunk <> "")
         (Strings.TrimSpace <$> sentenceSplit thought).

(** The summary as the specification words it, with the marker the code
    appends. *)
Definition summaryOf (thoughts : list string) (limit : nat) : list string :=
  let chunks := concat (chunksOf <$> thoughts) in
  if limit <? length chunks then take limit chunks ++ ["..."] else chunks.

(** U+2026, the horizontal ellipsis. *)
Definition ellipsis : string := Strings.utf8 8230.

(** The bytes of a string. *)
Abbreviation bytesOf := list_ascii_of_string.

(** A string none of whose bytes the splitter matches. *)
Definition boundaryFree (s : string) : Prop :=
  Forall (fun c => isBoundary c = false) (bytesOf s).

(** A string without the bytes the splitter matches. *)
Fixpoint dropBoundaries (s : string) : string :=
  match s with
  | "" => ""
  | String c rest =>
      if isBoundary c then dropBoundaries rest
      else String c (dropBoundaries rest)
  end.

(** ** The window of the conversation history: notions *)

(** The last [n] entries of a list, in their order. *)
Definition lastN {A : Type} (n : nat) (l : list A) : list A :=
  drop (length l - n) l.

Definition turnEntries (turn : option genai.Content.t * option genai.Content.t)
  : list genai.Content.t :=
  option_list turn.1 ++ option_list turn.2.

(** A run of [appendTurn] calls on one session. *)
Definition appendTurns (s : sessionState)
    (turns : list (option genai.Content.t * option genai.Content.t))
  : sessionState :=
  foldl (fun s turn => appendTurn s turn.1 turn.2) s turns.

Definition fullPair (pair : genai.Content.t * genai.Content.t)
  : option genai.Content.t * option genai.Content.t :=
  (Some pair.1, Some pair.2).

(** ** The artifact store: notions *)

(** A run of [put] calls on one store, with the keys they return. *)
Fixpoint putAll (s : artifactStore) (arts : list (option responseArtifacts))
  : list string * artifactStore :=
  match arts with
  | [] => ([], s)
  | art :: rest =>
      let '(key, s) := put s art in
      let '(keys, s) := putAll s rest in
      (key :: keys, s)
  end.

(** What holds of a store and of the keys it has returned so far: the bundles
    it holds are filed under returned keys, and a returned key is empty (for
    an absent bundle) or the decimal of a counter value already passed. *)
Definition storeInv (s : artifactStore) (issued : list string) : Prop :=
  (forall key, is_Some (items s !! key) -> key ∈ issued /\ key <> "")
  /\ (forall key, key ∈ issued ->
        key = "" \/ exists id, (1 <= id <= counter s)%N /\ key = FormatUint id).

(** ** Sources: notions *)

Definition citationsOf (cand : genai.Candidate.t)
  : list (option genai.Citation.t) :=
  match genai.Candidate.CitationMetadata cand with
  | Some meta => genai.CitationMetadata.Citations meta
  | None => []
  end.

Definition chunksOfCandidate (cand : genai.Candidate.t)
  : list (option genai.GroundingChunk.t) :=
  match genai.Candidate.GroundingMetadata cand with
  | Some meta => genai.GroundingMetadata.GroundingChunks meta
  | None => []
  end.

(** A citation as a source: title and URI trimmed. *)
Definition citationEntry (citation : option genai.Citation.t)
  : option sourceRef :=
  citation ≫= fun citation =>
    Some {| Title := Strings.TrimSpace (genai.Citation.Title citation);
            URI := Strings.TrimSpace (genai.Citation.URI citation) |}.

(** The web reference of a grounding chunk as a source. *)
Definition chunkEntry (chunk : option genai.GroundingChunk.t)
  : option sourceRef :=
  chunk ≫= fun chunk =>
    genai.GroundingChunk.Web chunk ≫= fun web =>
      Some {| Title := Strings.TrimSpace (genai.GroundingChunkWeb.Title web);
              URI := Strings.TrimSpace (genai.GroundingChunkWeb.URI web) |}.

(** Everything a candidate names as a source, in the order of discovery:
    the citations, then the web references of the grounding chunks. *)
Definition discovered (cand : genai.Candidate.t) : list sourceRef :=
  omap citationEntry (citationsOf cand) ++
  omap chunkEntry (chunksOfCandidate cand).

(** The URIs of a candidate as the response spells them. *)
Definition rawURIs (cand : genai.Candidate.t) : list string :=
  omap (fun citation => genai.Citation.URI <$> citation) (citationsOf cand) ++
  omap (fun chunk => chunk ≫= fun chunk =>
          genai.GroundingChunkWeb.URI <$> genai.GroundingChunk.Web chunk)
       (chunksOfCandidate cand).

(** One round of either loop, on an entry already trimmed. *)
Definition remember (acc : sourceAcc) (entry : sourceRef) : sourceAcc :=
  if String.eqb (URI entry) "" || bool_decide (URI entry ∈ acc.1) then acc
  else ({[URI entry]} ∪ acc.1, acc.2 ++ [entry]).

(** The entries whose URI is not empty, was not [seen] and occurs for the
    first time. *)
Fixpoint firstOccurrences (seen : gset string) (entries : list sourceRef)
  : list sourceRef :=
  match entries with
  | [] => []
  | entry :: rest =>
      if String.eqb (URI entry) "" || bool_decide (URI entry ∈ seen)
      then firstOccurrences seen rest
      else entry :: firstOccurrences ({[URI entry]} ∪ seen) rest
  end.

(** An entry of a list of discovered sources is kept when its URI is not
    empty and none of the entries before it has the same URI. *)
Definition firstWithURI (entries : list sourceRef) (i : nat)
    (entry : sourceRef) : option sourceRef :=
  if negb (String.eqb (URI entry) "")
     && bool_decide (URI entry ∉ URI <$> take i entries)
  then Some entry else None.

(** The kept entries of a list, in the order of the list. *)
Definition keepFirstByURI (entries : list sourceRef) : list sourceRef :=
  omap (fun kept => kept) (imap (firstWithURI entries) entries).

Definition citation (title uri : string) : option genai.Citation.t :=
  Some {| genai.Citation.Title := title; genai.Citation.URI := uri |}.

Definition webChunk (title uri : string) : option genai.GroundingChunk.t :=
  Some {| genai.GroundingChunk.Web :=
            Some {| genai.GroundingChunkWeb.Title := title;
                    genai.GroundingChunkWeb.URI := uri |} |}.

Definition candidateWith (citations : list (option genai.Citation.t))
    (chunks : list (option genai.GroundingChunk.t)) : genai.Candidate.t :=
  {| genai.Candidate.Content := None;
     genai.Candidate.CitationMetadata :=
       Some {| genai.CitationMetadata.Citations := citations |};
     genai.Candidate.GroundingMetadata :=
       Some {| genai.GroundingMetadata.GroundingChunks := chunks |} |}.

(** The claim as the specification states it: every URI the candidate names
    occurs exactly once among the collected sources. *)
Definition eachURIOnce (cand : genai.Candidate.t) : Prop :=
  forall uri, uri ∈ rawURIs cand ->
    length (filter (fun source => URI source = uri)
                   (collectSources (Some cand))) = 1.

(** ** Rendering a response: notions *)

(** A text trimmed, when something is left of it. *)
Definition nonBlank (s : string) : option string :=
  let trimmed := Strings.TrimSpace s in
  if String.eqb trimmed "" then None else Some trimmed.

(** The thought fragment a part gives. *)
Definition thoughtOf (part : option genai.Part.t) : option string :=
  part ≫= fun part =>
    if genai.Part.Thought part then nonBlank (genai.Part.Text part) else None.

(** The block shown for the result of executed code. *)
Definition resultBlock (res : genai.CodeExecutionResult.t) : option string :=
  (fun out => "Result:" +:+ Strings.newline +:+ out)
    <$> nonBlank (genai.CodeExecutionResult.Output res).

(** The segments of the main reply a part gives: its text, then the block
    of its result. *)
Definition segmentsOf (part : option genai.Part.t) : list string :=
  match part with
  | Some part =>
      if genai.Part.Thought part then []
      else option_list (nonBlank (genai.Part.Text part)) ++
           option_list (genai.Part.CodeExecutionResult part ≫= resultBlock)
  | None => []
  end.

(** The snippet record a part gives: language and source of its code, and
    outcome and output of the result the same part carries. *)
Definition snippetOf (part : option genai.Part.t) : option codeSnippet :=
  part ≫= fun part =>
    if genai.Part.Thought part then None
    else
      (fun code =>
         {| Language := genai.ExecutableCode.Language code;
            Code := genai.ExecutableCode.Code code;
            Outcome := default "" (genai.CodeExecutionResult.Outcome
                                     <$> genai.Part.CodeExecutionResult part);
            Output := default "" (genai.CodeExecutionResult.Output
                                    <$> genai.Part.CodeExecutionResult part) |})
        <$> genai.Part.ExecutableCode part.

(** The parts [renderResponse] walks through. *)
Definition partsOf (resp : option genai.GenerateContentResponse.t)
  : list (option genai.Part.t) :=
  match firstCandidate resp with
  | Some cand =>
      match genai.Candidate.Content cand with
      | Some content => genai.Content.Parts content
      | None => []
      end
  | None => []
  end.

Definition textPart (text : string) : option genai.Part.t :=
  Some (genai.NewPartFromText text).

Definition codePart (code : option genai.ExecutableCode.t)
    (res : option genai.CodeExecutionResult.t) : option genai.Part.t :=
  Some {| genai.Part.Text := ""; genai.Part.Thought := false;
          genai.Part.InlineData := None;
          genai.Part.ExecutableCode := code;
          genai.Part.CodeExecutionResult := res |}.

Definition responseWith (parts : list (option genai.Part.t))
  : genai.GenerateContentResponse.t :=
  {| genai.GenerateContentResponse.Candidates :=
       [Some {| genai.Candidate.Content :=
                  Some {| genai.Content.Parts := parts;
                          genai.Content.Role := genai.RoleModel |};
                genai.Candidate.CitationMetadata := None;
                genai.Candidate.GroundingMetadata := None |}];
     genai.GenerateContentResponse.PromptFeedback := None |}.

(** The claim as the specification states it, for the results of executed
    code: each is recorded as outcome and output of a snippet. *)
Definition resultsRecorded (resp : option genai.GenerateContentResponse.t)
  : Prop :=
  forall part res,
    Some part ∈ partsOf resp ->
    genai.Part.Thought part = false ->
    genai.Part.CodeExecutionResult part = Some res ->
    exists snippet,
      snippet ∈ CodeSnippets (renderResponse resp).2
      /\ Outcome snippet = genai.CodeExecutionResult.Outcome res
      /\ Output snippet = genai.CodeExecutionResult.Output res.

Definition pythonCode : genai.ExecutableCode.t :=
  {| genai.ExecutableCode.Code := "print(2+2)";
     genai.ExecutableCode.Language := "PYTHON" |}.

Definition okResult (output : string) : genai.CodeExecutionResult.t :=
  {| genai.CodeExecutionResult.Outcome := "OUTCOME_OK";
     genai.CodeExecutionResult.Output := output |}.

(** The answer of the service to [2+2?] when code was run: the text, the
    part with the code, and the part with the result of running it. *)
Definition answerWithRun : genai.GenerateContentResponse.t :=
  responseWith
    [textPart "4";
     codePart (Some pythonCode) None;
     codePart None (Some (okResult ("4" +:+ Strings.newline)))].

(** ** The keyboard under a reply: notions *)

Definition thoughtsButton (id : string) : tele.Btn.t :=
  {| tele.Btn.Unique := showThoughtsUnique; tele.Btn.Text := "Show thoughts";
     tele.Btn.Data := id |}.

Definition sourcesButton (id : string) : tele.Btn.t :=
  {| tele.Btn.Unique := showSourcesUnique; tele.Btn.Text := "Show sources";
     tele.Btn.Data := id |}.

Definition codeButton (id : string) : tele.Btn.t :=
  {| tele.Btn.Unique := showCodeUnique; tele.Btn.Text := "Show code";
     tele.Btn.Data := id |}.

(** The keyboard the specification describes: a row for the thoughts, one
    for the sources when there are some, one for the code when there is
    some. *)
Definition intendedKeyboard (id : string) (art : responseArtifacts)
  : list (list tele.Btn.t) :=
  [[thoughtsButton id]]
  ++ (if 0 <? length (Sources art) then [[sourcesButton id]] else [])
  ++ (if 0 <? length (CodeSnippets art) then [[codeButton id]] else []).

(** The button of the last [Inline] call [buildResponseMarkup] makes. *)
Definition lastButton (id : string) (art : responseArtifacts) : tele.Btn.t :=
  if 0 <? length (CodeSnippets art) then codeButton id
  else if 0 <? length (Sources art) then sourcesButton id
  else thoughtsButton id.

Definition answerWithCode : responseArtifacts :=
  {| Thoughts := ["Add the numbers"];
     Sources := [];
     CodeSnippets := [{| Language := "PYTHON"; Code := "print(2+2)";
                         Outcome := "OUTCOME_OK";
                         Output := "4" +:+ Strings.newline |}] |}.

(** An [Inline] that would add the rows of a call to those already there. *)
Definition appendRows (rows : list tele.Row) (r : tele.ReplyMarkup.t)
  : tele.ReplyMarkup.t :=
  {| tele.ReplyMarkup.InlineKeyboard :=
       tele.ReplyMarkup.InlineKeyboard r ++ rows |}.

(** ** The message handler: notions *)

(** What a session holds while the bot runs: a thinking mode of the
    enumeration, at most 20 turns, and in them no nil part and no part marked
    as reasoning. *)
Definition turnClean (turn : genai.Content.t) : Prop :=
  Forall (fun part => keepPart part = true) (genai.Content.Parts turn).

Definition sessionOk (s : sessionState) : Prop :=
  isThinkingMode (thinking s) = true
  /\ length (history s) <= maxHistoryEntries
  /\ Forall turnClean (history s).

Definition appOk (client : genai.Client) (a : App.t) : Prop :=
  App.client a = client
  /\ defaultMode (App.sessions a) = defaultThinkingMode
  /\ forall chat s, sessions (App.sessions a) !! chat = Some s -> sessionOk s.

(** The model turn the handler stores for a response. *)
Definition modelTurn (resp : genai.GenerateContentResponse.t)
  : option genai.Content.t :=
  firstCandidate (Some resp) ≫= fun candidate =>
    filterModelContent (genai.Candidate.Content candidate).

(** The session a message leaves, given the session it found. *)
Definition sessionAfter (client : genai.Client) (session : sessionState)
    (msg : tele.Message.t) : sessionState :=
  match collectParts msg with
  | Err _ => session
  | Ok [] => session
  | Ok parts =>
      let userContent := genai.NewContentFromParts parts genai.RoleUser in
      let session' := (currentThinking session).2 in
      match client (conversationWith session userContent)
              (buildGenerateConfig (currentThinking session).1) with
      | Err _ => session'
      | Ok resp =>
          if blocked resp then session'
          else appendTurn session' (Some userContent) (modelTurn resp)
      end
  end.

Definition managerOk (m : sessionManager) : Prop :=
  defaultMode m = defaultThinkingMode
  /\ forall chat s, sessions m !! chat = Some s -> sessionOk s.

Definition blockedResponse : genai.GenerateContentResponse.t :=
  {| genai.GenerateContentResponse.Candidates := [];
     genai.GenerateContentResponse.PromptFeedback :=
       Some {| genai.PromptFeedback.BlockReason := "SAFETY" |} |}.

Definition question : tele.Message.t :=
  {| tele.Message.ChatID := 7; tele.Message.Text := "2+2?";
     tele.Message.Caption := ""; tele.Message.Media := [] |}.

Definition plainAnswer : genai.GenerateContentResponse.t :=
  responseWith
    [Some {| genai.Part.Text := "2+2 is small"; genai.Part.Thought := true;
             genai.Part.InlineData := None;
             genai.Part.ExecutableCode := None;
             genai.Part.CodeExecutionResult := None |};
     textPart "4"].

(** ** Thinking modes and sessions: notions *)

(** The four modes of the enumeration. *)
Definition thinkingModes : list thinkingMode :=
  [thinkingModeLow; thinkingModeMedium; thinkingModeHigh; thinkingModeDynamic].

(** ** The artifact store, over a run of calls: notions *)

Definition emptyBundle : responseArtifacts :=
  {| Thoughts := []; Sources := []; CodeSnippets := [] |}.

(** ** Escaping, further: notions *)

(** Reading an escaped text back: a backslash stands for the byte after it. *)
Fixpoint unescape (s : string) : string :=
  match s with
  | "" => ""
  | String c rest =>
      if Ascii.eqb c "\"%char then
        match rest with
        | "" => String c ""
        | String c' rest' => String c' (unescape rest')
        end
      else String c (unescape rest)
  end.

(** A text in which every backslash is followed by a byte that needs
    escaping and no such byte stands without a backslash before it. *)
Fixpoint wellEscaped (s : string) : bool :=
  match s with
  | "" => true
  | String c rest =>
      if Ascii.eqb c "\"%char then
        match rest with
        | "" => false
        | String c' rest' => needsEscape c' && wellEscaped rest'
        end
      else negb (needsEscape c) && wellEscaped rest
  end.

(** The number of bytes of a text that get a backslash. *)
Fixpoint escapes (s : string) : nat :=
  match s with
  | "" => 0
  | String c rest => (if needsEscape c then 1 else 0) + escapes rest
  end.

(** ** Blank texts: notions *)

(** A text made of white-space runes only (the empty text is one). *)
Definition allSpace (s : string) : Prop :=
  exists runes, Forall (fun rune => rune ∈ spaceRunes) runes /\ s = glue runes.

(** ** The parts of a message: notions *)

(** The text parts of a message: its trimmed text when not blank, then its
    trimmed caption when not blank and not the same as the text. *)
Definition textParts (msg : tele.Message.t) : list (option genai.Part.t) :=
  let text := Strings.TrimSpace (tele.Message.Text msg) in
  let caption := Strings.TrimSpace (tele.Message.Caption msg) in
  (if String.eqb text "" then [] else [Some (genai.NewPartFromText text)])
  ++ (if negb (String.eqb caption "") && negb (String.eqb caption text)
      then [Some (genai.NewPartFromText caption)] else []).

(** An attachment that arrived with bytes, as the part it becomes. *)
Definition blobPart (blob : genai.Blob.t) : option genai.Part.t :=
  Some (genai.NewPartFromBlob blob).

Definition fetched (file : tele.Fetch.t) (blob : genai.Blob.t) : Prop :=
  file = tele.Fetch.Downloaded (genai.Blob.Data blob) (genai.Blob.MIMEType blob)
  /\ genai.Blob.Data blob <> "".

(** ** Filtering, sources and rendering, further: notions *)

(** A source as a citation, and a candidate with its grounding chunks
    taken away. *)
Definition asCitation (src : sourceRef) : option genai.Citation.t :=
  citation (Title src) (URI src).

Definition citationsOnly (cand : genai.Candidate.t) : genai.Candidate.t :=
  {| genai.Candidate.Content := genai.Candidate.Content cand;
     genai.Candidate.CitationMetadata := genai.Candidate.CitationMetadata cand;
     genai.Candidate.GroundingMetadata := None |}.

(** A source with trimmed title and trimmed URI that is not empty. *)
Definition tidy (src : sourceRef) : Prop :=
  URI src <> ""
  /\ Strings.TrimSpace (URI src) = URI src
  /\ Strings.TrimSpace (Title src) = Title src.

(** ** Code in fences, and sending with a fallback: notions *)

(** What [escapeCode] writes for one byte. *)
Definition codeByte (c : ascii) : string :=
  if Ascii.eqb c "\"%char then "\\"
  else if Ascii.eqb c "`"%char then "\`"
  else String c "".

Fixpoint codeBytes (s : string) : string :=
  match s with
  | "" => ""
  | String c rest => codeByte c +:+ codeBytes rest
  end.

(** The options of the first [Send] of [sendWithFallback], and of the
    second. *)
Definition firstOptions (opts : tele.SendOptions.t) : tele.SendOptions.t :=
  if String.eqb (tele.SendOptions.ParseMode opts) ""
  then withParseMode opts tele.ModeMarkdownV2 else opts.

Definition sent (recipient : Z) (text : string) (opts : tele.SendOptions.t)
  : tele.Sent.t :=
  {| tele.Sent.To := recipient; tele.Sent.Body := text;
     tele.Sent.Options := opts |}.

(** What the channel answers to the next call, and to the calls after it. *)
Definition nextAnswer (b : tele.Bot.t) : option error :=
  default None (head (tele.Bot.answers b)).

Definition afterAnswer (b : tele.Bot.t) : tele.Bot.t :=
  {| tele.Bot.calls := tele.Bot.calls b;
     tele.Bot.answers := tail (tele.Bot.answers b) |}.

Definition logged (b : tele.Bot.t) (new : list tele.Sent.t) : tele.Bot.t :=
  {| tele.Bot.calls := tele.Bot.calls b ++ new;
     tele.Bot.answers := tele.Bot.answers b |}.

(** ** The ways out of the message handler: notions *)

(** A message with an attachment that cannot be fetched. *)
Definition brokenPhoto : tele.Message.t :=
  {| tele.Message.ChatID := 7; tele.Message.Text := "what is this?";
     tele.Message.Caption := "";
     tele.Message.Media := [tele.Fetch.FileFailed "timeout"] |}.

(** A message with nothing in it. *)
Definition blankMessage : tele.Message.t :=
  {| tele.Message.ChatID := 7; tele.Message.Text := "  ";
     tele.Message.Caption := Strings.newline; tele.Message.Media := [] |}.

(** The callbacks of the buttons under a reply. *)
Definition showUniques : list string :=
  [showThoughtsUnique; showSourcesUnique; showCodeUnique].

(** ** The callbacks of the reply buttons: notions *)

(** A text of one line: not empty, and without line feed. *)
Definition oneLine (s : string) : Prop :=
  s <> "" /\ Strings.LF ∉ bytesOf s.

(** A line of the summary, and the lines below the title. *)
Definition stepLine (step : string) : string :=
  Strings.newline +:+ "- " +:+ step.

(** One call of [bot.Edit]. *)
Definition edited (target : nat) (text : string) (opts : tele.SendOptions.t)
  : Edited.t :=
  {| Edited.Target := target; Edited.Body := text; Edited.Options := opts |}.

(** The text of the placeholder of [handleShowThoughts]. *)
Definition placeholderText : string := "Summarising thoughts...".

(** A line of the sources listing: the number, the title, or a fixed word
    when the source has none, and the URI. *)
Definition sourceLine (i : nat) (src : sourceRef) : string :=
  Itoa (i + 1) +:+ ". "
  +:+ (if String.eqb (Title src) "" then "Untitled" else Title src)
  +:+ " - " +:+ URI src.

(** The options of the sources listing: the page preview is left on. *)
Definition previewOptions : tele.SendOptions.t :=
  {| tele.SendOptions.ReplyMarkup := None;
     tele.SendOptions.DisableWebPagePreview := false;
     tele.SendOptions.ParseMode := "" |}.

(** A bundle with one source, and a store that holds it under the key 1. *)
Definition answerWithSource : responseArtifacts :=
  {| Thoughts := [];
     Sources := [{| Title := ""; URI := "https://go.dev/doc" |}];
     CodeSnippets := [] |}.

Definition storeWithSource : artifactStore :=
  (put newArtifactStore (Some answerWithSource)).2.

(** A handler that only answers: it leaves the service, the sessions and the
    artifact store as they are, and what it sends goes to the chat without a
    keyboard. *)
Definition repliesPlainly (a a' : App.t) (chat : Z) : Prop :=
  App.client a' = App.client a
  /\ App.sessions a' = App.sessions a
  /\ App.artifacts a' = App.artifacts a
  /\ exists new,
       tele.Bot.calls (App.bot a') = tele.Bot.calls (App.bot a) ++ new
       /\ Forall (fun call =>
                    tele.Sent.To call = chat
                    /\ tele.SendOptions.ReplyMarkup (tele.Sent.Options call)
                       = None) new.

(** ** The bot over a run of events: notions *)

(** The buttons under a message that call for a stored bundle find one. *)
Definition showButtonsResolve (store : artifactStore) (call : tele.Sent.t)
  : Prop :=
  forall markup row btn,
    tele.SendOptions.ReplyMarkup (tele.Sent.Options call) = Some markup ->
    row ∈ tele.ReplyMarkup.InlineKeyboard markup -> btn ∈ row ->
    tele.Btn.Unique btn ∈ showUniques ->
    (get store (tele.Btn.Data btn)).2 = true.

(** A store after at most one more [put]. *)
Definition grows (s s' : artifactStore) : Prop :=
  s' = s \/ exists art, s' = (put s (Some art)).2.

(** What a handler does to the store and to the channel. *)
Definition effect (a a' : App.t) : Prop :=
  grows (App.artifacts a) (App.artifacts a')
  /\ exists new,
       tele.Bot.calls (App.bot a') = tele.Bot.calls (App.bot a) ++ new
       /\ Forall (showButtonsResolve (App.artifacts a')) new.

(** Every message the bot has sent. *)
Definition buttonsResolve (a : App.t) : Prop :=
  Forall (showButtonsResolve (App.artifacts a)) (tele.Bot.calls (App.bot a)).

(** A history as the handlers build it: every turn is a user turn with at
    least one part or a model turn, and a model turn that is not the first
    entry comes directly after a user turn. *)
Definition historyOk (h : list genai.Content.t) : Prop :=
  Forall (fun turn =>
            (genai.Content.Role turn = genai.RoleUser
             /\ genai.Content.Parts turn <> [])
            \/ genai.Content.Role turn = genai.RoleModel) h
  /\ forall i turn,
       h !! S i = Some turn ->
       genai.Content.Role turn = genai.RoleModel ->
       exists user,
         h !! i = Some user /\ genai.Content.Role user = genai.RoleUser.

Definition historiesOk (m : sessionManager) : Prop :=
  forall chat s, sessions m !! chat = Some s -> historyOk (history s).

(** * Properties *)

(** ** The string helpers on samples *)

Example TrimSpace_samples :
  Strings.TrimSpace ("  4" +:+ Strings.newline) = "4"
  /\ Strings.TrimSpace (Strings.utf8 160 +:+ "a b" +:+ Strings.utf8 8232)
     = "a b"
  /\ Strings.TrimSpace (" " +:+ Strings.newline +:+ Strings.utf8 12288) = ""
  /\ Strings.TrimSpace ("x" +:+ Strings.utf8 8230) = "x" +:+ Strings.utf8 8230.
Proof. repeat split; reflexivity. Qed.

Example Join_samples :
  Strings.Join ["a"; "b"; "c"] ", " = "a, b, c"
  /\ Strings.Join ["a"] ", " = "a"
  /\ Strings.Join [] ", " = "".
Proof. repeat split; reflexivity. Qed.

Example Contains_samples :
  Strings.Contains "Bad Request: can't parse entities" "can't parse" = true
  /\ Strings.Contains "timeout" "can't parse" = false
  /\ Strings.Contains "" "" = true.
Proof. repeat split; reflexivity. Qed.

Example sentenceSplit_samples :
  sentenceSplit "Go fast. Go far!" = ["Go fast"; " Go far"; ""]
  /\ sentenceSplit "" = [""]
  /\ sentenceSplit ".a" = [""; "a"]
  /\ sentenceSplit "a?!b" = ["a"; "b"]
  /\ sentenceSplit "?" = [""; ""].
Proof. repeat split; reflexivity. Qed.

Example FormatUint_samples :
  FormatUint 0 = "0" /\ FormatUint 7 = "7" /\ FormatUint 1234 = "1234".
Proof. repeat split; reflexivity. Qed.

(** ** Trimming *)

Lemma append_nil_r (s : string) : s +:+ "" = s.
Proof.
  induction s as [|c s IH]; [reflexivity|].
  change (String c s +:+ "") with (String c (s +:+ "")). by rewrite IH.
Qed.

Lemma append_assoc (s t u : string) : (s +:+ t) +:+ u = s +:+ t +:+ u.
Proof.
  induction s as [|c s IH]; [reflexivity|].
  change ((String c s +:+ t) +:+ u) with (String c ((s +:+ t) +:+ u)).
  by rewrite IH.
Qed.

Lemma length_append (s t : string) :
  String.length (s +:+ t) = String.length s + String.length t.
Proof.
  induction s as [|c s IH]; [reflexivity|].
  change (String c s +:+ t) with (String c (s +:+ t)).
  cbn [String.length]. by rewrite IH.
Qed.

Lemma rev_append (s t : string) :
  Strings.rev (s +:+ t) = Strings.rev t +:+ Strings.rev s.
Proof.
  induction s as [|c s IH].
  - change ("" +:+ t) with t. cbn [Strings.rev]. by rewrite append_nil_r.
  - change (String c s +:+ t) with (String c (s +:+ t)).
    cbn [Strings.rev]. by rewrite IH, append_assoc.
Qed.

Lemma rev_involutive (s : string) : Strings.rev (Strings.rev s) = s.
Proof.
  induction s as [|c s IH]; [reflexivity|].
  cbn [Strings.rev]. rewrite rev_append, IH. reflexivity.
Qed.

Lemma glue_app (l k : list string) : glue (l ++ k) = glue l +:+ glue k.
Proof.
  induction l as [|s l IH]; [reflexivity|].
  cbn [app glue foldr]. fold (glue (l ++ k)) (glue l).
  by rewrite IH, append_assoc.
Qed.

Lemma rev_glue (l : list string) :
  Strings.rev (glue l) = glue (reverse (Strings.rev <$> l)).
Proof.
  induction l as [|s l IH]; [reflexivity|].
  cbn [glue foldr fmap list_fmap]. fold (glue l).
  rewrite rev_append, IH, reverse_cons, glue_app.
  cbn [glue foldr]. by rewrite append_nil_r.
Qed.

Lemma prefix_append (a s : string) :
  String.prefix a s = true <-> exists rest, s = a +:+ rest.
Proof.
  revert a. induction s as [|c s IH]; intros [|c' a]; cbn [String.prefix].
  - split; [by exists ""|done].
  - split; [done|]. by intros (rest & Heq).
  - split; [by exists (String c s)|done].
  - destruct (Ascii.ascii_dec c' c) as [->|Hne].
    + rewrite IH. split; intros (rest & Heq); exists rest.
      * by rewrite Heq.
      * change (String c a +:+ rest) with (String c (a +:+ rest)) in Heq.
        by injection Heq.
    + split; [done|]. intros (rest & Heq).
      change (String c' a +:+ rest) with (String c' (a +:+ rest)) in Heq.
      by injection Heq as -> _.
Qed.

Lemma spaceWidth_some (table : list string) (s : string) (w : nat) :
  Strings.spaceWidth table s = Some w ->
  exists rune rest, rune ∈ table /\ s = rune +:+ rest /\ String.length rune = w.
Proof.
  unfold Strings.spaceWidth.
  destruct (find _ table) as [rune|] eqn:Hfind; [|done].
  intros [= <-]. apply find_some in Hfind as [Hin Hprefix].
  apply prefix_append in Hprefix as [rest ->].
  exists rune, rest. by rewrite <- list_elem_of_In in Hin.
Qed.

Lemma spaceWidth_none (table : list string) (s : string) :
  Strings.spaceWidth table s = None
  <-> forall rune, rune ∈ table -> String.prefix rune s = false.
Proof.
  unfold Strings.spaceWidth. split.
  - destruct (find _ table) eqn:Hfind; [done|]. intros _ rune Hin.
    apply (find_none _ _ Hfind). by apply list_elem_of_In.
  - intros Hnone. destruct (find _ table) as [rune|] eqn:Hfind; [|done].
    apply find_some in Hfind as [Hin Hprefix].
    rewrite <- list_elem_of_In in Hin. by rewrite (Hnone rune Hin) in Hprefix.
Qed.

(** Skipping the rest of a rune. *)
Lemma trimFrom_skip (table : list string) (a rest : string) :
  Strings.trimFrom table (String.length a) (a +:+ rest)
  = Strings.trimFrom table 0 rest.
Proof.
  induction a as [|c a IH]; [reflexivity|].
  change (String c a +:+ rest) with (String c (a +:+ rest)).
  cbn [Strings.trimFrom String.length]. exact IH.
Qed.

(** What is trimmed off the front is a run of white-space runes, and what
    is left starts with none. *)
Lemma trimFrom_spec (table : list string) (s : string) :
  Forall (fun rune => rune <> "") table ->
  exists runes,
    Forall (fun rune => rune ∈ table) runes
    /\ s = glue runes +:+ Strings.trimFrom table 0 s
    /\ Strings.spaceWidth table (Strings.trimFrom table 0 s) = None.
Proof.
  intros Htable.
  assert (Hempty : Strings.spaceWidth table "" = None).
  { apply spaceWidth_none. intros rune Hin.
    rewrite Forall_forall in Htable. specialize (Htable rune Hin).
    by destruct rune. }
  remember (String.length s) as n eqn:Hn.
  revert s Hn. induction (lt_wf n) as [n _ IH]. intros s ->.
  destruct s as [|c s]; [by exists []|].
  cbn [Strings.trimFrom].
  destruct (Strings.spaceWidth table (String c s)) as [w|] eqn:Hwidth.
  - destruct (spaceWidth_some _ _ _ Hwidth) as (rune & rest & Hin & Hs & Hw).
    rewrite Forall_forall in Htable. pose proof (Htable rune Hin) as Hrune.
    destruct rune as [|c' rune]; [done|].
    change (String c' rune +:+ rest) with (String c' (rune +:+ rest)) in Hs.
    injection Hs as -> ->. cbn [String.length] in Hw. subst w.
    cbn [pred]. rewrite trimFrom_skip.
    destruct (IH (String.length rest)) with (s := rest)
      as (runes & Hrunes & Hrest & Hnone); [|done|].
    { cbn [String.length]. rewrite length_append. lia. }
    exists (String c' rune :: runes). split; [by constructor|]. split; [|done].
    cbn [glue foldr]. fold (glue runes).
    rewrite append_assoc, <- Hrest. reflexivity.
  - exists []. by split; [constructor|].
Qed.

Lemma spaceRunes_nonempty : Forall (fun rune => rune <> "") spaceRunes.
Proof. vm_compute. repeat constructor; discriminate. Qed.

Lemma rev_spaceRunes_nonempty :
  Forall (fun rune => rune <> "") (Strings.rev <$> spaceRunes).
Proof. vm_compute. repeat constructor; discriminate. Qed.

(** [TrimSpace] takes a run of white-space runes off the front and one off
    the end, and what it returns neither starts nor ends with such a
    rune. *)
Lemma TrimSpace_spec (s : string) :
  exists lead trail,
    Forall (fun rune => rune ∈ spaceRunes) lead
    /\ Forall (fun rune => rune ∈ spaceRunes) trail
    /\ s = glue lead +:+ Strings.TrimSpace s +:+ glue trail
    /\ (forall rune, rune ∈ spaceRunes ->
          String.prefix rune (Strings.TrimSpace s) = false)
    /\ (forall rune, rune ∈ spaceRunes ->
          String.prefix (Strings.rev rune) (Strings.rev (Strings.TrimSpace s))
          = false).
Proof.
  unfold Strings.TrimSpace, Strings.TrimRightSpace, Strings.TrimLeftSpace.
  fold spaceRunes.
  destruct (trimFrom_spec spaceRunes s spaceRunes_nonempty)
    as (lead & Hlead & Hs & Hfront).
  set (left := Strings.trimFrom spaceRunes 0 s) in *.
  destruct (trimFrom_spec (Strings.rev <$> spaceRunes) (Strings.rev left)
              rev_spaceRunes_nonempty) as (back & Hback & Hleft & Hend).
  set (right := Strings.trimFrom (Strings.rev <$> spaceRunes) 0
                  (Strings.rev left)) in *.
  assert (Hleft' : left = Strings.rev right
                          +:+ glue (reverse (Strings.rev <$> back))).
  { rewrite <- (rev_involutive left), Hleft, rev_append, rev_glue. done. }
  exists lead, (reverse (Strings.rev <$> back)).
  split; [done|]. split.
  { apply Forall_reverse, Forall_fmap.
    eapply Forall_impl; [exact Hback|].
    intros rune Hrune. apply list_elem_of_fmap in Hrune as (rune' & -> & Hin).
    unfold compose. by rewrite rev_involutive. }
  split; [by rewrite <- Hleft'|].
  split.
  - intros rune Hin.
    destruct (String.prefix rune (Strings.rev right)) eqn:Hprefix; [|done].
    apply prefix_append in Hprefix as [rest Hrest].
    rewrite spaceWidth_none in Hfront. rewrite <- (Hfront rune Hin).
    symmetry. apply prefix_append.
    exists (rest +:+ glue (reverse (Strings.rev <$> back))).
    by rewrite Hleft', Hrest, append_assoc.
  - intros rune Hin. rewrite rev_involutive.
    rewrite spaceWidth_none in Hend. apply Hend.
    apply list_elem_of_fmap. by exists rune.
Qed.

(** ** Markup escaping *)

Lemma escaper_lookup (c : ascii) :
  Replacer.lookup markdownV2Escaper c =
  if needsEscape c then Some (String "\"%char (String c "")) else None.
Proof.
  destruct c as [[] [] [] [] [] [] [] []]; vm_compute; reflexivity.
Qed.

Lemma escapeMarkdownV2_backslashEach (text : string) :
  escapeMarkdownV2 text = backslashEach text.
Proof.
  unfold escapeMarkdownV2.
  induction text as [|c rest IH]; [reflexivity|].
  cbn [Replacer.Replace backslashEach].
  rewrite escaper_lookup, IH.
  destruct (needsEscape c); reflexivity.
Qed.

Lemma backslashEach_length (s : string) :
  String.length s <= String.length (backslashEach s).
Proof.
  induction s as [|c rest IH]; cbn [backslashEach String.length]; [lia|].
  destruct (needsEscape c); cbn [String.length]; lia.
Qed.

(** Escaping leaves a text as it is only when nothing in it needs a
    backslash. *)
Lemma backslashEach_fixed (s : string) :
  backslashEach s = s ->
  forall c, c ∈ list_ascii_of_string s -> needsEscape c = false.
Proof.
  induction s as [|c rest IH]; cbn [backslashEach list_ascii_of_string].
  - intros _ c Hc. inversion Hc.
  - destruct (needsEscape c) eqn:Hesc.
    + intros Heq. exfalso.
      assert (Hlen : String.length (String "\"%char
                       (String c (backslashEach rest)))
                     = String.length (String c rest)) by (rewrite Heq; done).
      cbn [String.length] in Hlen.
      pose proof (backslashEach_length rest). lia.
    + intros Heq c' Hc'. injection Heq as Heq.
      apply elem_of_cons in Hc' as [->|Hc']; [done|]. by apply IH.
Qed.

Lemma backslashEach_clean (s : string) :
  (forall c, c ∈ list_ascii_of_string s -> needsEscape c = false) ->
  backslashEach s = s.
Proof.
  induction s as [|c rest IH]; cbn [backslashEach list_ascii_of_string];
    [done|].
  intros Hclean. rewrite (Hclean c) by left.
  f_equal. apply IH. intros c' Hc'. apply Hclean. by right.
Qed.

Lemma backslashEach_marks (s : string) (c : ascii) :
  c ∈ list_ascii_of_string s -> needsEscape c = true ->
  "\"%char ∈ list_ascii_of_string (backslashEach s).
Proof.
  induction s as [|c' rest IH]; cbn [backslashEach list_ascii_of_string].
  - intros Hc. inversion Hc.
  - intros [->|Hc]%elem_of_cons Hesc.
    + rewrite Hesc. cbn [list_ascii_of_string]. left.
    + destruct (needsEscape c'); cbn [list_ascii_of_string];
        [left|right; by apply IH].
Qed.

(** Escaping twice gives the same as escaping once only for the texts in
    which there is nothing to escape. *)
Lemma escapeMarkdownV2_twice (text : string) :
  escapeMarkdownV2 (escapeMarkdownV2 text) = escapeMarkdownV2 text
  <-> forall c, c ∈ list_ascii_of_string text -> needsEscape c = false.
Proof.
  rewrite !escapeMarkdownV2_backslashEach. split.
  - intros Hfixed c Hc. destruct (needsEscape c) eqn:Hesc; [|done].
    pose proof (backslashEach_marks text c Hc Hesc) as Hmark.
    by apply (backslashEach_fixed _ Hfixed) in Hmark.
  - intros Hclean. rewrite (backslashEach_clean text Hclean).
    by apply backslashEach_clean.
Qed.

(** C5. [escapeMarkdownV2] is a function defined on every string: it puts a
    backslash before every occurrence of every character of the channel's
    reserved set (and of the backslash itself), so that [a*b_c] becomes
    [a\*b\_c]; it is not idempotent, escaping the escaped [\*] gives
    [\\\*], and escaping twice differs from escaping once for every text
    that holds a character to escape. *)
Theorem escapeMarkdownV2_spec :
  (forall text, escapeMarkdownV2 text = backslashEach text)
  /\ (forall c, c ∈ reservedMarkdownV2 ->
        needsEscape c = true
        /\ escapeMarkdownV2 (String c "") = String "\"%char (String c ""))
  /\ escapeMarkdownV2 "a*b_c" = "a\*b\_c"
  /\ escapeMarkdownV2 "\*" = "\\\*"
  /\ escapeMarkdownV2 (escapeMarkdownV2 "*") <> escapeMarkdownV2 "*"
  /\ (forall text,
        escapeMarkdownV2 (escapeMarkdownV2 text) = escapeMarkdownV2 text
        <-> forall c, c ∈ list_ascii_of_string text -> needsEscape c = false).
Proof.
  split; [exact escapeMarkdownV2_backslashEach|].
  split.
  - intros c Hc.
    assert (Hesc : needsEscape c = true).
    { unfold needsEscape. apply bool_decide_eq_true. by right. }
    split; [done|].
    rewrite escapeMarkdownV2_backslashEach. cbn [backslashEach].
    by rewrite Hesc.
  - split; [reflexivity|]. split; [reflexivity|].
    split; [vm_compute; discriminate|exact escapeMarkdownV2_twice].
Qed.

(** ** Summaries of the reasoning *)

Lemma foldl_keepChunk (cleaned chunks : list string) :
  foldl keepChunk cleaned chunks =
  cleaned ++ filter (fun chunk => chunk <> "") (Strings.TrimSpace <$> chunks).
Proof.
  revert cleaned.
  induction chunks as [|chunk chunks IH]; intros cleaned; cbn [foldl fmap].
  - by rewrite app_nil_r.
  - rewrite IH. unfold keepChunk. cbn [fmap list_fmap].
    destruct (String.eqb_spec (Strings.TrimSpace chunk) "") as [Heq|Hne].
    + by rewrite filter_cons_False by (by intros ?).
    + rewrite filter_cons_True by done. by rewrite <- app_assoc.
Qed.

Lemma foldl_cleanThought (cleaned : list string) (thoughts : list string) :
  foldl cleanThought cleaned thoughts =
  cleaned ++ concat (chunksOf <$> thoughts).
Proof.
  revert cleaned.
  induction thoughts as [|thought thoughts IH]; intros cleaned;
    cbn [foldl fmap list_fmap concat].
  - by rewrite app_nil_r.
  - rewrite IH. unfold cleanThought. rewrite foldl_keepChunk.
    by rewrite <- app_assoc.
Qed.

Lemma summarizeThoughts_summaryOf (thoughts : list string) (limit : Z) :
  (0 <= limit)%Z ->
  summarizeThoughts thoughts limit = Some (summaryOf thoughts (Z.to_nat limit)).
Proof.
  intros Hlimit. unfold summarizeThoughts, summaryOf. cbv zeta.
  rewrite foldl_cleanThought, app_nil_l.
  set (chunks := concat (chunksOf <$> thoughts)).
  destruct (Z.ltb_spec limit (Z.of_nat (length chunks))) as [Hlt|Hge].
  - destruct (Z.ltb_spec limit 0); [lia|].
    destruct (Nat.ltb_spec (Z.to_nat limit) (length chunks)); [done|lia].
  - destruct (Nat.ltb_spec (Z.to_nat limit) (length chunks)); [lia|done].
Qed.

Lemma summarizeThoughts_negative (thoughts : list string) (limit : Z) :
  (limit < 0)%Z -> summarizeThoughts thoughts limit = None.
Proof.
  intros Hlimit. unfold summarizeThoughts. cbv zeta.
  destruct (Z.ltb_spec limit (Z.of_nat (length (foldl cleanThought [] thoughts))));
    [|lia].
  by destruct (Z.ltb_spec limit 0); [|lia].
Qed.

Lemma summaryOf_length (thoughts : list string) (limit : nat) :
  length (summaryOf thoughts limit) <= S limit.
Proof.
  unfold summaryOf. cbv zeta.
  destruct (Nat.ltb_spec limit (length (concat (chunksOf <$> thoughts)))).
  - rewrite length_app, length_take. cbn. lia.
  - lia.
Qed.

Lemma summaryOf_truncated (thoughts : list string) (limit : nat) :
  limit < length (concat (chunksOf <$> thoughts)) ->
  length (summaryOf thoughts limit) = S limit
  /\ take limit (summaryOf thoughts limit)
     = take limit (concat (chunksOf <$> thoughts))
  /\ last (summaryOf thoughts limit) = Some "...".
Proof.
  intros Hlt. unfold summaryOf. cbv zeta.
  destruct (Nat.ltb_spec limit (length (concat (chunksOf <$> thoughts))));
    [|lia].
  repeat split.
  - rewrite length_app, length_take. cbn. lia.
  - rewrite take_app_le by (rewrite length_take; lia).
    rewrite take_take. f_equal. lia.
  - by rewrite last_snoc.
Qed.

Lemma elem_of_concat {A : Type} (x : A) (ls : list (list A)) :
  x ∈ concat ls <-> exists l, x ∈ l /\ l ∈ ls.
Proof.
  induction ls as [|l ls IH]; cbn [concat].
  - split; [intros H; inversion H|intros (l & _ & H); inversion H].
  - rewrite elem_of_app, IH. split.
    + intros [Hx|(l' & Hx & Hl')]; [exists l|exists l'];
        (split; [done|]); [by left|by right].
    + intros (l' & Hx & [->|Hl']%elem_of_cons); [by left|right; by exists l'].
Qed.

Lemma bytesOf_app (s t : string) : bytesOf (s +:+ t) = bytesOf s ++ bytesOf t.
Proof.
  induction s as [|c s IH]; [reflexivity|].
  change (String c s +:+ t) with (String c (s +:+ t)).
  cbn [list_ascii_of_string app]. by rewrite IH.
Qed.

Lemma bytesOf_rev (s : string) : bytesOf (Strings.rev s) = reverse (bytesOf s).
Proof.
  induction s as [|c s IH]; [reflexivity|].
  cbn [Strings.rev list_ascii_of_string].
  by rewrite bytesOf_app, IH, reverse_cons.
Qed.

(** Trimming only takes bytes away. *)
Lemma trimFrom_bytes (table : list string) (skip : nat) (s : string) (c : ascii) :
  c ∈ bytesOf (Strings.trimFrom table skip s) -> c ∈ bytesOf s.
Proof.
  revert skip. induction s as [|c0 s IH]; intros skip; [done|].
  cbn [Strings.trimFrom list_ascii_of_string].
  destruct skip as [|skip].
  - destruct (Strings.spaceWidth table (String c0 s)) as [w|]; [|done].
    intros Hc. right. by apply (IH (pred w)).
  - intros Hc. right. by apply (IH skip).
Qed.

Lemma TrimSpace_bytes (s : string) (c : ascii) :
  c ∈ bytesOf (Strings.TrimSpace s) -> c ∈ bytesOf s.
Proof.
  unfold Strings.TrimSpace, Strings.TrimRightSpace, Strings.TrimLeftSpace.
  rewrite bytesOf_rev, elem_of_reverse.
  intros Hc%trimFrom_bytes. rewrite bytesOf_rev, elem_of_reverse in Hc.
  by apply trimFrom_bytes in Hc.
Qed.

Lemma splitRuns_boundaryFree (inRun : bool) (cur s : string) :
  boundaryFree cur -> Forall boundaryFree (splitRuns inRun cur s).
Proof.
  revert inRun cur. induction s as [|c s IH]; intros inRun cur Hcur;
    cbn [splitRuns].
  - by constructor.
  - destruct (isBoundary c) eqn:Hc.
    + destruct inRun; [|constructor; [done|]]; apply IH; constructor.
    + apply IH. unfold boundaryFree. rewrite bytesOf_app.
      apply Forall_app. split; [done|]. by repeat constructor.
Qed.

(** The pieces of a split, put together again, are the string without the
    matched bytes: nothing else is lost. *)
Lemma splitRuns_pieces (inRun : bool) (cur s : string) :
  (inRun = true -> cur = "") ->
  glue (splitRuns inRun cur s) = cur +:+ dropBoundaries s.
Proof.
  revert inRun cur. induction s as [|c s IH]; intros inRun cur Hrun;
    cbn [splitRuns dropBoundaries].
  - reflexivity.
  - destruct (isBoundary c).
    + destruct inRun.
      * rewrite IH by done. by rewrite Hrun.
      * change (glue (cur :: splitRuns true "" s))
          with (cur +:+ glue (splitRuns true "" s)).
        by rewrite IH.
    + rewrite IH by done. by rewrite append_assoc.
Qed.

Lemma sentenceSplit_pieces (s : string) :
  Forall boundaryFree (sentenceSplit s)
  /\ glue (sentenceSplit s) = dropBoundaries s.
Proof.
  split.
  - apply splitRuns_boundaryFree. constructor.
  - unfold sentenceSplit. by rewrite splitRuns_pieces.
Qed.

Lemma chunksOf_boundaryFree (thought chunk : string) :
  chunk ∈ chunksOf thought -> boundaryFree chunk.
Proof.
  unfold chunksOf.
  intros [_ (piece & -> & Hpiece)%list_elem_of_fmap]%list_elem_of_filter.
  destruct (sentenceSplit_pieces thought) as [Hfree _].
  rewrite Forall_forall in Hfree. specialize (Hfree piece Hpiece).
  unfold boundaryFree in *. rewrite Forall_forall in *.
  intros c Hc. by apply Hfree, TrimSpace_bytes.
Qed.

(** Every chunk is trimmed text, so it is never empty. *)
Lemma chunksOf_nonempty (thought chunk : string) :
  chunk ∈ chunksOf thought -> chunk <> "".
Proof. unfold chunksOf. intros [H _]%list_elem_of_filter. exact H. Qed.

Lemma chunksOf_trimmed (thought chunk rune : string) :
  chunk ∈ chunksOf thought -> rune ∈ spaceRunes ->
  String.prefix rune chunk = false
  /\ String.prefix (Strings.rev rune) (Strings.rev chunk) = false.
Proof.
  unfold chunksOf.
  intros [_ (piece & -> & _)%list_elem_of_fmap]%list_elem_of_filter Hrune.
  destruct (TrimSpace_spec piece) as (_ & _ & _ & _ & _ & Hfront & Hend).
  split; [by apply Hfront|by apply Hend].
Qed.

(** C4, as the code has it. For every list of fragments and every limit that
    is not negative, the summary is made of the chunks of the fragments
    (each fragment split at the runs of [.], [?], [!] and line feed, the
    pieces trimmed, the empty ones dropped, so that no chunk is empty,
    holds one of these bytes, or starts or ends with white space), in order;
    when there are more chunks than the limit, the first [limit] of them are
    kept and the three-full-stop marker [...] is appended as the last entry,
    which makes [limit + 1] entries.  So the fragments [Go fast. Go far!] and
    the empty one give the two chunks [Go fast] and [Go far] under limit 5,
    and seven chunks under limit 5 give six entries, the last one the
    marker. *)
Theorem summarizeThoughts_spec (thoughts : list string) (limit : Z) :
  (0 <= limit)%Z ->
  summarizeThoughts thoughts limit = Some (summaryOf thoughts (Z.to_nat limit))
  /\ length (summaryOf thoughts (Z.to_nat limit)) <= S (Z.to_nat limit)
  /\ (Z.to_nat limit < length (concat (chunksOf <$> thoughts)) ->
      length (summaryOf thoughts (Z.to_nat limit)) = S (Z.to_nat limit)
      /\ take (Z.to_nat limit) (summaryOf thoughts (Z.to_nat limit))
         = take (Z.to_nat limit) (concat (chunksOf <$> thoughts))
      /\ last (summaryOf thoughts (Z.to_nat limit)) = Some "...")
  /\ (length (concat (chunksOf <$> thoughts)) <= Z.to_nat limit ->
      summaryOf thoughts (Z.to_nat limit) = concat (chunksOf <$> thoughts))
  /\ (forall chunk, chunk ∈ concat (chunksOf <$> thoughts) ->
        chunk <> "" /\ boundaryFree chunk
        /\ forall rune, rune ∈ spaceRunes ->
             String.prefix rune chunk = false
             /\ String.prefix (Strings.rev rune) (Strings.rev chunk) = false)
  /\ summarizeThoughts ["Go fast. Go far!"; ""] 5 = Some ["Go fast"; "Go far"]
  /\ summarizeThoughts ["a. b? c! d"; "e. f. g"] 5
     = Some ["a"; "b"; "c"; "d"; "e"; "..."].
Proof.
  intros Hlimit. split; [by apply summarizeThoughts_summaryOf|].
  split; [apply summaryOf_length|].
  split; [apply summaryOf_truncated|].
  split; [|split; [|split; reflexivity]].
  - intros Hle. unfold summaryOf. cbv zeta.
    by destruct (Nat.ltb_spec (Z.to_nat limit)
                   (length (concat (chunksOf <$> thoughts)))); [lia|].
  - intros chunk (chunks & Hin & (thought & -> & _)%list_elem_of_fmap)%elem_of_concat.
    split; [by eapply chunksOf_nonempty|].
    split; [by eapply chunksOf_boundaryFree|].
    intros rune Hrune. by eapply chunksOf_trimmed.
Qed.

Lemma summarizeThoughts_spec_witness :
  (0 <= 5)%Z
  /\ summarizeThoughts ["Go fast. Go far!"; ""] 5
     = Some (summaryOf ["Go fast. Go far!"; ""] (Z.to_nat 5)).
Proof.
  split; [lia|].
  apply (summarizeThoughts_spec ["Go fast. Go far!"; ""] 5). lia.
Defined.

(** C4 as the specification states it fails twice: the marker the code
    appends is three full stops, not the ellipsis character, and a negative
    limit makes the slice expression panic. *)
Lemma summarizeThoughts_marker_counterexample :
  (exists summary,
      summarizeThoughts ["a. b. c"] 2 = Some summary
      /\ length summary = 3
      /\ last summary = Some "..."
      /\ last summary <> Some ellipsis)
  /\ summarizeThoughts ["a. b. c"] (-1) = None.
Proof.
  split; [|reflexivity].
  exists ["a"; "b"; "..."]. repeat split; try reflexivity.
  vm_compute. discriminate.
Qed.

(** ** The window of the conversation history *)

Section History.

Context {A : Type}.
Implicit Types l k : list A.

Lemma lastN_length n l : length (lastN n l) = min n (length l).
Proof. unfold lastN. rewrite length_drop. lia. Qed.

Lemma lastN_all n l : length l <= n -> lastN n l = l.
Proof.
  intros Hle. unfold lastN. by replace (length l - n) with 0 by lia.
Qed.

Lemma lastN_suffix n l : lastN n l `suffix_of` l.
Proof. apply suffix_drop. Qed.

(** Cutting the window early loses nothing a later cut would keep. *)
Lemma lastN_app_lastN n l k : lastN n (lastN n l ++ k) = lastN n (l ++ k).
Proof.
  unfold lastN. rewrite !length_app, length_drop.
  rewrite !drop_app, drop_drop, length_drop.
  f_equal; f_equal; lia.
Qed.

(** An entry followed by fewer than [n] others is inside the window. *)
Lemma lastN_recent n l k (x : A) :
  length k < n -> x ∈ lastN n (l ++ [x] ++ k).
Proof.
  intros Hk. unfold lastN. rewrite !length_app. cbn [length].
  apply list_elem_of_lookup.
  exists (length l - (length l + (1 + length k) - n)).
  rewrite lookup_drop.
  replace (length l + (1 + length k) - n
           + (length l - (length l + (1 + length k) - n)))
    with (length l) by lia.
  by rewrite lookup_app_r, Nat.sub_diag by lia.
Qed.

End History.

Lemma appendTurn_history (s : sessionState)
    (user model : option genai.Content.t) :
  history (appendTurn s user model)
  = lastN maxHistoryEntries
      (history s ++ option_list user ++ option_list model).
Proof.
  unfold appendTurn. cbv zeta. cbn [history].
  assert (Heq : match model with
                | Some m => match user with
                            | Some u => history s ++ [u]
                            | None => history s
                            end ++ [m]
                | None => match user with
                          | Some u => history s ++ [u]
                          | None => history s
                          end
                end = history s ++ option_list user ++ option_list model).
  { destruct user, model; cbn; by rewrite <- ?app_assoc, ?app_nil_r. }
  rewrite Heq.
  destruct (Nat.ltb_spec maxHistoryEntries
              (length (history s ++ option_list user ++ option_list model))).
  - reflexivity.
  - by rewrite lastN_all.
Qed.

Lemma appendTurn_thinking (s : sessionState)
    (user model : option genai.Content.t) :
  thinking (appendTurn s user model) = thinking s.
Proof. reflexivity. Qed.

Lemma appendTurn_bounded (s : sessionState)
    (user model : option genai.Content.t) :
  length (history (appendTurn s user model)) <= maxHistoryEntries.
Proof. rewrite appendTurn_history, lastN_length. lia. Qed.

Lemma appendTurns_history (s : sessionState)
    (turns : list (option genai.Content.t * option genai.Content.t)) :
  length (history s) <= maxHistoryEntries ->
  history (appendTurns s turns)
  = lastN maxHistoryEntries (history s ++ concat (turnEntries <$> turns)).
Proof.
  revert s. induction turns as [|turn turns IH]; intros s Hs.
  - cbn. by rewrite app_nil_r, lastN_all.
  - cbn [appendTurns foldl fmap list_fmap concat].
    fold (appendTurns (appendTurn s turn.1 turn.2) turns).
    rewrite IH by apply appendTurn_bounded.
    rewrite appendTurn_history, lastN_app_lastN.
    unfold turnEntries. by rewrite <- !app_assoc.
Qed.

Lemma appendTurns_bounded (s : sessionState)
    (turns : list (option genai.Content.t * option genai.Content.t)) :
  length (history s) <= maxHistoryEntries ->
  length (history (appendTurns s turns)) <= maxHistoryEntries.
Proof.
  intros Hs. rewrite appendTurns_history by done.
  rewrite lastN_length. lia.
Qed.

Lemma pairs_entries_length
    (pairs : list (genai.Content.t * genai.Content.t)) :
  length (concat (turnEntries <$> (fullPair <$> pairs))) = 2 * length pairs.
Proof.
  induction pairs as [|pair pairs IH]; [done|].
  cbn [fmap list_fmap concat]. rewrite length_app.
  cbn [fmap list_fmap] in IH. rewrite IH. cbn. lia.
Qed.

(** C3. From a new session, whatever turns are appended (each a user turn
    and, when there is one, a model turn), the history never holds more than
    20 entries; and after [N] full pairs it is the last [min (2 N) 20] of the
    entries appended, oldest first. *)
Theorem history_sliding_window :
  (forall (mode : thinkingMode)
          (turns : list (option genai.Content.t * option genai.Content.t)),
      length (history (appendTurns {| history := []; thinking := mode |} turns))
      <= 20)
  /\ (forall (mode : thinkingMode)
             (pairs : list (genai.Content.t * genai.Content.t)),
        let appended := concat (turnEntries <$> (fullPair <$> pairs)) in
        let kept := min (length pairs * 2) 20 in
        history (appendTurns {| history := []; thinking := mode |}
                   (fullPair <$> pairs))
        = drop (length appended - kept) appended
        /\ length (history (appendTurns {| history := []; thinking := mode |}
                              (fullPair <$> pairs))) = kept)
  /\ (forall (s : sessionState) (user model : option genai.Content.t),
        length (history (appendTurn s user model)) <= 20).
Proof.
  split; [|split].
  - intros mode turns.
    apply (appendTurns_bounded {| history := []; thinking := mode |}).
    cbn. lia.
  - intros mode pairs appended kept.
    pose proof (pairs_entries_length pairs) as Hlen. fold appended in Hlen.
    rewrite appendTurns_history by (cbn; lia).
    cbn [history app]. fold appended.
    unfold lastN, maxHistoryEntries, kept. rewrite Hlen.
    split.
    + f_equal. lia.
    + rewrite length_drop, Hlen. lia.
  - intros s user model. apply appendTurn_bounded.
Qed.

(** ** The artifact store *)

Lemma FormatUint_inj (m n : N) : FormatUint m = FormatUint n -> m = n.
Proof. apply pretty_N_inj. Qed.

Lemma pretty_N_go_grows (x : N) (s : string) :
  String.length s <= String.length (pretty_N_go x s).
Proof.
  revert s. induction (N.lt_wf_0 x) as [x _ IH]; intros s.
  destruct (N.eq_0_gt_0_cases x) as [->|Hpos].
  - by rewrite pretty_N_go_0.
  - rewrite pretty_N_go_step by done.
    etrans; [|apply IH, N.div_lt; lia]. cbn. lia.
Qed.

Lemma FormatUint_nonempty (n : N) : FormatUint n <> "".
Proof.
  unfold FormatUint, pretty, pretty_N. case_decide as Hn; [done|].
  rewrite pretty_N_go_step by lia.
  intros Heq.
  pose proof (pretty_N_go_grows (n `div` 10)
                (String (pretty_N_char (n `mod` 10)) "")) as Hlen.
  rewrite Heq in Hlen. cbn in Hlen. lia.
Qed.

Lemma uint64_succ_small (n : N) :
  (n + 1 < 2 ^ 64)%N -> uint64_succ n = (n + 1)%N.
Proof. intros Hlt. unfold uint64_succ. by apply N.mod_small. Qed.

Lemma put_nil (s : artifactStore) : put s None = ("", s).
Proof. reflexivity. Qed.

Lemma put_some (s : artifactStore) (art : responseArtifacts) :
  (counter s + 1 < 2 ^ 64)%N ->
  put s (Some art)
  = (FormatUint (counter s + 1),
     {| items := <[FormatUint (counter s + 1) := art]> (items s);
        counter := (counter s + 1)%N |}).
Proof. intros Hlt. unfold put. by rewrite uint64_succ_small. Qed.

Lemma storeInv_new : storeInv newArtifactStore [].
Proof.
  split.
  - intros key [art Hart]. cbn in Hart. by rewrite lookup_empty in Hart.
  - intros key Hkey. inversion Hkey.
Qed.

Lemma storeInv_put (s : artifactStore) (issued : list string)
    (art : option responseArtifacts) :
  storeInv s issued ->
  (counter s + 1 < 2 ^ 64)%N ->
  storeInv (put s art).2 (issued ++ [(put s art).1])
  /\ (counter (put s art).2 <= counter s + 1)%N.
Proof.
  intros [Hdom Hkeys] Hlt. destruct art as [art|].
  - rewrite put_some by done. cbn [fst snd].
    split; [split|cbn; lia].
    + intros key [art' Hart']. cbn [items] in Hart'.
      rewrite elem_of_app, list_elem_of_singleton.
      destruct (decide (FormatUint (counter s + 1) = key)) as [<-|Hne].
      * split; [by right|apply FormatUint_nonempty].
      * rewrite lookup_insert_ne in Hart' by done.
        destruct (Hdom key) as [Hin Hnonempty]; [by eexists|].
        split; [by left|done].
    + intros key [Hkey|Hkey%list_elem_of_singleton]%elem_of_app;
        cbn [counter].
      * destruct (Hkeys key Hkey) as [->|(id & Hid & ->)]; [by left|].
        right. exists id. split; [lia|done].
      * right. exists (counter s + 1)%N. split; [lia|done].
  - rewrite put_nil. cbn [fst snd]. split; [split|lia].
    + intros key Hkey. destruct (Hdom key Hkey).
      rewrite elem_of_app. split; [by left|done].
    + intros key [Hkey|Hkey%list_elem_of_singleton]%elem_of_app.
      * by apply Hkeys.
      * by left.
Qed.

Lemma storeInv_putAll (arts : list (option responseArtifacts))
    (s : artifactStore) (issued : list string) :
  storeInv s issued ->
  (counter s + N.of_nat (length arts) < 2 ^ 64)%N ->
  storeInv (putAll s arts).2 (issued ++ (putAll s arts).1)
  /\ (counter (putAll s arts).2 <= counter s + N.of_nat (length arts))%N.
Proof.
  revert s issued.
  induction arts as [|art arts IH]; intros s issued Hinv Hlt.
  - cbn. rewrite app_nil_r. split; [done|lia].
  - cbn [putAll].
    destruct (storeInv_put s issued art Hinv) as [Hinv' Hcount];
      [cbn [length] in Hlt; lia|].
    destruct (put s art) as [key s'] eqn:Hput. cbn [fst snd] in Hinv', Hcount.
    destruct (IH s' (issued ++ [key]) Hinv') as [Hinv'' Hcount'];
      [cbn [length] in Hlt; lia|].
    destruct (putAll s' arts) as [keys s''] eqn:Hall.
    cbn [fst snd length] in *. rewrite <- app_assoc in Hinv''.
    split; [done|lia].
Qed.

Example put_first_keys :
  (putAll newArtifactStore
     [Some {| Thoughts := []; Sources := []; CodeSnippets := [] |};
      None;
      Some {| Thoughts := ["t"]; Sources := []; CodeSnippets := [] |}]).1
  = ["1"; ""; "2"].
Proof. reflexivity. Qed.

(** C7. Storing an absent bundle returns the empty key and the store as it
    was.  In a store reached from the new one by fewer than [2^64 - 2] calls
    of [put], storing two bundles returns two keys that are not empty, differ,
    were returned by no earlier call and file nothing yet; they are the
    decimals of two numbers of which the second is the larger, both larger
    than the number of every key returned before.  Looking up a key no call
    returned finds nothing. *)
Theorem artifactStore_keys
    (arts : list (option responseArtifacts)) (b1 b2 : responseArtifacts) :
  (N.of_nat (length arts) + 2 < 2 ^ 64)%N ->
  let s := (putAll newArtifactStore arts).2 in
  let issued := (putAll newArtifactStore arts).1 in
  let r1 := put s (Some b1) in
  let r2 := put r1.2 (Some b2) in
  (forall s0, put s0 None = ("", s0))
  /\ (r1.1 <> "" /\ r2.1 <> "" /\ r1.1 <> r2.1)
  /\ ((r1.1 ∉ issued) /\ (r2.1 ∉ issued ++ [r1.1]))
  /\ (items s !! r1.1 = None /\ items r1.2 !! r2.1 = None)
  /\ (exists n1 n2,
        r1.1 = FormatUint n1 /\ r2.1 = FormatUint n2 /\ (n1 < n2)%N
        /\ forall key, key ∈ issued ->
             key = "" \/ exists n, key = FormatUint n /\ (n < n1)%N)
  /\ (forall key, key ∉ issued -> get s key = (None, false)).
Proof.
  intros Hlen s issued r1 r2.
  destruct (storeInv_putAll arts newArtifactStore [] storeInv_new)
    as [[Hdom Hkeys] Hcount]; [cbn; lia|].
  cbn [app counter newArtifactStore] in Hdom, Hkeys, Hcount.
  fold s in Hdom, Hkeys, Hcount. fold issued in Hdom, Hkeys.
  assert (Hr1 : r1 = (FormatUint (counter s + 1),
                      {| items := <[FormatUint (counter s + 1) := b1]> (items s);
                         counter := (counter s + 1)%N |})).
  { unfold r1. apply put_some. lia. }
  assert (Hr2 : r2 = (FormatUint (counter s + 2),
                      {| items := <[FormatUint (counter s + 2) := b2]>
                                    (items r1.2);
                         counter := (counter s + 2)%N |})).
  { unfold r2. rewrite Hr1. cbn [snd]. rewrite put_some by (cbn; lia).
    cbn [counter items]. by replace (counter s + 1 + 1)%N
                              with (counter s + 2)%N by lia. }
  assert (Hfresh : forall n, (counter s < n)%N -> FormatUint n ∉ issued).
  { intros n Hn Hin.
    destruct (Hkeys _ Hin) as [Hempty|(id & Hid & Heq)].
    - by apply FormatUint_nonempty in Hempty.
    - apply FormatUint_inj in Heq. lia. }
  assert (Hnew : forall n, (counter s < n)%N -> items s !! FormatUint n = None).
  { intros n Hn. apply eq_None_not_Some. intros Hsome.
    destruct (Hdom _ Hsome) as [Hin _]. by apply (Hfresh n). }
  rewrite Hr2, Hr1. cbn [fst snd]. repeat split.
  - apply FormatUint_nonempty.
  - apply FormatUint_nonempty.
  - intros Heq%FormatUint_inj. lia.
  - apply Hfresh. lia.
  - rewrite elem_of_app, list_elem_of_singleton.
    intros [Hin|Heq%FormatUint_inj]; [|lia].
    revert Hin. apply Hfresh. lia.
  - apply Hnew. lia.
  - cbn [items]. rewrite lookup_insert_ne.
    + apply Hnew. lia.
    + intros Heq%FormatUint_inj. lia.
  - exists (counter s + 1)%N, (counter s + 2)%N.
    repeat split; [lia|].
    intros key Hin. destruct (Hkeys _ Hin) as [->|(id & Hid & ->)];
      [by left|].
    right. exists id. split; [done|lia].
  - intros key Hkey. unfold get.
    destruct (items s !! key) as [art|] eqn:Hart; [|done].
    destruct (Hdom key) as [Hin _]; [by eexists|]. done.
Qed.

Lemma artifactStore_keys_witness :
  (N.of_nat (length (@nil (option responseArtifacts))) + 2 < 2 ^ 64)%N
  /\ (put newArtifactStore
        (Some {| Thoughts := []; Sources := []; CodeSnippets := [] |})).1
     <> "".
Proof.
  split; [cbn; lia|].
  apply (artifactStore_keys []
           {| Thoughts := []; Sources := []; CodeSnippets := [] |}
           {| Thoughts := []; Sources := []; CodeSnippets := [] |}).
  cbn; lia.
Defined.

(** C10. Storing a bundle and looking up the key this returned gives the
    bundle back, found. *)
Theorem artifactStore_roundtrip (s : artifactStore) (b : responseArtifacts) :
  get (put s (Some b)).2 (put s (Some b)).1 = (Some b, true).
Proof.
  unfold put, get. cbn [fst snd items].
  by rewrite lookup_insert_eq.
Qed.

(** ** Sources *)

Lemma foldl_citationStep (acc : sourceAcc)
    (citations : list (option genai.Citation.t)) :
  foldl citationStep acc citations
  = foldl remember acc (omap citationEntry citations).
Proof.
  revert acc. induction citations as [|[citation|] citations IH];
    intros acc; cbn [foldl omap list_omap]; [done| |apply IH].
  cbn [citationEntry mbind option_bind]. cbn [foldl]. apply IH.
Qed.

Lemma foldl_chunkStep (acc : sourceAcc)
    (chunks : list (option genai.GroundingChunk.t)) :
  foldl chunkStep acc chunks = foldl remember acc (omap chunkEntry chunks).
Proof.
  revert acc. induction chunks as [|[[[web|]]|] chunks IH];
    intros acc; cbn [foldl omap list_omap]; [done| |apply IH|apply IH].
  cbn [chunkEntry mbind option_bind genai.GroundingChunk.Web].
  cbn [foldl]. apply IH.
Qed.

Lemma foldl_remember (acc : sourceAcc) (entries : list sourceRef) :
  (foldl remember acc entries).2 = acc.2 ++ firstOccurrences acc.1 entries.
Proof.
  revert acc. induction entries as [|entry entries IH]; intros acc;
    cbn [foldl firstOccurrences].
  - by rewrite app_nil_r.
  - rewrite IH. unfold remember.
    destruct (String.eqb (URI entry) "" || bool_decide (URI entry ∈ acc.1));
      [done|].
    cbn [fst snd]. by rewrite <- app_assoc.
Qed.

Lemma collectSources_firstOccurrences (cand : genai.Candidate.t) :
  collectSources (Some cand) = firstOccurrences ∅ (discovered cand).
Proof.
  unfold collectSources, discovered, citationsOf, chunksOfCandidate.
  cbv zeta.
  destruct (genai.Candidate.CitationMetadata cand) as [cites|];
    destruct (genai.Candidate.GroundingMetadata cand) as [ground|];
    rewrite ?foldl_citationStep, ?foldl_chunkStep, ?app_nil_r;
    cbn [omap list_omap app];
    rewrite <- ?foldl_app, ?foldl_remember; reflexivity.
Qed.

Lemma firstOccurrences_elem (seen : gset string) (entries : list sourceRef)
    (uri : string) :
  uri ∈ URI <$> firstOccurrences seen entries
  <-> uri <> "" /\ (uri ∉ seen) /\ uri ∈ URI <$> entries.
Proof.
  revert seen. induction entries as [|entry entries IH]; intros seen;
    cbn [firstOccurrences fmap list_fmap].
  - split; [intros H; inversion H|intros (_ & _ & H); inversion H].
  - destruct (String.eqb_spec (URI entry) "") as [Hempty|Hfull]; cbn [orb].
    + rewrite IH, elem_of_cons.
      split; [intros (? & ? & ?); auto|].
      intros (Hne & Hseen & [->|Hin]); [done|auto].
    + destruct (bool_decide_reflect (URI entry ∈ seen)) as [Hseen|Hnew].
      * rewrite IH, elem_of_cons.
        split; [intros (? & ? & ?); auto|].
        intros (Hne & Hunseen & [->|Hin]); [done|auto].
      * cbn [fmap list_fmap]. rewrite !elem_of_cons, IH.
        rewrite not_elem_of_union, not_elem_of_singleton.
        split.
        { intros [->|(? & [? ?] & ?)]; auto. }
        intros (Hne & Hunseen & [->|Hin]); [by left|].
        destruct (decide (uri = URI entry)) as [->|Hother]; [by left|].
        right. auto.
Qed.

Lemma firstOccurrences_NoDup (seen : gset string) (entries : list sourceRef) :
  NoDup (URI <$> firstOccurrences seen entries).
Proof.
  revert seen. induction entries as [|entry entries IH]; intros seen;
    cbn [firstOccurrences fmap list_fmap]; [constructor|].
  destruct (String.eqb (URI entry) "" || bool_decide (URI entry ∈ seen));
    [apply IH|].
  cbn [fmap list_fmap]. constructor; [|apply IH].
  rewrite firstOccurrences_elem. intros (_ & Hseen & _).
  apply Hseen. apply elem_of_union. left. by apply elem_of_singleton.
Qed.

Lemma firstOccurrences_sublist (seen : gset string)
    (entries : list sourceRef) :
  firstOccurrences seen entries `sublist_of` entries.
Proof.
  revert seen. induction entries as [|entry entries IH]; intros seen;
    cbn [firstOccurrences]; [constructor|].
  destruct (String.eqb (URI entry) "" || bool_decide (URI entry ∈ seen)).
  - apply sublist_cons, IH.
  - apply sublist_skip, IH.
Qed.

(** A kept source is the first entry that carries its URI, so its title is
    the title of the first occurrence. *)
Lemma firstOccurrences_first (seen : gset string) (entries : list sourceRef)
    (source : sourceRef) :
  source ∈ firstOccurrences seen entries ->
  find (fun entry => String.eqb (URI entry) (URI source)) entries
  = Some source.
Proof.
  revert seen. induction entries as [|entry entries IH]; intros seen;
    cbn [firstOccurrences find].
  - intros H. inversion H.
  - intros Hin.
    assert (Hlater : source ∈ firstOccurrences seen entries
                     \/ source ∈ firstOccurrences ({[URI entry]} ∪ seen) entries
                     -> URI source <> "").
    { intros [H|H]; apply (list_elem_of_fmap_2 URI) in H;
        apply firstOccurrences_elem in H; tauto. }
    destruct (String.eqb_spec (URI entry) "") as [Hempty|Hfull]; cbn [orb] in Hin.
    + destruct (String.eqb_spec (URI entry) (URI source)) as [Heq|Hne].
      * exfalso. apply Hlater; [by left|congruence].
      * by apply (IH seen).
    + destruct (bool_decide_reflect (URI entry ∈ seen)) as [Hseen|Hnew].
      * destruct (String.eqb_spec (URI entry) (URI source)) as [Heq|Hne];
          [|by apply (IH seen)].
        exfalso. apply (list_elem_of_fmap_2 URI) in Hin.
        apply firstOccurrences_elem in Hin. rewrite <- Heq in Hin. tauto.
      * apply elem_of_cons in Hin as [->|Hin].
        { by rewrite String.eqb_refl. }
        destruct (String.eqb_spec (URI entry) (URI source)) as [Heq|Hne];
          [|by apply (IH ({[URI entry]} ∪ seen))].
        exfalso. apply (list_elem_of_fmap_2 URI) in Hin.
        apply firstOccurrences_elem in Hin. rewrite <- Heq in Hin.
        destruct Hin as (_ & Hunseen & _). apply Hunseen.
        apply elem_of_union. left. by apply elem_of_singleton.
Qed.

Lemma firstOccurrences_positions (seen : gset string)
    (entries : list sourceRef) :
  firstOccurrences seen entries
  = omap (fun kept => kept)
      (imap (fun i entry =>
               if bool_decide (URI entry ∉ seen)
               then firstWithURI entries i entry else None) entries).
Proof.
  revert seen. induction entries as [|entry entries IH]; intros seen;
    [reflexivity|].
  cbn [firstOccurrences imap omap list_omap].
  assert (Hrest : forall seen',
            (URI entry = "" \/ URI entry ∈ seen -> seen' = seen) ->
            (URI entry <> "" -> URI entry ∉ seen ->
             seen' = {[URI entry]} ∪ seen) ->
            imap ((fun i e =>
                     if bool_decide (URI e ∉ seen)
                     then firstWithURI (entry :: entries) i e else None) ∘ S)
                 entries
            = imap (fun i e =>
                      if bool_decide (URI e ∉ seen')
                      then firstWithURI entries i e else None) entries).
  { intros seen' Hsame Hmore. apply imap_ext. intros i e _.
    unfold compose, firstWithURI. cbn [take fmap list_fmap].
    assert (Hcond :
      bool_decide (URI e ∉ seen)
      && (negb (String.eqb (URI e) "")
          && bool_decide (URI e ∉ URI entry :: (URI <$> take i entries)))
      = bool_decide (URI e ∉ seen')
        && (negb (String.eqb (URI e) "")
            && bool_decide (URI e ∉ URI <$> take i entries))).
    { apply eq_true_iff_eq.
      rewrite !andb_true_iff, !bool_decide_eq_true, !negb_true_iff,
        !String.eqb_neq, not_elem_of_cons.
      destruct (decide (URI entry = "")) as [Hempty|Hfull].
      - rewrite (Hsame (or_introl Hempty)), Hempty. tauto.
      - destruct (decide (URI entry ∈ seen)) as [Hseen|Hnew].
        + rewrite (Hsame (or_intror Hseen)).
          split; [tauto|]. intros (Hunseen & Hne & Hbefore).
          split; [done|]. split; [done|]. split; [|done].
          intros Heq. by rewrite Heq in Hunseen.
        + rewrite (Hmore Hfull Hnew), not_elem_of_union,
            not_elem_of_singleton. tauto. }
    assert (Hif : forall x y : bool,
              (if x then (if y then Some e else None) else None)
              = if x && y then Some e else @None sourceRef).
    { by intros [|] [|]. }
    by rewrite !Hif, Hcond. }
  unfold firstWithURI at 1. cbn [take fmap list_fmap].
  rewrite (bool_decide_eq_true_2 (URI entry ∉ [])) by apply not_elem_of_nil.
  rewrite andb_true_r, bool_decide_not.
  destruct (String.eqb_spec (URI entry) "") as [Hempty|Hfull];
    cbn [orb negb andb].
  - rewrite (Hrest seen) by (by intros; auto).
    destruct (negb (bool_decide (URI entry ∈ seen))); apply IH.
  - destruct (bool_decide_reflect (URI entry ∈ seen)) as [Hseen|Hnew];
      cbn [negb].
    + rewrite (Hrest seen) by (by intros; auto). apply IH.
    + rewrite (Hrest ({[URI entry]} ∪ seen)) by (intros; tauto).
      f_equal. apply IH.
Qed.

Lemma firstOccurrences_keepFirstByURI (entries : list sourceRef) :
  firstOccurrences ∅ entries = keepFirstByURI entries.
Proof.
  rewrite firstOccurrences_positions. reflexivity.
Qed.

(** C6, as the code has it. For every candidate, take the citations and then
    the web references of the grounding chunks, titles and URIs trimmed: the
    entries in the order of discovery.  The collected list is exactly the
    list of the entries whose URI is not empty and is carried by no entry
    before them, in the order of the entries, so citations come first; it
    is what the scan that keeps a set of seen URIs returns.  Hence it has no
    URI twice; it holds exactly the URIs of the entries that are not
    empty; each of its sources is the first entry with its URI, so the
    first title wins; and it is a sublist of the entries.  The sources
    (A,u1), (B,u2), (C,u1) give (A,u1), (B,u2), and so do (A,u1), (B,u2),
    (A,u1). *)
Theorem collectSources_spec (cand : genai.Candidate.t) :
  let sources := collectSources (Some cand) in
  sources = keepFirstByURI (discovered cand)
  /\ sources = firstOccurrences ∅ (discovered cand)
  /\ NoDup (URI <$> sources)
  /\ (forall uri, uri ∈ URI <$> sources
                  <-> uri <> "" /\ uri ∈ URI <$> discovered cand)
  /\ (forall source, source ∈ sources ->
        find (fun entry => String.eqb (URI entry) (URI source))
             (discovered cand) = Some source)
  /\ sources `sublist_of` discovered cand
  /\ collectSources
       (Some (candidateWith
                [citation "A" "u1"; citation "B" "u2"; citation "C" "u1"] []))
     = [{| Title := "A"; URI := "u1" |}; {| Title := "B"; URI := "u2" |}]
  /\ collectSources
       (Some (candidateWith
                [citation "A" "u1"; citation "B" "u2"] [webChunk "C" "u1"]))
     = [{| Title := "A"; URI := "u1" |}; {| Title := "B"; URI := "u2" |}]
  /\ collectSources
       (Some (candidateWith
                [citation "A" "u1"; citation "B" "u2"; citation "A" "u1"] []))
     = [{| Title := "A"; URI := "u1" |}; {| Title := "B"; URI := "u2" |}].
Proof.
  cbv zeta. rewrite collectSources_firstOccurrences.
  split; [apply firstOccurrences_keepFirstByURI|]. split; [reflexivity|].
  split; [apply firstOccurrences_NoDup|].
  split.
  { intros uri. rewrite firstOccurrences_elem.
    split; [intros (? & _ & ?); auto|intros [? ?]].
    split; [done|]. split; [apply not_elem_of_empty|done]. }
  split; [apply firstOccurrences_first|].
  split; [apply firstOccurrences_sublist|].
  repeat split; vm_compute; reflexivity.
Qed.

(** C6 as stated fails: a citation without URI is left out, and a URI is
    kept trimmed, not as the response spells it. *)
Lemma collectSources_counterexample :
  ~ eachURIOnce (candidateWith [citation "A" ""] [])
  /\ ~ eachURIOnce (candidateWith [citation "B" " u2"] [])
  /\ collectSources (Some (candidateWith [citation "A" ""] [])) = []
  /\ collectSources (Some (candidateWith [citation "B" " u2"] []))
     = [{| Title := "B"; URI := "u2" |}].
Proof.
  split; [|split; [|split; vm_compute; reflexivity]].
  - intros H. specialize (H "").
    assert (Hin : "" ∈ rawURIs (candidateWith [citation "A" ""] []))
      by (vm_compute; left).
    specialize (H Hin). vm_compute in H. discriminate.
  - intros H. specialize (H " u2").
    assert (Hin : " u2" ∈ rawURIs (candidateWith [citation "B" " u2"] []))
      by (vm_compute; left).
    specialize (H Hin). vm_compute in H. discriminate.
Qed.

(** ** Rendering a response *)

Lemma foldl_renderPart (acc : rendering) (parts : list (option genai.Part.t)) :
  foldl renderPart acc parts
  = {| mainParts := mainParts acc ++ concat (segmentsOf <$> parts);
       thoughtParts := thoughtParts acc ++ omap thoughtOf parts;
       codeSnippets := codeSnippets acc ++ omap snippetOf parts |}.
Proof.
  revert acc. induction parts as [|part parts IH]; intros acc.
  - cbn. rewrite !app_nil_r. by destruct acc.
  - cbn [foldl]. rewrite IH. clear IH.
    cbn [fmap list_fmap concat omap list_omap].
    destruct part as [part|]; [|reflexivity].
    unfold renderPart, segmentsOf, thoughtOf, snippetOf, resultBlock, nonBlank.
    cbn [mbind option_bind].
    destruct (genai.Part.Thought part).
    + destruct (String.eqb (Strings.TrimSpace (genai.Part.Text part)) "");
        cbn [mainParts thoughtParts codeSnippets app];
        by rewrite <- ?app_assoc.
    + destruct (String.eqb (Strings.TrimSpace (genai.Part.Text part)) "");
        destruct (genai.Part.CodeExecutionResult part) as [res|];
        destruct (genai.Part.ExecutableCode part) as [code|];
        cbn [mbind option_bind fmap option_fmap option_map default];
        try destruct (String.eqb
                        (Strings.TrimSpace
                           (genai.CodeExecutionResult.Output res)) "");
        cbn [mainParts thoughtParts codeSnippets option_list app
             fmap option_fmap option_map];
        by rewrite <- ?app_assoc, ?app_nil_r.
Qed.

(** With a candidate that has content, the reply is the segments of the
    parts joined by blank lines and trimmed, the thoughts are the thought
    fragments of the parts, and the snippets are the snippet records of the
    parts, each in the order of the parts. *)
Lemma renderResponse_parts
    (resp : option genai.GenerateContentResponse.t)
    (cand : genai.Candidate.t) (content : genai.Content.t) :
  firstCandidate resp = Some cand ->
  genai.Candidate.Content cand = Some content ->
  renderResponse resp
  = (Strings.TrimSpace
       (Strings.Join (concat (segmentsOf <$> genai.Content.Parts content))
          (Strings.newline +:+ Strings.newline)),
     {| Thoughts := omap thoughtOf (genai.Content.Parts content);
        Sources := collectSources (Some cand);
        CodeSnippets := omap snippetOf (genai.Content.Parts content) |}).
Proof.
  intros Hcand Hcontent.
  unfold renderResponse. cbv zeta. rewrite Hcand, Hcontent.
  rewrite foldl_renderPart. cbn [mainParts thoughtParts codeSnippets app].
  reflexivity.
Qed.

(** With no usable candidate the reply is empty and so is the bundle. *)
Lemma renderResponse_no_content
    (resp : option genai.GenerateContentResponse.t) :
  (firstCandidate resp ≫= genai.Candidate.Content) = None ->
  renderResponse resp
  = ("", {| Thoughts := []; Sources := []; CodeSnippets := [] |}).
Proof.
  unfold renderResponse. cbv zeta.
  destruct (firstCandidate resp) as [cand|]; [|done].
  cbn [mbind option_bind].
  by destruct (genai.Candidate.Content cand).
Qed.

(** C2 does not hold of the code.  [renderResponse] copies outcome and output
    into a snippet record only from the result that the part with the code
    carries itself.  A result that arrives in a part of its own, which is
    how the service sends it, is shown as a [Result:] block of the reply but
    recorded in no snippet: whatever comes before and after, the record of
    the code keeps an empty outcome and an empty output.  For the text [4],
    the code [print(2+2)] and the result [OUTCOME_OK] with output [4] and a
    line feed, the reply is as the claim says, and the one snippet record
    has neither outcome nor output; without the part with the code there is
    no record at all.  Only when code and result come in one part is the
    record the one of the claim.  In every case the reply is the segments
    of the parts that are not marked as reasoning, joined by blank lines and
    trimmed, and the thoughts are the trimmed texts of the parts that
    are. *)
Theorem renderResponse_loses_separate_result :
  (forall resp cand content,
      firstCandidate resp = Some cand ->
      genai.Candidate.Content cand = Some content ->
      renderResponse resp
      = (Strings.TrimSpace
           (Strings.Join (concat (segmentsOf <$> genai.Content.Parts content))
              (Strings.newline +:+ Strings.newline)),
         {| Thoughts := omap thoughtOf (genai.Content.Parts content);
            Sources := collectSources (Some cand);
            CodeSnippets := omap snippetOf (genai.Content.Parts content) |}))
  /\ (forall before after code res,
        CodeSnippets
          (renderResponse
             (Some (responseWith
                      (before
                       ++ [codePart (Some code) None;
                           codePart None (Some res)]
                       ++ after)))).2
        = omap snippetOf before
          ++ [{| Language := genai.ExecutableCode.Language code;
                 Code := genai.ExecutableCode.Code code;
                 Outcome := ""; Output := "" |}]
          ++ omap snippetOf after)
  /\ renderResponse (Some answerWithRun)
     = ("4" +:+ Strings.newline +:+ Strings.newline +:+ "Result:"
            +:+ Strings.newline +:+ "4",
        {| Thoughts := []; Sources := [];
           CodeSnippets := [{| Language := "PYTHON"; Code := "print(2+2)";
                               Outcome := ""; Output := "" |}] |})
  /\ ~ resultsRecorded (Some answerWithRun)
  /\ renderResponse
       (Some (responseWith
                [textPart "4";
                 codePart None (Some (okResult ("4" +:+ Strings.newline)))]))
     = ("4" +:+ Strings.newline +:+ Strings.newline +:+ "Result:"
            +:+ Strings.newline +:+ "4",
        {| Thoughts := []; Sources := []; CodeSnippets := [] |})
  /\ (forall code outcome,
        renderResponse
          (Some (responseWith
                   [textPart "4";
                    codePart (Some code)
                      (Some {| genai.CodeExecutionResult.Outcome := outcome;
                               genai.CodeExecutionResult.Output :=
                                 "4" +:+ Strings.newline |})]))
        = ("4" +:+ Strings.newline +:+ Strings.newline +:+ "Result:"
               +:+ Strings.newline +:+ "4",
           {| Thoughts := [];
              Sources := [];
              CodeSnippets :=
                [{| Language := genai.ExecutableCode.Language code;
                    Code := genai.ExecutableCode.Code code;
                    Outcome := outcome;
                    Output := "4" +:+ Strings.newline |}] |})).
Proof.
  split; [apply renderResponse_parts|].
  split.
  { intros before after code res.
    erewrite renderResponse_parts; [|reflexivity|reflexivity].
    cbn [snd CodeSnippets genai.Content.Parts].
    by rewrite !omap_app. }
  split; [reflexivity|].
  split; [|split; [reflexivity|intros code outcome; reflexivity]].
  intros H.
  destruct (H {| genai.Part.Text := ""; genai.Part.Thought := false;
                 genai.Part.InlineData := None;
                 genai.Part.ExecutableCode := None;
                 genai.Part.CodeExecutionResult :=
                   Some (okResult ("4" +:+ Strings.newline)) |}
              (okResult ("4" +:+ Strings.newline)))
    as (snippet & Hin & Houtcome & _); [|reflexivity|reflexivity|].
  - right. right. left.
  - vm_compute in Hin. apply list_elem_of_singleton in Hin. subst snippet.
    discriminate Houtcome.
Qed.

(** ** The keyboard under a reply *)

(** C1 does not hold of the code. Each button is passed to [Inline] in a call
    of its own, and [Inline] sets the keyboard to the rows of the call: the
    keyboard [buildResponseMarkup] returns has one row with one button, the
    last one requested.  For a bundle with code snippets stored under key
    [1] this is the code button alone; the thoughts button the claim
    promises is not there.  The keyboard of the claim is what the same calls
    would build if [Inline] added rows instead. *)
Theorem buildResponseMarkup_last_row_only :
  (forall (id : string) (art : responseArtifacts),
      buildResponseMarkup id (Some art)
      = if String.eqb id "" then None
        else Some {| tele.ReplyMarkup.InlineKeyboard :=
                       [[lastButton id art]] |})
  /\ buildResponseMarkup "1" (Some answerWithCode)
     = Some {| tele.ReplyMarkup.InlineKeyboard := [[codeButton "1"]] |}
  /\ Some {| tele.ReplyMarkup.InlineKeyboard :=
               intendedKeyboard "1" answerWithCode |}
     <> buildResponseMarkup "1" (Some answerWithCode)
  /\ (forall markup row button,
        buildResponseMarkup "1" (Some answerWithCode) = Some markup ->
        row ∈ tele.ReplyMarkup.InlineKeyboard markup ->
        button ∈ row ->
        tele.Btn.Text button <> "Show thoughts")
  /\ (forall (id : string) (art : responseArtifacts),
        buildResponseMarkupWith appendRows id (Some art)
        = if String.eqb id "" then None
          else Some {| tele.ReplyMarkup.InlineKeyboard :=
                         intendedKeyboard id art |}).
Proof.
  split; [|split; [reflexivity|split; [|split]]].
  - intros id art.
    unfold buildResponseMarkup, buildResponseMarkupWith, lastButton.
    cbv zeta.
    destruct (String.eqb id ""); [reflexivity|].
    destruct (0 <? length (Sources art)), (0 <? length (CodeSnippets art));
      reflexivity.
  - vm_compute. discriminate.
  - intros markup row button Hmarkup Hrow Hbutton.
    vm_compute in Hmarkup. injection Hmarkup as <-.
    cbn in Hrow. apply list_elem_of_singleton in Hrow. subst row.
    apply list_elem_of_singleton in Hbutton. subst button.
    vm_compute. discriminate.
  - intros id art. unfold buildResponseMarkupWith, intendedKeyboard.
    cbv zeta.
    destruct (String.eqb id ""); [reflexivity|].
    destruct (0 <? length (Sources art)), (0 <? length (CodeSnippets art));
      reflexivity.
Qed.

(** ** The message handler *)

Lemma isThinkingMode_nonempty (mode : thinkingMode) :
  isThinkingMode mode = true -> String.eqb mode "" = false.
Proof.
  destruct (String.eqb_spec mode "") as [->|]; [|done].
  vm_compute. discriminate.
Qed.

Lemma parseThinkingMode_valid (v : string) :
  isThinkingMode (parseThinkingMode v) = true.
Proof.
  unfold parseThinkingMode.
  destruct (isThinkingMode v) eqn:Hv; [done|reflexivity].
Qed.

Lemma currentThinking_ok (s : sessionState) :
  isThinkingMode (thinking s) = true -> currentThinking s = (thinking s, s).
Proof.
  intros Hmode. unfold currentThinking.
  by rewrite isThinkingMode_nonempty.
Qed.

Lemma currentThinking_sessionOk (s : sessionState) :
  sessionOk s -> sessionOk (currentThinking s).2.
Proof. intros Hs. rewrite currentThinking_ok; [done|apply Hs]. Qed.

Lemma filterModelContent_parts (content : genai.Content.t) :
  filterModelContent (Some content)
  = Some {| genai.Content.Role := genai.RoleModel;
            genai.Content.Parts :=
              filter (fun part => keepPart part = true)
                     (genai.Content.Parts content) |}.
Proof.
  unfold filterModelContent. do 2 f_equal.
  generalize (genai.Content.Parts content) as parts.
  assert (Hgen : forall parts cleaned,
             foldl (fun cleaned part =>
                      if keepPart part then cleaned ++ [part] else cleaned)
                   cleaned parts
             = cleaned ++ filter (fun part => keepPart part = true) parts).
  { induction parts as [|part parts IH]; intros cleaned; cbn [foldl].
    - by rewrite app_nil_r.
    - rewrite IH. destruct (keepPart part) eqn:Hkeep.
      + rewrite filter_cons_True by done. by rewrite <- app_assoc.
      + rewrite filter_cons_False; [done|]. by rewrite Hkeep. }
  intros parts. by rewrite Hgen.
Qed.

Lemma modelTurn_clean (resp : genai.GenerateContentResponse.t)
    (turn : genai.Content.t) :
  modelTurn resp = Some turn -> turnClean turn.
Proof.
  unfold modelTurn. destruct (firstCandidate (Some resp)) as [cand|]; [|done].
  cbn [mbind option_bind].
  destruct (genai.Candidate.Content cand) as [content|]; [|done].
  rewrite filterModelContent_parts. intros [= <-].
  unfold turnClean. cbn [genai.Content.Parts].
  apply Forall_forall. by intros part [Hkeep _]%list_elem_of_filter.
Qed.

Lemma collectMedia_clean (media : list tele.Fetch.t)
    (parts collected : list (option genai.Part.t)) :
  Forall (fun part => keepPart part = true) parts ->
  collectMedia parts media = Ok collected ->
  Forall (fun part => keepPart part = true) collected.
Proof.
  revert parts. induction media as [|file media IH]; intros parts Hparts;
    cbn [collectMedia].
  - by intros [= <-].
  - destruct (partFromFile file) as [part|err] eqn:Hfile; [|done].
    apply IH. apply Forall_app. split; [done|].
    constructor; [|constructor].
    destruct file as [err|err|data mime]; cbn in Hfile; try done.
    destruct (String.eqb data ""); [done|]. by injection Hfile as <-.
Qed.

Lemma collectParts_clean (msg : tele.Message.t)
    (parts : list (option genai.Part.t)) :
  collectParts msg = Ok parts ->
  Forall (fun part => keepPart part = true) parts.
Proof.
  unfold collectParts. cbv zeta. apply collectMedia_clean.
  destruct (String.eqb (Strings.TrimSpace (tele.Message.Text msg)) "");
    destruct (negb (String.eqb (Strings.TrimSpace (tele.Message.Caption msg)) "")
              && negb (String.eqb (Strings.TrimSpace (tele.Message.Caption msg))
                         (Strings.TrimSpace (tele.Message.Text msg))));
    cbn [app]; repeat constructor.
Qed.

Lemma lastN_Forall {A : Type} (P : A -> Prop) (n : nat) (l : list A) :
  Forall P l -> Forall P (lastN n l).
Proof. apply Forall_drop. Qed.

Lemma appendTurn_sessionOk (s : sessionState)
    (user model : option genai.Content.t) :
  sessionOk s ->
  (forall turn, user = Some turn -> turnClean turn) ->
  (forall turn, model = Some turn -> turnClean turn) ->
  sessionOk (appendTurn s user model).
Proof.
  intros (Hmode & _ & Hclean) Huser Hmodel.
  split; [done|]. split; [apply appendTurn_bounded|].
  rewrite appendTurn_history. apply lastN_Forall.
  rewrite !Forall_app. split; [done|].
  split; [destruct user|destruct model]; cbn; repeat constructor; auto.
Qed.

Lemma sessionAfter_sessionOk (client : genai.Client) (session : sessionState)
    (msg : tele.Message.t) :
  sessionOk session -> sessionOk (sessionAfter client session msg).
Proof.
  intros Hs. unfold sessionAfter.
  destruct (collectParts msg) as [parts|err] eqn:Hparts; [|done].
  destruct parts as [|part parts]; [done|]. cbv zeta.
  destruct (client _ _) as [resp|err];
    [|by apply currentThinking_sessionOk].
  destruct (blocked resp); [by apply currentThinking_sessionOk|].
  apply appendTurn_sessionOk.
  - by apply currentThinking_sessionOk.
  - intros turn [= <-]. by apply collectParts_clean in Hparts.
  - apply modelTurn_clean.
Qed.

Lemma handleUserMessage_sessions (a : App.t) (msg : tele.Message.t) :
  let chat := tele.Message.ChatID msg in
  let found := sessionManager_get (App.sessions a) chat in
  App.sessions (handleUserMessage a (Some msg)).2
  = sessionManager_set found.2 chat (sessionAfter (App.client a) found.1 msg)
  /\ App.client (handleUserMessage a (Some msg)).2 = App.client a.
Proof.
  cbv zeta. unfold handleUserMessage, sessionAfter.
  destruct (sessionManager_get (App.sessions a) (tele.Message.ChatID msg))
    as [session manager].
  cbn [fst snd].
  destruct (collectParts msg) as [[|part parts]|err].
  - by destruct (sendWithFallback _ _ _ _).
  - cbv zeta. destruct (currentThinking session) as [mode session'].
    cbn [fst snd].
    destruct (App.client a _ _) as [resp|err].
    + destruct (blocked resp).
      * by destruct (sendWithFallback _ _ _ _).
      * destruct (renderResponse (Some resp)) as [reply artifacts].
        destruct (put (App.artifacts a) (Some artifacts)) as [recordID store].
        destruct (sendWithFallback _ _ _ _) as [sendErr b].
        cbn [snd App.sessions App.client]. split; [|done].
        f_equal. unfold modelTurn.
        destruct (firstCandidate (Some resp)) as [cand|]; [|done].
        cbn [mbind option_bind].
        by destruct (genai.Candidate.Content cand).
    + by destruct (sendWithFallback _ _ _ _).
  - by destruct (sendWithFallback _ _ _ _).
Qed.

Lemma handleSettings_sessions (a : App.t) (chat : Z) :
  let found := sessionManager_get (App.sessions a) chat in
  App.sessions (handleSettings a chat).2
  = sessionManager_set found.2 chat (currentThinking found.1).2
  /\ App.client (handleSettings a chat).2 = App.client a.
Proof.
  cbv zeta. unfold handleSettings.
  destruct (sessionManager_get (App.sessions a) chat) as [session manager].
  cbn [fst snd]. destruct (currentThinking session) as [mode session'].
  by destruct (sendWithFallback _ _ _ _).
Qed.

Lemma handleModeSelection_sessions (a : App.t) (chat : Z) (payload : string) :
  let found := sessionManager_get (App.sessions a) chat in
  App.sessions (handleModeSelection a chat payload).2
  = sessionManager_set found.2 chat
      (setThinking found.1 (parseThinkingMode payload))
  /\ App.client (handleModeSelection a chat payload).2 = App.client a.
Proof.
  cbv zeta. unfold handleModeSelection.
  destruct (sessionManager_get (App.sessions a) chat) as [session manager].
  cbv zeta. by destruct (sendWithFallback _ _ _ _).
Qed.

Lemma sessionManager_get_spec (m : sessionManager) (chat : Z) :
  let found := sessionManager_get m chat in
  sessions found.2 !! chat = Some found.1
  /\ (forall other, other <> chat ->
        sessions found.2 !! other = sessions m !! other)
  /\ defaultMode found.2 = defaultMode m
  /\ found.1 = default {| history := []; thinking := defaultMode m |}
                       (sessions m !! chat).
Proof.
  cbv zeta. unfold sessionManager_get.
  destruct (sessions m !! chat) as [session|] eqn:Hfound;
    cbn [fst snd sessions defaultMode default].
  - done.
  - rewrite lookup_insert_eq. repeat split.
    intros other Hother. by rewrite lookup_insert_ne.
Qed.

Lemma sessionManager_get_ok (m : sessionManager) (chat : Z) :
  managerOk m ->
  sessionOk (sessionManager_get m chat).1
  /\ managerOk (sessionManager_get m chat).2.
Proof.
  intros [Hdefault Hsessions].
  destruct (sessionManager_get_spec m chat) as (Hchat & Hother & Hmode & Hfound).
  assert (Hok : sessionOk (sessionManager_get m chat).1).
  { rewrite Hfound. destruct (sessions m !! chat) as [session|] eqn:Hlookup.
    - by apply (Hsessions chat).
    - cbn [default]. rewrite Hdefault. split; [reflexivity|].
      split; [cbn; unfold maxHistoryEntries; lia|constructor]. }
  split; [done|]. split; [congruence|].
  intros other s. destruct (decide (other = chat)) as [->|Hne].
  - rewrite Hchat. by intros [= <-].
  - rewrite Hother by done. apply Hsessions.
Qed.

Lemma sessionManager_set_spec (m : sessionManager) (chat : Z)
    (session : sessionState) :
  sessions (sessionManager_set m chat session) !! chat = Some session
  /\ (forall other, other <> chat ->
        sessions (sessionManager_set m chat session) !! other
        = sessions m !! other).
Proof.
  unfold sessionManager_set. cbn [sessions].
  rewrite lookup_insert_eq. split; [done|].
  intros other Hother. by rewrite lookup_insert_ne.
Qed.

Lemma sessionManager_set_ok (m : sessionManager) (chat : Z)
    (session : sessionState) :
  managerOk m -> sessionOk session ->
  managerOk (sessionManager_set m chat session).
Proof.
  intros [Hdefault Hsessions] Hsession.
  destruct (sessionManager_set_spec m chat session) as [Hchat Hother].
  split; [done|].
  intros other s. destruct (decide (other = chat)) as [->|Hne].
  - rewrite Hchat. by intros [= <-].
  - rewrite Hother by done. apply Hsessions.
Qed.

Lemma appOk_managerOk (client : genai.Client) (a : App.t) :
  appOk client a -> managerOk (App.sessions a).
Proof. intros (_ & Hdefault & Hsessions). by split. Qed.

Lemma dispatch_appOk (client : genai.Client) (a : App.t) (u : update) :
  appOk client a -> appOk client (dispatch a u).
Proof.
  intros Ha. pose proof (appOk_managerOk client a Ha) as Hm.
  destruct Ha as (Hclient & _).
  assert (Hstep : forall a' session,
             App.sessions a'
             = sessionManager_set
                 (sessionManager_get (App.sessions a) session.1).2
                 session.1 session.2 ->
             App.client a' = App.client a ->
             sessionOk session.2 ->
             appOk client a').
  { intros a' [chat session] Hsessions Hclient' Hsession.
    cbn [fst snd] in *.
    destruct (sessionManager_get_ok (App.sessions a) chat Hm) as [_ Hm'].
    pose proof (sessionManager_set_ok _ chat session Hm' Hsession) as [Hd Hs].
    rewrite <- Hsessions in Hd, Hs.
    split; [congruence|]. by split. }
  destruct u as [[msg|]|chat|chat payload]; cbn [dispatch].
  - destruct (handleUserMessage_sessions a msg) as [Hsessions Hclient'].
    apply (Hstep _ (tele.Message.ChatID msg, _) Hsessions Hclient').
    apply sessionAfter_sessionOk.
    by apply sessionManager_get_ok.
  - cbn. split; [done|]. by destruct Hm.
  - destruct (handleSettings_sessions a chat) as [Hsessions Hclient'].
    apply (Hstep _ (chat, _) Hsessions Hclient').
    apply currentThinking_sessionOk. by apply sessionManager_get_ok.
  - destruct (handleModeSelection_sessions a chat payload)
      as [Hsessions Hclient'].
    apply (Hstep _ (chat, _) Hsessions Hclient').
    destruct (sessionManager_get_ok (App.sessions a) chat Hm)
      as [(_ & Hlen & Hclean) _].
    split; [apply parseThinkingMode_valid|]. by split.
Qed.

Lemma New_appOk (client : genai.Client) : appOk client (New client).
Proof.
  split; [done|]. split; [done|].
  intros chat s Hs. cbn in Hs. by rewrite lookup_empty in Hs.
Qed.

Lemma expect_appOk (client : genai.Client) (a : App.t)
    (answers : list (option error)) :
  appOk client a -> appOk client (expect a answers).
Proof. done. Qed.

(** Every application the bot reaches keeps its sessions well formed. *)
Lemma run_appOk (client : genai.Client)
    (updates : list (list (option error) * update)) :
  appOk client (run (New client) updates).
Proof.
  unfold run. generalize (New_appOk client).
  generalize (New client) as a.
  induction updates as [|[answers u] updates IH]; intros a Ha; [done|].
  cbn [foldl]. apply IH. cbn [fst snd].
  by apply dispatch_appOk, expect_appOk.
Qed.

(** The calls one [sendWithFallback] adds: the text as given, in MarkdownV2
    unless the options name another mode, and after it at most one more
    call, with the text escaped. *)
Lemma sendWithFallback_calls (b : tele.Bot.t) (recipient : Z) (text : string)
    (opts : tele.SendOptions.t) :
  exists retry,
    tele.Bot.calls (sendWithFallback b recipient text opts).2
    = tele.Bot.calls b ++
        {| tele.Sent.To := recipient; tele.Sent.Body := text;
           tele.Sent.Options :=
             if String.eqb (tele.SendOptions.ParseMode opts) ""
             then withParseMode opts tele.ModeMarkdownV2 else opts |} :: retry
    /\ Forall (fun call => tele.Sent.To call = recipient
                           /\ tele.Sent.Body call = escapeMarkdownV2 text)
              retry.
Proof.
  unfold sendWithFallback. cbv zeta. unfold tele.Send.
  destruct (tele.Bot.answers b) as [|answer rest];
    cbn [isParseError negb].
  - exists []. cbn [snd tele.Bot.calls]. split; [done|constructor].
  - destruct (isParseError answer); cbn [negb].
    + eexists [_].
      destruct rest; cbn [snd tele.Bot.calls tele.Bot.answers];
        rewrite <- app_assoc; (split; [reflexivity|]);
        repeat constructor.
    + exists []. cbn [snd tele.Bot.calls]. split; [done|constructor].
Qed.

(** C8. When the answer of the completion service to a message names a block
    reason, the handler sends the safety notice to the chat (and once more,
    escaped, if the channel could not parse it), returns no error, and leaves
    the session of the chat, history and thinking level, as it found it; the
    other sessions and the artifact store are untouched as well. *)
Theorem blocked_message_leaves_session
    (client : genai.Client) (updates : list (list (option error) * update))
    (answers : list (option error)) (msg : tele.Message.t)
    (parts : list (option genai.Part.t))
    (resp : genai.GenerateContentResponse.t) :
  let a := expect (run (New client) updates) answers in
  let chat := tele.Message.ChatID msg in
  let session := (sessionManager_get (App.sessions a) chat).1 in
  collectParts msg = Ok parts ->
  parts <> [] ->
  client (conversationWith session
            (genai.NewContentFromParts parts genai.RoleUser))
         (buildGenerateConfig (thinking session)) = Ok resp ->
  blocked resp = true ->
  let after := handleUserMessage a (Some msg) in
  after.1 = None
  /\ sessions (App.sessions after.2) !! chat = Some session
  /\ (forall other, other <> chat ->
        sessions (App.sessions after.2) !! other
        = sessions (App.sessions a) !! other)
  /\ App.artifacts after.2 = App.artifacts a
  /\ exists retry,
       tele.Bot.calls (App.bot after.2)
       = tele.Bot.calls (App.bot a) ++
           {| tele.Sent.To := chat; tele.Sent.Body := safetyWarning;
              tele.Sent.Options :=
                withParseMode plainOptions tele.ModeMarkdownV2 |} :: retry
       /\ Forall (fun call =>
                    tele.Sent.To call = chat
                    /\ tele.Sent.Body call = escapeMarkdownV2 safetyWarning)
                 retry.
Proof.
  intros a chat session Hparts Hne Hresp Hblocked after.
  assert (Ha : appOk client a) by apply expect_appOk, run_appOk.
  destruct Ha as (Hclient & Hm).
  destruct (sessionManager_get_ok (App.sessions a) chat) as [Hsession _];
    [done|].
  fold session in Hsession.
  destruct (sessionManager_get_spec (App.sessions a) chat)
    as (Hchat & Hother & _).
  fold session in Hchat.
  destruct (sendWithFallback_calls (App.bot a) chat safetyWarning plainOptions)
    as (retry & Hcalls & Hretry).
  assert (Hafter : after
            = (None,
               {| App.bot := (sendWithFallback (App.bot a) chat safetyWarning
                                plainOptions).2;
                  App.client := App.client a;
                  App.sessions :=
                    sessionManager_set
                      (sessionManager_get (App.sessions a) chat).2 chat session;
                  App.artifacts := App.artifacts a |})).
  { unfold after, handleUserMessage. fold chat. unfold session in *.
    destruct (sessionManager_get (App.sessions a) chat) as [found manager].
    cbn [fst snd] in *. rewrite Hparts.
    destruct parts as [|part parts]; [done|].
    rewrite currentThinking_ok by apply Hsession.
    rewrite Hclient, Hresp, Hblocked.
    by destruct (sendWithFallback _ _ _ _). }
  rewrite Hafter. cbn [fst snd App.sessions App.artifacts App.bot].
  destruct (sessionManager_set_spec
              (sessionManager_get (App.sessions a) chat).2 chat session)
    as [Hset Hset_other].
  split; [done|]. split; [done|].
  split.
  { intros other Hne'. rewrite Hset_other by done. by apply Hother. }
  split; [done|].
  exists retry. by split.
Qed.

Lemma blocked_message_leaves_session_witness :
  collectParts question = Ok [textPart "2+2?"]
  /\ [textPart "2+2?"] <> []
  /\ blocked blockedResponse = true
  /\ sessions (App.sessions
                 (handleUserMessage (New (fun _ _ => Ok blockedResponse))
                    (Some question)).2) !! 7%Z
     = Some {| history := []; thinking := thinkingModeMedium |}.
Proof.
  split; [reflexivity|]. split; [discriminate|]. split; [reflexivity|].
  refine (proj1 (proj2
    (blocked_message_leaves_session (fun _ _ => Ok blockedResponse) [] []
       question [textPart "2+2?"] blockedResponse
       eq_refl _ eq_refl eq_refl))).
  discriminate.
Defined.

Lemma keepPart_true (part : option genai.Part.t) :
  keepPart part = true
  <-> exists p, part = Some p /\ genai.Part.Thought p = false.
Proof.
  destruct part as [p|]; cbn.
  - rewrite negb_true_iff. split; [by exists p|]. by intros (? & [= <-] & ?).
  - split; [done|]. by intros (? & ? & _).
Qed.

(** C9. When a response is stored, the history of the chat becomes what it
    was, then the user turn, then the model turn, cut to its last 20 entries,
    so the user turn is always in it.
    The model turn holds the parts of the candidate's content that are not
    nil and not marked as reasoning, in their order, and nothing else; when
    the response has no candidate with content, only the user turn is
    appended.  No history of any session ever holds a part marked as
    reasoning. *)
Theorem stored_turn_has_no_thoughts
    (client : genai.Client) (updates : list (list (option error) * update))
    (answers : list (option error)) (msg : tele.Message.t)
    (parts : list (option genai.Part.t))
    (resp : genai.GenerateContentResponse.t) :
  let a := expect (run (New client) updates) answers in
  let chat := tele.Message.ChatID msg in
  let session := (sessionManager_get (App.sessions a) chat).1 in
  let userContent := genai.NewContentFromParts parts genai.RoleUser in
  collectParts msg = Ok parts ->
  parts <> [] ->
  client (conversationWith session userContent)
         (buildGenerateConfig (thinking session)) = Ok resp ->
  blocked resp = false ->
  let after := (handleUserMessage a (Some msg)).2 in
  (exists session',
      sessions (App.sessions after) !! chat = Some session'
      /\ thinking session' = thinking session
      /\ history session'
         = lastN 20 (history session ++ [userContent]
                       ++ option_list (modelTurn resp))
      /\ userContent ∈ history session')
  /\ (forall cand content,
        firstCandidate (Some resp) = Some cand ->
        genai.Candidate.Content cand = Some content ->
        modelTurn resp
        = Some {| genai.Content.Parts :=
                    filter (fun part => keepPart part = true)
                           (genai.Content.Parts content);
                  genai.Content.Role := genai.RoleModel |})
  /\ ((firstCandidate (Some resp) ≫= genai.Candidate.Content) = None ->
      modelTurn resp = None)
  /\ (forall chat' s turn part,
        sessions (App.sessions after) !! chat' = Some s ->
        turn ∈ history s ->
        part ∈ genai.Content.Parts turn ->
        exists p, part = Some p /\ genai.Part.Thought p = false).
Proof.
  intros a chat session userContent Hparts Hne Hresp Hblocked after.
  assert (Ha : appOk client a) by apply expect_appOk, run_appOk.
  pose proof (dispatch_appOk client a (OnMessage (Some msg)) Ha) as Hafter.
  cbn [dispatch] in Hafter. fold after in Hafter.
  destruct Ha as (Hclient & Hm).
  destruct (sessionManager_get_ok (App.sessions a) chat) as [Hsession _];
    [done|].
  fold session in Hsession.
  destruct (handleUserMessage_sessions a msg) as [Hsessions _].
  cbv zeta in Hsessions. fold chat session after in Hsessions.
  assert (Hstored : sessionAfter (App.client a) session msg
                    = appendTurn session (Some userContent) (modelTurn resp)).
  { unfold sessionAfter. rewrite Hparts.
    destruct parts as [|part parts]; [done|]. cbv zeta.
    rewrite currentThinking_ok by apply Hsession. cbn [fst snd].
    fold userContent. by rewrite Hclient, Hresp, Hblocked. }
  rewrite Hstored in Hsessions.
  split; [|split; [|split]].
  - exists (appendTurn session (Some userContent) (modelTurn resp)).
    rewrite Hsessions.
    split; [apply sessionManager_set_spec|]. split; [done|].
    rewrite appendTurn_history. split; [done|].
    apply lastN_recent with (k := option_list (modelTurn resp)).
    destruct (modelTurn resp); cbn; unfold maxHistoryEntries; lia.
  - intros cand content Hcand Hcontent. unfold modelTurn.
    rewrite Hcand. cbn [mbind option_bind]. rewrite Hcontent.
    by rewrite filterModelContent_parts.
  - unfold modelTurn.
    destruct (firstCandidate (Some resp)) as [cand|]; [|done].
    cbn [mbind option_bind]. by intros ->.
  - intros chat' s turn part Hs Hturn Hpart.
    destruct Hafter as (_ & _ & Hall).
    destruct (Hall chat' s Hs) as (_ & _ & Hclean).
    rewrite Forall_forall in Hclean. specialize (Hclean turn Hturn).
    unfold turnClean in Hclean. rewrite Forall_forall in Hclean.
    by apply keepPart_true, Hclean.
Qed.

Lemma stored_turn_has_no_thoughts_witness :
  collectParts question = Ok [textPart "2+2?"]
  /\ [textPart "2+2?"] <> []
  /\ blocked plainAnswer = false
  /\ modelTurn plainAnswer
     = Some {| genai.Content.Parts := [textPart "4"];
               genai.Content.Role := genai.RoleModel |}.
Proof.
  split; [reflexivity|]. split; [discriminate|]. split; [reflexivity|].
  refine (proj1 (proj2
    (stored_turn_has_no_thoughts (fun _ _ => Ok plainAnswer) [] []
       question [textPart "2+2?"] plainAnswer
       eq_refl _ eq_refl eq_refl)) _ _ eq_refl eq_refl).
  discriminate.
Defined.

(** * Further properties *)

(** ** Thinking modes and sessions *)

Lemma isThinkingMode_elem (v : string) :
  isThinkingMode v = true <-> v ∈ thinkingModes.
Proof.
  unfold isThinkingMode, thinkingModes.
  rewrite !orb_true_iff, !String.eqb_eq, !elem_of_cons.
  split; [intros [[[?|?]|?]|?]; auto|].
  intros [?|[?|[?|[?|H]]]]; auto. inversion H.
Qed.

(** X1. Parsing always gives a mode of the enumeration: a mode of the
    enumeration is returned as it is, every other string gives the default,
    medium; so parsing twice changes nothing. *)
Theorem parseThinkingMode_spec (v : string) :
  parseThinkingMode v ∈ thinkingModes
  /\ (v ∈ thinkingModes -> parseThinkingMode v = v)
  /\ (v ∉ thinkingModes -> parseThinkingMode v = thinkingModeMedium)
  /\ parseThinkingMode (parseThinkingMode v) = parseThinkingMode v.
Proof.
  assert (Hvalid : parseThinkingMode v ∈ thinkingModes).
  { apply isThinkingMode_elem, parseThinkingMode_valid. }
  assert (Hfix : forall w, w ∈ thinkingModes -> parseThinkingMode w = w).
  { intros w Hw%isThinkingMode_elem. unfold parseThinkingMode.
    by rewrite Hw. }
  split; [done|]. split; [apply Hfix|]. split; [|by apply Hfix].
  intros Hv. unfold parseThinkingMode.
  destruct (isThinkingMode v) eqn:Hmode; [|reflexivity].
  by apply isThinkingMode_elem in Hmode.
Qed.

(** X2. The budget and the label of any string are those of the mode it parses
    to, so a stored value outside the enumeration behaves as medium; the
    budget pointer is never nil; and on the enumeration both the budget and
    the label tell the modes apart. *)
Theorem budget_and_label_follow_parse :
  (forall v, budgetTokens v = budgetTokens (parseThinkingMode v)
             /\ label v = label (parseThinkingMode v))
  /\ (forall v, exists budget,
        budgetTokens v = Some budget
        /\ budget ∈ [4096; 16384; 32768; -1]%Z)
  /\ (forall m1 m2, m1 ∈ thinkingModes -> m2 ∈ thinkingModes ->
        budgetTokens m1 = budgetTokens m2 \/ label m1 = label m2 -> m1 = m2).
Proof.
  split; [|split].
  - intros v. unfold parseThinkingMode, isThinkingMode, budgetTokens, label.
    destruct (String.eqb_spec v thinkingModeLow) as [->|_]; [done|].
    destruct (String.eqb_spec v thinkingModeMedium) as [->|_]; [done|].
    destruct (String.eqb_spec v thinkingModeHigh) as [->|_]; [done|].
    destruct (String.eqb_spec v thinkingModeDynamic) as [->|_]; done.
  - intros v. unfold budgetTokens.
    destruct (String.eqb v thinkingModeLow);
      [eexists; split; [done|set_solver]|].
    destruct (String.eqb v thinkingModeMedium);
      [eexists; split; [done|set_solver]|].
    destruct (String.eqb v thinkingModeHigh);
      [eexists; split; [done|set_solver]|].
    destruct (String.eqb v thinkingModeDynamic);
      eexists; (split; [done|set_solver]).
  - intros m1 m2 H1 H2. unfold thinkingModes in H1, H2.
    rewrite !elem_of_cons in H1, H2.
    destruct H1 as [->|[->|[->|[->|H1]]]]; [..|inversion H1];
      destruct H2 as [->|[->|[->|[->|H2]]]]; try (inversion H2; fail);
      intros [H|H]; try reflexivity; vm_compute in H; discriminate.
Qed.

(** X3. [get] creates the session of a chat once: it returns the session the
    table holds for the chat after the call, leaves every other chat alone,
    returns a stored session without touching the table, and gives a chat
    without session an empty history and the default mode; a second call
    returns the same session and the same table. *)
Theorem sessionManager_get_creates_once (m : sessionManager) (chat : Z) :
  let found := sessionManager_get m chat in
  sessions found.2 !! chat = Some found.1
  /\ (forall other, other <> chat ->
        sessions found.2 !! other = sessions m !! other)
  /\ (forall session, sessions m !! chat = Some session ->
        found = (session, m))
  /\ (sessions m !! chat = None ->
        found.1 = {| history := []; thinking := defaultMode m |})
  /\ sessionManager_get found.2 chat = found.
Proof.
  cbv zeta.
  destruct (sessionManager_get_spec m chat) as (Hchat & Hother & _ & Hfound).
  split; [done|]. split; [done|].
  split; [|split].
  - intros session Hsession. unfold sessionManager_get. by rewrite Hsession.
  - intros Hnone. by rewrite Hfound, Hnone.
  - unfold sessionManager_get at 1. rewrite Hchat.
    by destruct (sessionManager_get m chat).
Qed.

(** X4. [currentThinking] never returns the empty mode: it returns the stored
    mode, or medium when none is stored, and the session then stores what it
    returned; the history is not touched, and a second call changes
    nothing. *)
Theorem currentThinking_repairs (s : sessionState) :
  let read := currentThinking s in
  read.1 <> ""
  /\ read.1 = (if String.eqb (thinking s) "" then thinkingModeMedium
               else thinking s)
  /\ thinking read.2 = read.1
  /\ history read.2 = history s
  /\ currentThinking read.2 = read.
Proof.
  cbv zeta. unfold currentThinking.
  destruct (String.eqb_spec (thinking s) "") as [Hempty|Hfull];
    cbn [fst snd thinking history].
  - repeat split; done.
  - rewrite <- String.eqb_neq in Hfull. rewrite Hfull.
    rewrite String.eqb_neq in Hfull. repeat split; done.
Qed.

(** ** The artifact store, over a run of calls *)

(** A later [put] leaves what the store holds under the keys it has
    returned. *)
Lemma putAll_keeps (arts : list (option responseArtifacts))
    (s : artifactStore) (issued : list string) (key : string) :
  storeInv s issued ->
  (counter s + N.of_nat (length arts) < 2 ^ 64)%N ->
  is_Some (items s !! key) ->
  items (putAll s arts).2 !! key = items s !! key.
Proof.
  revert s issued.
  induction arts as [|art arts IH]; intros s issued Hinv Hlt Hkey; [done|].
  cbn [putAll length] in *.
  destruct (storeInv_put s issued art Hinv) as [Hinv' Hcount]; [lia|].
  assert (Hsame : items (put s art).2 !! key = items s !! key).
  { destruct art as [art|]; [|done].
    rewrite put_some by lia. cbn [snd items].
    apply lookup_insert_ne. intros <-.
    destruct Hinv as [Hdom Hkeys].
    destruct (Hdom _ Hkey) as [Hin _].
    destruct (Hkeys _ Hin) as [Hempty|(id & Hid & Heq)].
    - by apply FormatUint_nonempty in Hempty.
    - apply FormatUint_inj in Heq. lia. }
  destruct (put s art) as [key' s'] eqn:Hput. cbn [fst snd] in *.
  specialize (IH s' (issued ++ [key']) Hinv').
  destruct (putAll s' arts) as [keys s''] eqn:Hall. cbn [snd] in *.
  rewrite IH; [done|lia|by rewrite Hsame].
Qed.

Lemma putAll_lookup (arts : list (option responseArtifacts))
    (s : artifactStore) (issued : list string) (i : nat)
    (art : responseArtifacts) :
  storeInv s issued ->
  (counter s + N.of_nat (length arts) < 2 ^ 64)%N ->
  arts !! i = Some (Some art) ->
  exists key,
    (putAll s arts).1 !! i = Some key /\ key <> ""
    /\ get (putAll s arts).2 key = (Some art, true).
Proof.
  revert s issued i.
  induction arts as [|art0 arts IH]; intros s issued i Hinv Hlt Hi; [done|].
  cbn [putAll length] in *.
  destruct (storeInv_put s issued art0 Hinv) as [Hinv' Hcount]; [lia|].
  destruct i as [|i]; cbn in Hi.
  - injection Hi as ->.
    pose proof (putAll_keeps arts (put s (Some art)).2
                  (issued ++ [(put s (Some art)).1])
                  (put s (Some art)).1 Hinv') as Hkeep.
    rewrite put_some in * by lia. cbn [fst snd counter items] in *.
    destruct (putAll _ arts) as [keys s''] eqn:Hall. cbn [fst snd] in *.
    exists (FormatUint (counter s + 1)).
    split; [done|]. split; [apply FormatUint_nonempty|].
    unfold get. rewrite Hkeep; [|lia|by rewrite lookup_insert_eq].
    by rewrite lookup_insert_eq.
  - destruct (put s art0) as [key' s'] eqn:Hput. cbn [fst snd] in *.
    destruct (IH s' (issued ++ [key']) i Hinv') as (key & Hkey & Hne & Hget);
      [lia|done|].
    destruct (putAll s' arts) as [keys s''] eqn:Hall. cbn [fst snd] in *.
    by exists key.
Qed.

(** X5. Nothing stored is ever lost or replaced: after any run of fewer than
    [2^64] calls of [put] on a new store, every bundle that was stored is
    what [get] finds under the key its call returned. *)
Theorem artifactStore_keeps_bundles
    (arts : list (option responseArtifacts)) (i : nat)
    (art : responseArtifacts) :
  (N.of_nat (length arts) < 2 ^ 64)%N ->
  arts !! i = Some (Some art) ->
  exists key,
    (putAll newArtifactStore arts).1 !! i = Some key
    /\ key <> ""
    /\ get (putAll newArtifactStore arts).2 key = (Some art, true).
Proof.
  intros Hlen Hi.
  apply (putAll_lookup arts newArtifactStore [] i art storeInv_new);
    [cbn; lia|done].
Qed.

Lemma artifactStore_keeps_bundles_witness :
  (N.of_nat (length [Some emptyBundle; None; Some answerWithCode]) < 2 ^ 64)%N
  /\ [Some emptyBundle; None; Some answerWithCode] !! 2
     = Some (Some answerWithCode)
  /\ exists key,
       (putAll newArtifactStore
          [Some emptyBundle; None; Some answerWithCode]).1 !! 2 = Some key
       /\ key <> ""
       /\ get (putAll newArtifactStore
                 [Some emptyBundle; None; Some answerWithCode]).2 key
          = (Some answerWithCode, true).
Proof.
  split; [cbn; lia|]. split; [reflexivity|].
  apply (artifactStore_keeps_bundles
           [Some emptyBundle; None; Some answerWithCode] 2 answerWithCode);
    [cbn; lia|reflexivity].
Defined.

Lemma putAll_size (arts : list (option responseArtifacts))
    (s : artifactStore) (issued : list string) :
  storeInv s issued ->
  (counter s + N.of_nat (length arts) < 2 ^ 64)%N ->
  size (items (putAll s arts).2)
  = size (items s) + length (filter is_Some arts)
  /\ counter (putAll s arts).2
     = (counter s + N.of_nat (length (filter is_Some arts)))%N.
Proof.
  revert s issued.
  induction arts as [|art arts IH]; intros s issued Hinv Hlt.
  - cbn. split; lia.
  - cbn [putAll length] in *.
    destruct (storeInv_put s issued art Hinv) as [Hinv' Hcount]; [lia|].
    assert (Hstep : size (items (put s art).2)
                    = size (items s) + length (filter is_Some [art])
                    /\ counter (put s art).2
                       = (counter s
                          + N.of_nat (length (filter is_Some [art])))%N).
    { destruct art as [art|].
      - rewrite put_some by lia. cbn [snd items counter].
        rewrite filter_cons_True by (by eexists). cbn [filter length].
        rewrite filter_nil. cbn [length].
        rewrite map_size_insert_None; [split; lia|].
        apply eq_None_not_Some. intros Hsome.
        destruct Hinv as [Hdom Hkeys].
        destruct (Hdom _ Hsome) as [Hin _].
        destruct (Hkeys _ Hin) as [Hempty|(id & Hid & Heq)].
        + by apply FormatUint_nonempty in Hempty.
        + apply FormatUint_inj in Heq. lia.
      - rewrite put_nil. cbn [snd].
        rewrite filter_cons_False by (by intros [? ?]).
        rewrite filter_nil. cbn. split; lia. }
    destruct Hstep as [Hsize Hcounter].
    destruct (put s art) as [key' s'] eqn:Hput. cbn [fst snd] in *.
    destruct (IH s' (issued ++ [key']) Hinv') as [IHsize IHcounter]; [lia|].
    destruct (putAll s' arts) as [keys s''] eqn:Hall. cbn [fst snd] in *.
    rewrite IHsize, IHcounter, Hsize, Hcounter.
    change (art :: arts) with ([art] ++ arts).
    rewrite filter_app, length_app. split; lia.
Qed.

(** X6. The store counts what it holds: after any run of fewer than [2^64] calls
    of [put] on a new store, the number of bundles held and the counter both
    equal the number of calls that passed a bundle; the calls that passed
    nil added nothing. *)
Theorem artifactStore_size_is_counter
    (arts : list (option responseArtifacts)) :
  (N.of_nat (length arts) < 2 ^ 64)%N ->
  size (items (putAll newArtifactStore arts).2) = length (filter is_Some arts)
  /\ counter (putAll newArtifactStore arts).2
     = N.of_nat (length (filter is_Some arts)).
Proof.
  intros Hlen.
  destruct (putAll_size arts newArtifactStore [] storeInv_new) as [Hsize Hc];
    [cbn; lia|].
  rewrite Hsize, Hc. cbn. rewrite map_size_empty. split; lia.
Qed.

Lemma artifactStore_size_is_counter_witness :
  (N.of_nat (length [Some emptyBundle; None; Some answerWithCode]) < 2 ^ 64)%N
  /\ size (items (putAll newArtifactStore
                    [Some emptyBundle; None; Some answerWithCode]).2) = 2.
Proof.
  split; [cbn; lia|].
  apply (artifactStore_size_is_counter
           [Some emptyBundle; None; Some answerWithCode]).
  cbn; lia.
Defined.

(** ** Escaping, further *)

Lemma needsEscape_backslash : needsEscape "\"%char = true.
Proof. reflexivity. Qed.

Lemma backslashEach_unescape (s : string) : unescape (backslashEach s) = s.
Proof.
  induction s as [|c s IH]; [reflexivity|].
  cbn [backslashEach].
  destruct (needsEscape c) eqn:Hesc.
  - cbn [unescape]. rewrite Ascii.eqb_refl. by rewrite IH.
  - cbn [unescape].
    destruct (Ascii.eqb_spec c "\"%char) as [->|_].
    + by rewrite needsEscape_backslash in Hesc.
    + by rewrite IH.
Qed.

(** X7. Escaping loses nothing: the text can be read back from its escaped
    form, so two texts with the same escaped form are the same text. *)
Theorem escapeMarkdownV2_injective :
  (forall text, unescape (escapeMarkdownV2 text) = text)
  /\ (forall s t, escapeMarkdownV2 s = escapeMarkdownV2 t -> s = t).
Proof.
  assert (Hback : forall text, unescape (escapeMarkdownV2 text) = text).
  { intros text. rewrite escapeMarkdownV2_backslashEach.
    apply backslashEach_unescape. }
  split; [done|].
  intros s t Heq. by rewrite <- (Hback s), Heq, Hback.
Qed.

(** X8. Escaping works byte by byte: the escaped form of two texts put together
    is their escaped forms put together, and it is longer than the text by
    one byte for each byte that needs a backslash, so never more than twice
    as long. *)
Theorem escapeMarkdownV2_append_length (s t : string) :
  escapeMarkdownV2 (s +:+ t) = escapeMarkdownV2 s +:+ escapeMarkdownV2 t
  /\ String.length (escapeMarkdownV2 s) = String.length s + escapes s
  /\ String.length (escapeMarkdownV2 s) <= 2 * String.length s.
Proof.
  rewrite !escapeMarkdownV2_backslashEach. split; [|split].
  - induction s as [|c s IH]; [reflexivity|].
    change (String c s +:+ t) with (String c (s +:+ t)).
    cbn [backslashEach]. rewrite IH. by destruct (needsEscape c).
  - induction s as [|c s IH]; [reflexivity|].
    cbn [backslashEach escapes String.length].
    destruct (needsEscape c); cbn [String.length]; lia.
  - induction s as [|c s IH]; [cbn; lia|].
    cbn [backslashEach String.length].
    destruct (needsEscape c); cbn [String.length]; lia.
Qed.

(** X9. The escaped form is what the channel asks for: every backslash in it is
    followed by a reserved byte (or a backslash), and no reserved byte or
    backslash stands in it without a backslash before it. *)
Theorem escapeMarkdownV2_wellEscaped (text : string) :
  wellEscaped (escapeMarkdownV2 text) = true.
Proof.
  rewrite escapeMarkdownV2_backslashEach.
  induction text as [|c text IH]; [reflexivity|].
  cbn [backslashEach]. destruct (needsEscape c) eqn:Hesc.
  - cbn [wellEscaped]. rewrite Ascii.eqb_refl, Hesc. exact IH.
  - cbn [wellEscaped].
    destruct (Ascii.eqb_spec c "\"%char) as [->|_].
    + by rewrite needsEscape_backslash in Hesc.
    + by rewrite Hesc, IH.
Qed.

(** ** Blank texts *)

Lemma trimFrom_fixed (table : list string) (s : string) :
  Strings.spaceWidth table s = None -> Strings.trimFrom table 0 s = s.
Proof. destruct s as [|c s]; [done|]. cbn [Strings.trimFrom]. by intros ->. Qed.

(** A text that neither starts nor ends with a white-space rune is left as
    it is. *)
Lemma TrimSpace_fixed (s : string) :
  (forall rune, rune ∈ spaceRunes -> String.prefix rune s = false) ->
  (forall rune, rune ∈ spaceRunes ->
     String.prefix (Strings.rev rune) (Strings.rev s) = false) ->
  Strings.TrimSpace s = s.
Proof.
  intros Hfront Hend.
  unfold Strings.TrimSpace, Strings.TrimRightSpace, Strings.TrimLeftSpace.
  fold spaceRunes.
  rewrite (trimFrom_fixed spaceRunes s) by by apply spaceWidth_none.
  rewrite trimFrom_fixed; [apply rev_involutive|].
  apply spaceWidth_none.
  intros rune (rune' & -> & Hin)%list_elem_of_fmap. by apply Hend.
Qed.

Lemma TrimSpace_idempotent (s : string) :
  Strings.TrimSpace (Strings.TrimSpace s) = Strings.TrimSpace s.
Proof.
  destruct (TrimSpace_spec s) as (_ & _ & _ & _ & _ & Hfront & Hend).
  by apply TrimSpace_fixed.
Qed.

Lemma prefixes_comparable (a b x y : string) :
  a +:+ x = b +:+ y -> String.prefix a b = true \/ String.prefix b a = true.
Proof.
  revert b. induction a as [|c a IH]; intros [|c' b].
  - by left.
  - left. apply prefix_append. by exists (String c' b).
  - right. apply prefix_append. by exists (String c a).
  - change (String c a +:+ x) with (String c (a +:+ x)).
    change (String c' b +:+ y) with (String c' (b +:+ y)).
    intros [= -> Heq]. cbn [String.prefix].
    destruct (Ascii.ascii_dec c' c') as [_|Hne]; [|done].
    by apply IH.
Qed.

Lemma spaceRunes_prefix_free (a b : string) :
  a ∈ spaceRunes -> b ∈ spaceRunes -> String.prefix a b = true -> a = b.
Proof.
  assert (Hall : forallb (fun a =>
                   forallb (fun b => implb (String.prefix a b)
                                       (String.eqb a b)) spaceRunes)
                   spaceRunes = true) by (vm_compute; reflexivity).
  rewrite forallb_forall in Hall.
  intros Ha%list_elem_of_In Hb%list_elem_of_In Hprefix.
  specialize (Hall a Ha). rewrite forallb_forall in Hall.
  specialize (Hall b Hb). rewrite Hprefix in Hall.
  by apply String.eqb_eq.
Qed.

Lemma TrimLeftSpace_glue (runes : list string) :
  Forall (fun rune => rune ∈ spaceRunes) runes ->
  Strings.trimFrom spaceRunes 0 (glue runes) = "".
Proof.
  induction 1 as [|rune runes Hrune _ IH]; [reflexivity|].
  cbn [glue foldr]. fold (glue runes).
  pose proof spaceRunes_nonempty as Hnonempty.
  rewrite Forall_forall in Hnonempty.
  pose proof (Hnonempty rune Hrune) as Hne.
  destruct rune as [|c rune]; [done|].
  change (String c rune +:+ glue runes) with (String c (rune +:+ glue runes)).
  cbn [Strings.trimFrom].
  destruct (Strings.spaceWidth spaceRunes (String c (rune +:+ glue runes)))
    as [w|] eqn:Hwidth.
  - destruct (spaceWidth_some _ _ _ Hwidth) as (rune' & rest & Hin & Hs & Hw).
    change (String c (rune +:+ glue runes))
      with (String c rune +:+ glue runes) in Hs.
    assert (Heq : rune' = String c rune).
    { destruct (prefixes_comparable _ _ _ _ Hs) as [Hp|Hp].
      - symmetry. by apply spaceRunes_prefix_free.
      - by apply spaceRunes_prefix_free. }
    subst rune'. cbn [String.length] in Hw. subst w. cbn [pred].
    by rewrite trimFrom_skip.
  - rewrite spaceWidth_none in Hwidth. specialize (Hwidth _ Hrune).
    assert (String.prefix (String c rune) (String c (rune +:+ glue runes))
            = true) as Hp; [|by rewrite Hp in Hwidth].
    apply prefix_append. by exists (glue runes).
Qed.

(** [TrimSpace] gives the empty text exactly for the texts made of white
    space only. *)
Lemma TrimSpace_blank (s : string) : Strings.TrimSpace s = "" <-> allSpace s.
Proof.
  split.
  - intros Hblank.
    destruct (TrimSpace_spec s) as (lead & trail & Hlead & Htrail & Hs & _).
    rewrite Hblank in Hs. exists (lead ++ trail).
    split; [by apply Forall_app|]. by rewrite glue_app.
  - intros (runes & Hrunes & ->).
    unfold Strings.TrimSpace, Strings.TrimRightSpace, Strings.TrimLeftSpace.
    fold spaceRunes. by rewrite TrimLeftSpace_glue.
Qed.

(** X10. [Validate] accepts exactly the configurations in which neither value is
    empty or made of white space only; a blank Telegram token is the error
    reported, whatever the API key, and a blank API key is reported only
    with a token that is not blank. *)
Theorem Validate_rejects_blank (c : Config.t) :
  (Validate c = None
   <-> ~ allSpace (Config.TelegramToken c) /\ ~ allSpace (Config.GeminiAPIKey c))
  /\ (Validate c = Some "TELEGRAM_BOT_TOKEN is required"
      <-> allSpace (Config.TelegramToken c))
  /\ (Validate c = Some "GEMINI_API_KEY is required"
      <-> ~ allSpace (Config.TelegramToken c)
          /\ allSpace (Config.GeminiAPIKey c)).
Proof.
  unfold Validate. rewrite <- !TrimSpace_blank.
  destruct (String.eqb_spec (Strings.TrimSpace (Config.TelegramToken c)) "")
    as [Htoken|Htoken];
    [|destruct (String.eqb_spec (Strings.TrimSpace (Config.GeminiAPIKey c)) "")
        as [Hkey|Hkey]];
    repeat split; try done; try tauto; intros [? ?]; done.
Qed.

(** ** The parts of a message *)

Lemma partFromFile_ok (file : tele.Fetch.t) (part : genai.Part.t) :
  partFromFile file = Ok part
  <-> exists blob, fetched file blob /\ part = genai.NewPartFromBlob blob.
Proof.
  unfold fetched. destruct file as [err|err|data mime]; cbn [partFromFile].
  - split; [done|]. by intros (? & [? _] & _).
  - split; [done|]. by intros (? & [? _] & _).
  - destruct (String.eqb_spec data "") as [->|Hdata].
    + split; [done|]. intros ([d m] & [[= <- <-] Hne] & _). done.
    + split.
      * intros [= <-].
        by exists {| genai.Blob.Data := data; genai.Blob.MIMEType := mime |}.
      * intros ([d m] & [[= <- <-] _] & ->). done.
Qed.

Lemma collectMedia_ok (media : list tele.Fetch.t)
    (parts collected : list (option genai.Part.t)) :
  collectMedia parts media = Ok collected
  <-> exists blobs, Forall2 fetched media blobs
                    /\ collected = parts ++ (blobPart <$> blobs).
Proof.
  revert parts. induction media as [|file media IH]; intros parts;
    cbn [collectMedia].
  - split.
    + intros [= <-]. exists []. split; [constructor|by rewrite app_nil_r].
    + intros (blobs & Hall & ->). inversion Hall. by rewrite app_nil_r.
  - destruct (partFromFile file) as [part|err] eqn:Hfile.
    + apply partFromFile_ok in Hfile as (blob & Hblob & ->).
      rewrite IH. split.
      * intros (blobs & Hall & ->). exists (blob :: blobs).
        split; [by constructor|]. by rewrite <- app_assoc.
      * intros (blobs & Hall & ->).
        inversion Hall as [|? blob' ? blobs' Hblob' Hall']; subst.
        exists blobs'. split; [done|].
        assert (blob' = blob) as ->.
        { destruct Hblob as [Hf _], Hblob' as [Hf' _], blob, blob'.
          cbn in *. congruence. }
        by rewrite <- app_assoc.
    + split; [done|]. intros (blobs & Hall & _).
      inversion Hall as [|? blob ? ? Hblob _]; subst.
      assert (H : partFromFile file = Ok (genai.NewPartFromBlob blob)).
      { apply partFromFile_ok. by exists blob. }
      congruence.
Qed.

Lemma collectMedia_err (media : list tele.Fetch.t)
    (parts : list (option genai.Part.t)) (err : error) :
  collectMedia parts media = Err err
  <-> exists before file after,
        media = before ++ file :: after
        /\ Forall (fun f => exists part, partFromFile f = Ok part) before
        /\ partFromFile file = Err err.
Proof.
  revert parts. induction media as [|file media IH]; intros parts;
    cbn [collectMedia].
  - split; [done|]. intros (before & ? & ? & Heq & _). by destruct before.
  - destruct (partFromFile file) as [part|err'] eqn:Hfile.
    + rewrite IH. split.
      * intros (before & f & after & -> & Hbefore & Hf).
        exists (file :: before), f, after.
        split; [done|]. split; [|done]. constructor; [by exists part|done].
      * intros (before & f & after & Heq & Hbefore & Hf).
        destruct before as [|f0 before]; cbn in Heq.
        { injection Heq as <- <-. congruence. }
        injection Heq as <- ->. exists before, f, after.
        split; [done|]. split; [|done]. by inversion Hbefore.
    + split.
      * intros [= <-]. exists [], file, media. by repeat split.
      * intros (before & f & after & Heq & Hbefore & Hf).
        destruct before as [|f0 before]; cbn in Heq.
        { injection Heq as <- <-. congruence. }
        injection Heq as <- ->. inversion Hbefore as [|? ? [? Hok] _]; subst.
        congruence.
Qed.

(** X11. [collectParts] gives all the parts or none.  It fails exactly when an
    attachment cannot be fetched or arrives empty, with the error of the
    first such attachment, whatever text the message has.  Otherwise the
    parts are the text, then the caption (left out when blank or equal to
    the text), then one part for every attachment, in order, none of them
    with empty data.  There is nothing to process exactly when text and
    caption are blank and nothing is attached. *)
Theorem collectParts_all_or_nothing (msg : tele.Message.t) :
  (forall err,
      collectParts msg = Err err
      <-> exists before file after,
            tele.Message.Media msg = before ++ file :: after
            /\ Forall (fun f => exists part, partFromFile f = Ok part) before
            /\ partFromFile file = Err err)
  /\ (forall parts,
        collectParts msg = Ok parts
        <-> exists blobs,
              Forall2 fetched (tele.Message.Media msg) blobs
              /\ parts = textParts msg ++ (blobPart <$> blobs))
  /\ (collectParts msg = Ok []
      <-> allSpace (tele.Message.Text msg)
          /\ allSpace (tele.Message.Caption msg)
          /\ tele.Message.Media msg = []).
Proof.
  assert (Hunfold : collectParts msg
                    = collectMedia (textParts msg) (tele.Message.Media msg)).
  { unfold collectParts, textParts. cbv zeta. f_equal.
    destruct (String.eqb (Strings.TrimSpace (tele.Message.Text msg)) "");
      destruct (negb _ && negb _); cbn [app]; by rewrite ?app_nil_r. }
  rewrite Hunfold. split; [|split].
  - intros err. apply collectMedia_err.
  - intros parts. apply collectMedia_ok.
  - rewrite collectMedia_ok, <- !TrimSpace_blank. unfold textParts. cbv zeta.
    split.
    + intros (blobs & Hall & Heq). symmetry in Heq.
      apply app_eq_nil in Heq as [Htext Hblobs].
      apply app_eq_nil in Htext as [Htext Hcaption].
      apply fmap_nil_inv in Hblobs. subst blobs.
      apply Forall2_nil_inv_r in Hall.
      destruct (String.eqb_spec (Strings.TrimSpace (tele.Message.Text msg)) "")
        as [Ht|]; [|done].
      rewrite Ht in Hcaption.
      destruct (String.eqb_spec
                  (Strings.TrimSpace (tele.Message.Caption msg)) "")
        as [Hc|]; [done|].
      rewrite andb_diag in Hcaption. done.
    + intros (-> & -> & ->). exists []. split; [constructor|reflexivity].
Qed.

(** ** Filtering, sources and rendering, further *)

Lemma filter_keepPart_clean (parts : list (option genai.Part.t)) :
  Forall (fun part => keepPart part = true) parts ->
  filter (fun part => keepPart part = true) parts = parts.
Proof.
  induction 1 as [|part parts Hpart _ IH]; [done|].
  by rewrite filter_cons_True, IH.
Qed.

(** X12. [filterModelContent] always gives the role of the model, whatever role
    the content came with; it keeps a sublist of the parts; it leaves the
    parts of a content without nil or reasoning parts as they are; and
    filtering what it returned changes nothing. *)
Theorem filterModelContent_idempotent (content : genai.Content.t) :
  exists cleaned,
    filterModelContent (Some content) = Some cleaned
    /\ genai.Content.Role cleaned = genai.RoleModel
    /\ genai.Content.Parts cleaned `sublist_of` genai.Content.Parts content
    /\ (Forall (fun part => keepPart part = true) (genai.Content.Parts content)
        -> genai.Content.Parts cleaned = genai.Content.Parts content)
    /\ filterModelContent (Some cleaned) = Some cleaned.
Proof.
  rewrite filterModelContent_parts. eexists. split; [reflexivity|].
  cbn [genai.Content.Role genai.Content.Parts].
  split; [done|]. split; [apply sublist_filter|].
  split; [apply filter_keepPart_clean|].
  rewrite filterModelContent_parts. cbn [genai.Content.Parts].
  rewrite filter_keepPart_clean; [done|].
  apply Forall_forall. by intros part [Hkeep _]%list_elem_of_filter.
Qed.

Lemma foldl_remember_seen (acc : sourceAcc) (entries : list sourceRef)
    (uri : string) :
  uri ∈ (foldl remember acc entries).1
  <-> uri ∈ acc.1 \/ uri ∈ URI <$> firstOccurrences acc.1 entries.
Proof.
  revert acc. induction entries as [|entry entries IH]; intros acc;
    cbn [foldl firstOccurrences].
  - cbn. split; [by left|]. intros [?|H]; [done|inversion H].
  - rewrite IH. unfold remember.
    destruct (String.eqb (URI entry) "" || bool_decide (URI entry ∈ acc.1));
      [done|].
    cbn [fst snd fmap list_fmap].
    rewrite elem_of_union, elem_of_singleton, elem_of_cons. tauto.
Qed.

Lemma firstOccurrences_app (seen : gset string) (l k : list sourceRef) :
  firstOccurrences seen (l ++ k)
  = firstOccurrences seen l
    ++ firstOccurrences (foldl remember (seen, []) l).1 k.
Proof.
  pose proof (foldl_remember (seen, []) (l ++ k)) as Hall.
  rewrite foldl_app, foldl_remember in Hall.
  cbn [fst snd app] in Hall. symmetry. by rewrite foldl_remember in Hall.
Qed.

Lemma discovered_tidy (cand : genai.Candidate.t) (src : sourceRef) :
  src ∈ discovered cand -> URI src <> "" -> tidy src.
Proof.
  unfold discovered. rewrite elem_of_app, !list_elem_of_omap.
  intros [([citation|] & _ & Hsrc)|([[[web|]]|] & _ & Hsrc)] Huri;
    cbn in Hsrc; try done; injection Hsrc as <-;
    (split; [done|]); cbn [URI Title]; by rewrite !TrimSpace_idempotent.
Qed.

Lemma firstOccurrences_fixed (seen : gset string) (l : list sourceRef) :
  NoDup (URI <$> l) ->
  Forall (fun src => URI src <> "" /\ URI src ∉ seen) l ->
  firstOccurrences seen l = l.
Proof.
  revert seen. induction l as [|src l IH]; intros seen Hnodup Hall; [done|].
  cbn [fmap list_fmap] in Hnodup.
  apply NoDup_cons in Hnodup as [Hnotin Hnodup].
  apply Forall_cons in Hall as [[Hne Hseen] Hall].
  cbn [firstOccurrences].
  rewrite <- String.eqb_neq in Hne. rewrite Hne.
  rewrite bool_decide_eq_false_2 by done. cbn [orb].
  f_equal. apply IH; [done|].
  rewrite Forall_forall in Hall. apply Forall_forall.
  intros src' Hin. destruct (Hall src' Hin) as [Hne' Hseen'].
  split; [done|]. rewrite not_elem_of_union, not_elem_of_singleton.
  split; [|done]. intros Heq. apply Hnotin. rewrite <- Heq.
  by apply list_elem_of_fmap_2.
Qed.

Lemma asCitation_back (l : list sourceRef) :
  Forall tidy l -> omap citationEntry (asCitation <$> l) = l.
Proof.
  induction 1 as [|src l (_ & Huri & Htitle) _ IH]; [done|].
  cbn [fmap list_fmap omap list_omap]. rewrite IH.
  unfold asCitation, citation, citationEntry.
  cbn [mbind option_bind genai.Citation.Title genai.Citation.URI].
  rewrite Huri, Htitle. by destruct src.
Qed.

Lemma collectSources_tidy (cand : genai.Candidate.t) :
  Forall tidy (collectSources (Some cand)).
Proof.
  rewrite collectSources_firstOccurrences.
  apply Forall_forall. intros src Hsrc.
  pose proof (list_elem_of_fmap_2 URI _ _ Hsrc) as Huri.
  apply firstOccurrences_elem in Huri as (Hne & _ & _).
  apply (discovered_tidy cand); [|done].
  eapply elem_of_sublist; [done|apply firstOccurrences_sublist].
Qed.

(** X13. Every collected source has a trimmed title and a trimmed URI that is not
    empty.  The sources of the citations alone are a prefix of the collected
    list, and what follows them has other URIs.  Collecting again from the
    collected sources, taken as citations, gives the same list. *)
Theorem collectSources_tidy_and_stable (cand : genai.Candidate.t) :
  let sources := collectSources (Some cand) in
  Forall tidy sources
  /\ (exists more,
        sources = collectSources (Some (citationsOnly cand)) ++ more
        /\ forall src, src ∈ more ->
             URI src ∉ URI <$> collectSources (Some (citationsOnly cand)))
  /\ collectSources (Some (candidateWith (asCitation <$> sources) []))
     = sources.
Proof.
  cbv zeta. rewrite !collectSources_firstOccurrences.
  assert (Htidy : Forall tidy (firstOccurrences ∅ (discovered cand))).
  { rewrite <- collectSources_firstOccurrences. apply collectSources_tidy. }
  split; [done|]. split.
  - unfold discovered at 1. rewrite firstOccurrences_app.
    assert (Honly : discovered (citationsOnly cand)
                    = omap citationEntry (citationsOf cand)).
    { unfold discovered, citationsOf, chunksOfCandidate. cbn.
      by rewrite app_nil_r. }
    rewrite Honly. eexists. split; [reflexivity|].
    intros src Hsrc Hin.
    apply (list_elem_of_fmap_2 URI) in Hsrc.
    apply firstOccurrences_elem in Hsrc as (_ & Hseen & _).
    apply Hseen, foldl_remember_seen. by right.
  - assert (Hsame : discovered
                      (candidateWith
                         (asCitation <$> firstOccurrences ∅ (discovered cand))
                         [])
                    = firstOccurrences ∅ (discovered cand)).
    { unfold discovered, citationsOf, chunksOfCandidate. cbn.
      rewrite app_nil_r. by apply asCitation_back. }
    rewrite Hsame. apply firstOccurrences_fixed.
    + apply firstOccurrences_NoDup.
    + rewrite Forall_forall in Htidy. apply Forall_forall.
      intros src Hsrc. split; [apply (Htidy src Hsrc)|].
      apply not_elem_of_empty.
Qed.

Lemma nonBlank_clean (s t : string) :
  nonBlank s = Some t -> t <> "" /\ Strings.TrimSpace t = t.
Proof.
  unfold nonBlank.
  destruct (String.eqb_spec (Strings.TrimSpace s) "") as [|Hne]; [done|].
  intros [= <-]. split; [done|apply TrimSpace_idempotent].
Qed.

(** X14. Whatever the response, the reply [renderResponse] returns neither starts
    nor ends with white space, every thought fragment of the bundle is
    trimmed and not empty, its sources are tidy, and there are no more
    snippets and thoughts than parts.  A response whose parts are all nil or
    marked as reasoning gives the empty reply and no snippet. *)
Theorem renderResponse_output_clean
    (resp : option genai.GenerateContentResponse.t) :
  let reply := (renderResponse resp).1 in
  let art := (renderResponse resp).2 in
  (forall rune, rune ∈ spaceRunes ->
     String.prefix rune reply = false
     /\ String.prefix (Strings.rev rune) (Strings.rev reply) = false)
  /\ Forall (fun thought => thought <> ""
                            /\ Strings.TrimSpace thought = thought)
            (Thoughts art)
  /\ Forall tidy (Sources art)
  /\ length (Thoughts art) + length (CodeSnippets art) <= length (partsOf resp)
  /\ (Forall (fun part => keepPart part = false) (partsOf resp) ->
      reply = "" /\ CodeSnippets art = []).
Proof.
  cbv zeta. unfold renderResponse, partsOf. cbv zeta.
  assert (Hempty : forall rune, rune ∈ spaceRunes ->
            String.prefix rune "" = false
            /\ String.prefix (Strings.rev rune) (Strings.rev "") = false).
  { intros rune Hrune. pose proof spaceRunes_nonempty as Hne.
    rewrite Forall_forall in Hne. specialize (Hne rune Hrune).
    destruct rune as [|c rune]; [done|]. split; [done|].
    cbn [Strings.rev].
    destruct (Strings.rev rune +:+ String c "") eqn:Heq; [|done].
    apply (f_equal String.length) in Heq. rewrite length_append in Heq.
    cbn in Heq. lia. }
  destruct (firstCandidate resp) as [cand|];
    [|cbn [fst snd Thoughts Sources CodeSnippets length]; split;
       [exact Hempty|repeat split; auto using Forall_nil with lia]].
  destruct (genai.Candidate.Content cand) as [content|];
    [|cbn [fst snd Thoughts Sources CodeSnippets length]; split;
       [exact Hempty|repeat split; auto using Forall_nil with lia]].
  rewrite foldl_renderPart.
  cbn [fst snd mainParts thoughtParts codeSnippets app
       Thoughts Sources CodeSnippets].
  set (parts := genai.Content.Parts content).
  split; [|split; [|split; [|split]]].
  - intros rune Hrune.
    destruct (TrimSpace_spec
                (Strings.Join (concat (segmentsOf <$> parts))
                   (Strings.newline +:+ Strings.newline)))
      as (_ & _ & _ & _ & _ & Hfront & Hend).
    split; [by apply Hfront|by apply Hend].
  - apply Forall_forall. intros thought Hthought.
    apply list_elem_of_omap in Hthought as ([part|] & _ & Hpart); [|done].
    cbn in Hpart. destruct (genai.Part.Thought part); [|done].
    by apply nonBlank_clean in Hpart.
  - pose proof (collectSources_tidy cand). done.
  - clearbody parts. induction parts as [|part parts IH]; [cbn; lia|].
    cbn [omap list_omap length].
    destruct part as [part|]; cbn [thoughtOf snippetOf mbind option_bind];
      [|cbn [length]; lia].
    destruct (genai.Part.Thought part).
    + destruct (nonBlank _); cbn [length]; lia.
    + destruct (genai.Part.ExecutableCode part);
        cbn [fmap option_fmap option_map length]; lia.
  - intros Hall. clearbody parts.
    assert (Hnone : concat (segmentsOf <$> parts) = []
                    /\ omap snippetOf parts = []).
    { induction Hall as [|part parts Hpart _ [IH1 IH2]]; [done|].
      cbn [fmap list_fmap concat omap list_omap].
      destruct part as [part|]; cbn in Hpart |- *; [|done].
      apply negb_false_iff in Hpart. rewrite Hpart. done. }
    destruct Hnone as [-> ->]. done.
Qed.

(** [strings.Contains] finds a text exactly in the texts that hold it
    somewhere. *)
Lemma Contains_spec (s substr : string) :
  Strings.Contains s substr = true
  <-> exists pre post, s = pre +:+ substr +:+ post.
Proof.
  induction s as [|c s IH].
  - cbn [Strings.Contains]. rewrite orb_false_r, prefix_append. split.
    + intros (rest & Heq). by exists "", rest.
    + intros (pre & post & Heq). destruct pre; [by exists post|done].
  - cbn [Strings.Contains]. rewrite orb_true_iff, prefix_append, IH. split.
    + intros [(rest & Heq)|(pre & post & Heq)].
      * by exists "", rest.
      * exists (String c pre), post. by rewrite Heq.
    + intros ([|c' pre] & post & Heq).
      * left. by exists post.
      * right. exists pre, post.
        change (String c' pre +:+ substr +:+ post)
          with (String c' (pre +:+ substr +:+ post)) in Heq.
        by injection Heq.
Qed.

(** ** Code in fences, and sending with a fallback *)

Lemma ReplaceAll_cons (c old : ascii) (new rest : string) :
  ReplaceAll (String c rest) old new
  = (if Ascii.eqb old c then new else String c "") +:+ ReplaceAll rest old new.
Proof.
  unfold ReplaceAll. cbn [Replacer.Replace]. unfold Replacer.lookup.
  cbn [find fst snd]. by destruct (Ascii.eqb old c).
Qed.

Lemma ReplaceAll_append (s t : string) (old : ascii) (new : string) :
  ReplaceAll (s +:+ t) old new = ReplaceAll s old new +:+ ReplaceAll t old new.
Proof.
  induction s as [|c s IH]; [reflexivity|].
  change (String c s +:+ t) with (String c (s +:+ t)).
  by rewrite !ReplaceAll_cons, IH, append_assoc.
Qed.

(** The two passes of [escapeCode] amount to one pass over the bytes. *)
Lemma escapeCode_codeBytes (text : string) : escapeCode text = codeBytes text.
Proof.
  unfold escapeCode. cbv zeta.
  induction text as [|c text IH]; [reflexivity|].
  rewrite ReplaceAll_cons, ReplaceAll_append, IH. cbn [codeBytes].
  f_equal. unfold codeByte.
  destruct (Ascii.eqb_spec "\"%char c) as [<-|Hslash]; [reflexivity|].
  destruct (Ascii.eqb_spec c "\"%char) as [->|_]; [done|].
  rewrite ReplaceAll_cons. unfold ReplaceAll. cbn [Replacer.Replace].
  rewrite append_nil_r, (Ascii.eqb_sym "`"%char c).
  reflexivity.
Qed.

Lemma codeBytes_no_fence (text : string) :
  Strings.Contains (codeBytes text) "``" = false
  /\ String.prefix "`" (codeBytes text) = false.
Proof.
  induction text as [|c text [IH1 IH2]]; [done|].
  cbn [codeBytes]. unfold codeByte.
  destruct (Ascii.eqb_spec c "\"%char) as [->|Hslash].
  - change ("\\" +:+ codeBytes text)
      with (String "\"%char (String "\"%char (codeBytes text))).
    cbn [Strings.Contains String.prefix]. cbn. by rewrite IH1.
  - destruct (Ascii.eqb_spec c "`"%char) as [->|Htick].
    + change ("\`" +:+ codeBytes text)
        with (String "\"%char (String "`"%char (codeBytes text))).
      cbn [Strings.Contains]. cbn [String.prefix].
      cbn. cbn in IH2. by rewrite IH1, IH2.
    + change (String c "" +:+ codeBytes text)
        with (String c (codeBytes text)).
      cbn [Strings.Contains String.prefix]. rewrite IH1.
      destruct (ascii_dec "`"%char c) as [<-|_]; [done|]. done.
Qed.

Lemma codeBytes_unescape (text : string) : unescape (codeBytes text) = text.
Proof.
  induction text as [|c text IH]; [reflexivity|].
  cbn [codeBytes]. unfold codeByte.
  destruct (Ascii.eqb_spec c "\"%char) as [->|Hslash].
  - change ("\\" +:+ codeBytes text)
      with (String "\"%char (String "\"%char (codeBytes text))).
    cbn [unescape]. by rewrite Ascii.eqb_refl, IH.
  - destruct (Ascii.eqb_spec c "`"%char) as [->|Htick].
    + change ("\`" +:+ codeBytes text)
        with (String "\"%char (String "`"%char (codeBytes text))).
      cbn [unescape]. by rewrite Ascii.eqb_refl, IH.
    + change (String c "" +:+ codeBytes text)
        with (String c (codeBytes text)).
      cbn [unescape].
      destruct (Ascii.eqb_spec c "\"%char) as [|_]; [done|]. by rewrite IH.
Qed.

(** X15. Code escaped for a fence cannot close the fence: the escaped text never
    holds two backticks in a row, nor does it start with one.  Nothing is
    lost: the code can be read back from the escaped text, so different
    codes stay different. *)
Theorem escapeCode_keeps_fence_open :
  (forall text,
      Strings.Contains (escapeCode text) "``" = false
      /\ Strings.Contains (escapeCode text) "```" = false
      /\ String.prefix "`" (escapeCode text) = false)
  /\ (forall text, unescape (escapeCode text) = text)
  /\ (forall s t, escapeCode s = escapeCode t -> s = t).
Proof.
  assert (Hback : forall text, unescape (escapeCode text) = text).
  { intros text. rewrite escapeCode_codeBytes. apply codeBytes_unescape. }
  split; [|split; [done|]].
  - intros text. rewrite escapeCode_codeBytes.
    destruct (codeBytes_no_fence text) as [Htwo Hstart].
    split; [done|]. split; [|done].
    destruct (Strings.Contains (codeBytes text) "```") eqn:Hthree; [|done].
    rewrite <- Htwo. symmetry.
    apply Contains_spec in Hthree as (pre & post & Heq).
    apply Contains_spec. exists pre, ("`" +:+ post).
    by rewrite Heq.
  - intros s t Heq. by rewrite <- (Hback s), Heq, Hback.
Qed.

(** X16. A channel error counts as a parse error exactly when its message holds
    one of the two phrases, in this spelling; no error is no parse error. *)
Theorem isParseError_spec (err : option error) :
  isParseError err = true
  <-> exists msg pre post,
        err = Some msg
        /\ (msg = pre +:+ "can't parse entities" +:+ post
            \/ msg = pre +:+ "can't parse message" +:+ post).
Proof.
  destruct err as [msg|]; cbn [isParseError].
  - rewrite orb_true_iff, !Contains_spec. split.
    + intros [(pre & post & Heq)|(pre & post & Heq)];
        exists msg, pre, post; auto.
    + intros (? & pre & post & [= <-] & [Heq|Heq]); [left|right];
        by exists pre, post.
  - split; [done|]. by intros (? & ? & ? & ? & _).
Qed.

Lemma Send_spec (recipient : Z) (text : string) (opts : tele.SendOptions.t)
    (b : tele.Bot.t) :
  tele.Send recipient text opts b
  = (nextAnswer b, logged (afterAnswer b) [sent recipient text opts]).
Proof.
  unfold tele.Send, nextAnswer, logged, afterAnswer, sent.
  by destruct (tele.Bot.answers b).
Qed.

Lemma sendWithFallback_outcome (b : tele.Bot.t) (recipient : Z)
    (text : string) (opts : tele.SendOptions.t) :
  sendWithFallback b recipient text opts
  = if isParseError (nextAnswer b)
    then (nextAnswer (afterAnswer b),
          logged (afterAnswer (afterAnswer b))
            [sent recipient text (firstOptions opts);
             sent recipient (escapeMarkdownV2 text)
               (withParseMode opts tele.ModeMarkdownV2)])
    else (nextAnswer b,
          logged (afterAnswer b) [sent recipient text (firstOptions opts)]).
Proof.
  unfold sendWithFallback. cbv zeta. fold (firstOptions opts).
  rewrite Send_spec.
  destruct (isParseError (nextAnswer b)); cbn [negb]; [|done].
  rewrite Send_spec. f_equal.
  unfold logged, afterAnswer. cbn [tele.Bot.calls tele.Bot.answers].
  by rewrite <- app_assoc.
Qed.

(** X17. [sendWithFallback] sends the text as it is, in the parse mode of the
    options, or in MarkdownV2 when they name none.  It sends a second time
    only when the channel answers the first call with a parse error: then
    the text goes out escaped, in MarkdownV2, with the same keyboard and
    preview setting, and the error returned is that of the second call.
    There is no third call. *)
Theorem sendWithFallback_retries_once (b : tele.Bot.t) (recipient : Z)
    (text : string) (opts : tele.SendOptions.t) :
  let first := sent recipient text (firstOptions opts) in
  let second :=
    sent recipient (escapeMarkdownV2 text)
      (withParseMode opts tele.ModeMarkdownV2) in
  sendWithFallback b recipient text opts
  = if isParseError (nextAnswer b)
    then (nextAnswer (afterAnswer b),
          logged (afterAnswer (afterAnswer b)) [first; second])
    else (nextAnswer b, logged (afterAnswer b) [first]).
Proof.
  cbv zeta. apply sendWithFallback_outcome.
Qed.

(** Every call [sendWithFallback] adds goes to the recipient and carries the
    keyboard of the options. *)
Lemma sendWithFallback_added (b : tele.Bot.t) (recipient : Z) (text : string)
    (opts : tele.SendOptions.t) :
  exists new,
    tele.Bot.calls (sendWithFallback b recipient text opts).2
    = tele.Bot.calls b ++ new
    /\ Forall (fun call =>
                 tele.Sent.To call = recipient
                 /\ tele.SendOptions.ReplyMarkup (tele.Sent.Options call)
                    = tele.SendOptions.ReplyMarkup opts) new.
Proof.
  rewrite sendWithFallback_outcome.
  assert (Hfirst : tele.SendOptions.ReplyMarkup (firstOptions opts)
                   = tele.SendOptions.ReplyMarkup opts).
  { unfold firstOptions. by destruct (String.eqb _ _). }
  destruct (isParseError (nextAnswer b)); eexists; (split; [reflexivity|]);
    repeat constructor; done.
Qed.

(** ** The ways out of the message handler *)

Lemma sessionManager_set_get (m : sessionManager) (chat : Z) :
  sessionManager_set (sessionManager_get m chat).2 chat
    (sessionManager_get m chat).1
  = (sessionManager_get m chat).2.
Proof.
  unfold sessionManager_get, sessionManager_set.
  destruct (sessions m !! chat) as [session|] eqn:Hchat;
    cbn [fst snd sessions defaultMode].
  - rewrite insert_id by done. by destruct m.
  - by rewrite insert_insert_eq.
Qed.

(** X18. When an attachment of a message cannot be collected, the handler returns
    the error of the attachment, whatever the channel answers to the notice
    it sends.  The completion service is not asked, nothing is stored, and
    the session table changes only in that the chat now has a session. *)
Theorem failed_attachment_is_reported (a : App.t) (msg : tele.Message.t)
    (err : error) :
  collectParts msg = Err err ->
  let chat := tele.Message.ChatID msg in
  let notice :=
    sendWithFallback (App.bot a) chat "I could not process that input."
      plainOptions in
  handleUserMessage a (Some msg)
  = (Some err,
     {| App.bot := notice.2;
        App.client := App.client a;
        App.sessions := (sessionManager_get (App.sessions a) chat).2;
        App.artifacts := App.artifacts a |}).
Proof.
  intros Hparts chat notice. unfold handleUserMessage. fold chat.
  pose proof (sessionManager_set_get (App.sessions a) chat) as Hset.
  destruct (sessionManager_get (App.sessions a) chat) as [session manager].
  cbn [fst snd] in *. rewrite Hparts. fold notice.
  destruct notice as [sendErr b]. cbn [snd]. by rewrite Hset.
Qed.

Lemma failed_attachment_is_reported_witness :
  (handleUserMessage (New (fun _ _ => Ok plainAnswer)) (Some brokenPhoto)).1
  = Some "get file: timeout".
Proof.
  exact (f_equal fst
           (failed_attachment_is_reported (New (fun _ _ => Ok plainAnswer))
              brokenPhoto "get file: timeout" eq_refl)).
Defined.

(** X19. A message whose text and caption trim to nothing and which has no attachment
    is answered by a request for input; the error returned is that of the
    send.  The completion service is not asked, nothing is stored, and the
    session table changes only in that the chat now has a session. *)
Theorem blank_message_asks_for_input (a : App.t) (msg : tele.Message.t) :
  Strings.TrimSpace (tele.Message.Text msg) = "" ->
  Strings.TrimSpace (tele.Message.Caption msg) = "" ->
  tele.Message.Media msg = [] ->
  let chat := tele.Message.ChatID msg in
  let notice :=
    sendWithFallback (App.bot a) chat "Please send text or supported media."
      plainOptions in
  handleUserMessage a (Some msg)
  = (notice.1,
     {| App.bot := notice.2;
        App.client := App.client a;
        App.sessions := (sessionManager_get (App.sessions a) chat).2;
        App.artifacts := App.artifacts a |}).
Proof.
  intros Htext Hcaption Hmedia chat notice.
  assert (Hparts : collectParts msg = Ok []).
  { unfold collectParts. cbv zeta. by rewrite Htext, Hcaption, Hmedia. }
  unfold handleUserMessage. fold chat.
  pose proof (sessionManager_set_get (App.sessions a) chat) as Hset.
  destruct (sessionManager_get (App.sessions a) chat) as [session manager].
  cbn [fst snd] in *. rewrite Hparts. fold notice.
  destruct notice as [sendErr b]. cbn [fst snd]. by rewrite Hset.
Qed.

Lemma blank_message_asks_for_input_witness :
  (handleUserMessage (New (fun _ _ => Ok plainAnswer)) (Some blankMessage)).1
  = None.
Proof.
  exact (f_equal fst
           (blank_message_asks_for_input (New (fun _ _ => Ok plainAnswer))
              blankMessage eq_refl eq_refl eq_refl)).
Defined.

(** X20. When the completion service fails, the handler returns the error of the
    service, whatever the channel answers to the notice it sends.  Nothing
    is stored; the session of the chat keeps its history and holds the mode
    the request was made with; the other sessions are untouched. *)
Theorem failed_request_keeps_history (a : App.t) (msg : tele.Message.t)
    (parts : list (option genai.Part.t)) (err : error) :
  let chat := tele.Message.ChatID msg in
  let session := (sessionManager_get (App.sessions a) chat).1 in
  let read := currentThinking session in
  collectParts msg = Ok parts ->
  parts <> [] ->
  App.client a
    (conversationWith session
       (genai.NewContentFromParts parts genai.RoleUser))
    (buildGenerateConfig read.1) = Err err ->
  let notice :=
    sendWithFallback (App.bot a) chat "Eteon could not complete that request."
      plainOptions in
  let after := handleUserMessage a (Some msg) in
  after.1 = Some err
  /\ App.bot after.2 = notice.2
  /\ App.artifacts after.2 = App.artifacts a
  /\ (exists session',
        sessions (App.sessions after.2) !! chat = Some session'
        /\ history session' = history session
        /\ thinking session' = read.1)
  /\ (forall other, other <> chat ->
        sessions (App.sessions after.2) !! other
        = sessions (App.sessions a) !! other).
Proof.
  intros chat session read Hparts Hne Hclient notice after.
  destruct (sessionManager_get_spec (App.sessions a) chat)
    as (_ & Hother & _).
  assert (Hafter : after
            = (Some err,
               {| App.bot := notice.2;
                  App.client := App.client a;
                  App.sessions :=
                    sessionManager_set
                      (sessionManager_get (App.sessions a) chat).2 chat read.2;
                  App.artifacts := App.artifacts a |})).
  { unfold after, handleUserMessage. fold chat.
    unfold notice, read, session in *.
    destruct (sessionManager_get (App.sessions a) chat) as [found manager].
    cbn [fst snd] in *. rewrite Hparts.
    destruct parts as [|part parts]; [done|].
    destruct (currentThinking found) as [mode found'].
    cbn [fst snd] in *. rewrite Hclient.
    by destruct (sendWithFallback _ _ _ _). }
  rewrite Hafter. cbn [fst snd App.sessions App.artifacts App.bot].
  destruct (sessionManager_set_spec
              (sessionManager_get (App.sessions a) chat).2 chat read.2)
    as [Hset Hset_other].
  split; [done|]. split; [done|]. split; [done|]. split.
  - exists read.2. split; [done|]. unfold read, currentThinking.
    by destruct (String.eqb (thinking session) "").
  - intros other Hneq. rewrite Hset_other by done. by apply Hother.
Qed.

Lemma failed_request_keeps_history_witness :
  collectParts question = Ok [textPart "2+2?"]
  /\ (handleUserMessage (New (fun _ _ => Err "quota exceeded"))
        (Some question)).1 = Some "quota exceeded".
Proof.
  split; [reflexivity|].
  refine (proj1
    (failed_request_keeps_history (New (fun _ _ => Err "quota exceeded"))
       question [textPart "2+2?"] "quota exceeded" eq_refl _ eq_refl)).
  discriminate.
Defined.

(** Every button of the keyboard under a reply carries the key it was built
    for and one of the three callbacks, and the keyboard has a button. *)
Lemma buildResponseMarkup_buttons (id : string) (art : responseArtifacts) :
  id <> "" ->
  exists markup,
    buildResponseMarkup id (Some art) = Some markup
    /\ tele.ReplyMarkup.InlineKeyboard markup <> []
    /\ forall row btn,
         row ∈ tele.ReplyMarkup.InlineKeyboard markup -> btn ∈ row ->
         tele.Btn.Data btn = id /\ tele.Btn.Unique btn ∈ showUniques.
Proof.
  intros Hid. unfold buildResponseMarkup, buildResponseMarkupWith.
  apply String.eqb_neq in Hid. rewrite Hid. cbv zeta.
  eexists. split; [reflexivity|].
  unfold showUniques, tele.Inline, tele.Data.
  destruct (0 <? length (Sources art)), (0 <? length (CodeSnippets art));
    cbn [tele.ReplyMarkup.InlineKeyboard Strings.Join];
    (split; [done|]);
    intros row btn Hrow%list_elem_of_singleton Hbtn; subst row;
    apply list_elem_of_singleton in Hbtn; subst btn;
    cbn [tele.Btn.Data tele.Btn.Unique]; (split; [done|]); set_solver.
Qed.

(** The way out of the handler when the service answered and the answer is
    not blocked. *)
Lemma handleUserMessage_answered (a : App.t) (msg : tele.Message.t)
    (parts : list (option genai.Part.t))
    (resp : genai.GenerateContentResponse.t) :
  let chat := tele.Message.ChatID msg in
  let session := (sessionManager_get (App.sessions a) chat).1 in
  collectParts msg = Ok parts ->
  parts <> [] ->
  App.client a
    (conversationWith session
       (genai.NewContentFromParts parts genai.RoleUser))
    (buildGenerateConfig (currentThinking session).1) = Ok resp ->
  blocked resp = false ->
  let rendered := renderResponse (Some resp) in
  let key := FormatUint (uint64_succ (counter (App.artifacts a))) in
  let reply :=
    if String.eqb rendered.1 "" then "No content received."
    else rendered.1 in
  let after := handleUserMessage a (Some msg) in
  (after.1, App.bot after.2, App.artifacts after.2)
  = (sendWithFallback (App.bot a) chat reply
       {| tele.SendOptions.ReplyMarkup :=
            buildResponseMarkup key (Some rendered.2);
          tele.SendOptions.DisableWebPagePreview := true;
          tele.SendOptions.ParseMode := "" |},
     (put (App.artifacts a) (Some rendered.2)).2).
Proof.
  intros chat session Hparts Hne Hclient Hblocked rendered key reply after.
  assert (Hkey : key <> "") by apply FormatUint_nonempty.
  unfold after, handleUserMessage. fold chat.
  unfold reply, rendered, session in *.
  destruct (sessionManager_get (App.sessions a) chat) as [found manager].
  cbn [fst snd] in *. rewrite Hparts.
  destruct parts as [|part parts]; [done|].
  destruct (currentThinking found) as [mode found'].
  cbn [fst snd] in *. rewrite Hclient, Hblocked.
  destruct (renderResponse (Some resp)) as [text bundle].
  cbn [fst snd put] in *. fold key.
  apply String.eqb_neq in Hkey. rewrite Hkey.
  by destruct (sendWithFallback _ _ _ _).
Qed.

(** X21. When the completion service answers and the answer is not blocked, the
    handler stores the bundle rendered from the answer under the next key
    of the store, which is not empty, and leaves what the store holds under
    every other key.  It sends the rendered text, or a fixed line when
    there is none, so the text sent is never empty; the keyboard under it
    has a button, and every button of it carries the key of the bundle.
    The error returned is that of the send. *)
Theorem answered_message_stores_bundle (a : App.t) (msg : tele.Message.t)
    (parts : list (option genai.Part.t))
    (resp : genai.GenerateContentResponse.t) :
  let chat := tele.Message.ChatID msg in
  let session := (sessionManager_get (App.sessions a) chat).1 in
  collectParts msg = Ok parts ->
  parts <> [] ->
  App.client a
    (conversationWith session
       (genai.NewContentFromParts parts genai.RoleUser))
    (buildGenerateConfig (currentThinking session).1) = Ok resp ->
  blocked resp = false ->
  let rendered := renderResponse (Some resp) in
  let key := FormatUint (uint64_succ (counter (App.artifacts a))) in
  let reply :=
    if String.eqb rendered.1 "" then "No content received."
    else rendered.1 in
  let after := handleUserMessage a (Some msg) in
  key <> "" /\ reply <> ""
  /\ get (App.artifacts after.2) key = (Some rendered.2, true)
  /\ (forall other, other <> key ->
        get (App.artifacts after.2) other = get (App.artifacts a) other)
  /\ counter (App.artifacts after.2) = uint64_succ (counter (App.artifacts a))
  /\ exists markup,
       (after.1, App.bot after.2)
       = sendWithFallback (App.bot a) chat reply
           {| tele.SendOptions.ReplyMarkup := Some markup;
              tele.SendOptions.DisableWebPagePreview := true;
              tele.SendOptions.ParseMode := "" |}
       /\ tele.ReplyMarkup.InlineKeyboard markup <> []
       /\ forall row btn,
            row ∈ tele.ReplyMarkup.InlineKeyboard markup -> btn ∈ row ->
            tele.Btn.Data btn = key /\ tele.Btn.Unique btn ∈ showUniques.
Proof.
  intros chat session Hparts Hne Hclient Hblocked rendered key reply after.
  assert (Hkey : key <> "") by apply FormatUint_nonempty.
  destruct (buildResponseMarkup_buttons key rendered.2 Hkey)
    as (markup & Hmarkup & Hrows & Hbuttons).
  pose proof (handleUserMessage_answered a msg parts resp
                Hparts Hne Hclient Hblocked) as Hafter.
  cbv zeta in Hafter. fold chat rendered key reply after in Hafter.
  rewrite Hmarkup in Hafter. cbn [put snd] in Hafter. fold key in Hafter.
  injection Hafter as Hsend Hstore.
  split; [done|]. split.
  { unfold reply. by destruct (String.eqb_spec rendered.1 ""). }
  rewrite Hstore. unfold get. cbn [items counter].
  split; [by rewrite lookup_insert_eq|].
  split; [by intros other Hother; rewrite lookup_insert_ne|].
  split; [done|].
  by exists markup.
Qed.

Lemma answered_message_stores_bundle_witness :
  collectParts question = Ok [textPart "2+2?"]
  /\ blocked plainAnswer = false
  /\ get (App.artifacts
            (handleUserMessage (New (fun _ _ => Ok plainAnswer))
               (Some question)).2) "1"
     = (Some (renderResponse (Some plainAnswer)).2, true).
Proof.
  split; [reflexivity|]. split; [reflexivity|].
  refine (proj1 (proj2 (proj2
    (answered_message_stores_bundle (New (fun _ _ => Ok plainAnswer))
       question [textPart "2+2?"] plainAnswer eq_refl _ eq_refl eq_refl)))).
  discriminate.
Defined.

(** ** Settings and mode selection *)

(** X22. The settings message names the mode the chat is in (medium when the
    session stores none), above a keyboard whose buttons all call the mode
    selection with a mode of the enumeration as payload.  The history of
    the chat, the other sessions and the artifact store are left alone. *)
Theorem settings_shows_current_mode (a : App.t) (chat : Z) :
  let session := (sessionManager_get (App.sessions a) chat).1 in
  let read := currentThinking session in
  let shown := handleSettings a chat in
  (exists menu,
      (shown.1, App.bot shown.2)
      = sendWithFallback (App.bot a) chat
          ("Current thinking budget: " +:+ label read.1)
          {| tele.SendOptions.ReplyMarkup := Some menu;
             tele.SendOptions.DisableWebPagePreview := true;
             tele.SendOptions.ParseMode := "" |}
      /\ tele.ReplyMarkup.InlineKeyboard menu <> []
      /\ forall row btn,
           row ∈ tele.ReplyMarkup.InlineKeyboard menu -> btn ∈ row ->
           tele.Btn.Unique btn = selectThinkingModeUnique
           /\ tele.Btn.Data btn ∈ thinkingModes)
  /\ (exists session',
        sessions (App.sessions shown.2) !! chat = Some session'
        /\ history session' = history session
        /\ thinking session' = read.1)
  /\ (forall other, other <> chat ->
        sessions (App.sessions shown.2) !! other
        = sessions (App.sessions a) !! other)
  /\ App.artifacts shown.2 = App.artifacts a.
Proof.
  intros session read shown.
  destruct (sessionManager_get_spec (App.sessions a) chat)
    as (_ & Hother & _).
  destruct (handleSettings_sessions a chat) as [Hsessions _].
  cbv zeta in Hsessions. fold shown session read in Hsessions.
  destruct (sessionManager_set_spec
              (sessionManager_get (App.sessions a) chat).2 chat read.2)
    as [Hset Hset_other].
  split; [|split; [|split]].
  - unfold shown, handleSettings, read, session.
    destruct (sessionManager_get (App.sessions a) chat) as [found manager].
    cbn [fst snd]. destruct (currentThinking found) as [mode found'].
    cbv zeta. cbn [fst snd]. unfold tele.Inline.
    exists {| tele.ReplyMarkup.InlineKeyboard :=
                [[tele.Data "Dynamic reasoning" selectThinkingModeUnique
                    [thinkingModeDynamic]]] |}.
    split.
    { by destruct (sendWithFallback _ _ _ _). }
    unfold tele.Data, thinkingModes.
    cbn [tele.ReplyMarkup.InlineKeyboard Strings.Join].
    split; [done|].
    intros row btn Hrow%list_elem_of_singleton Hbtn. subst row.
    apply list_elem_of_singleton in Hbtn. subst btn.
    cbn [tele.Btn.Data tele.Btn.Unique]. split; [done|]. set_solver.
  - exists read.2. rewrite Hsessions. split; [done|].
    unfold read, currentThinking.
    by destruct (String.eqb (thinking session) "").
  - intros other Hne. rewrite Hsessions, Hset_other by done. by apply Hother.
  - unfold shown, handleSettings.
    destruct (sessionManager_get (App.sessions a) chat) as [found manager].
    destruct (currentThinking found) as [mode found'].
    by destruct (sendWithFallback _ _ _ _).
Qed.

(** X23. Selecting a mode stores the mode the payload parses to (medium for a
    payload outside the enumeration) in the session of the chat, keeps its
    history, and confirms with the label of that mode.  The settings
    message then shows the same label, and the next request of the chat is
    made with the budget of that mode.  Other sessions and the artifact
    store are left alone. *)
Theorem mode_selection_roundtrip (a : App.t) (chat : Z) (payload : string)
    (answers : list (option error)) :
  let session := (sessionManager_get (App.sessions a) chat).1 in
  let mode := parseThinkingMode payload in
  let chosen := handleModeSelection a chat payload in
  let shown := handleSettings (expect chosen.2 answers) chat in
  (chosen.1, App.bot chosen.2)
  = sendWithFallback (App.bot a) chat
      ("Thinking budget switched to " +:+ label mode) plainOptions
  /\ sessions (App.sessions chosen.2) !! chat
     = Some {| history := history session; thinking := mode |}
  /\ (forall other, other <> chat ->
        sessions (App.sessions chosen.2) !! other
        = sessions (App.sessions a) !! other)
  /\ App.artifacts chosen.2 = App.artifacts a
  /\ buildGenerateConfig
       (currentThinking {| history := history session; thinking := mode |}).1
     = {| genai.ThinkingConfig.IncludeThoughts := true;
          genai.ThinkingConfig.ThinkingBudget := budgetTokens mode |}
  /\ (exists menu,
        tele.Bot.calls (App.bot shown.2)
        = tele.Bot.calls (App.bot chosen.2)
          ++ tele.Bot.calls
               (sendWithFallback
                  {| tele.Bot.calls := []; tele.Bot.answers := answers |}
                  chat ("Current thinking budget: " +:+ label mode)
                  {| tele.SendOptions.ReplyMarkup := Some menu;
                     tele.SendOptions.DisableWebPagePreview := true;
                     tele.SendOptions.ParseMode := "" |}).2)
  /\ App.sessions shown.2 = App.sessions chosen.2.
Proof.
  intros session mode chosen shown.
  destruct (sessionManager_get_spec (App.sessions a) chat)
    as (_ & Hother & _).
  destruct (handleModeSelection_sessions a chat payload) as [Hsessions _].
  cbv zeta in Hsessions. fold chosen session mode in Hsessions.
  destruct (sessionManager_set_spec
              (sessionManager_get (App.sessions a) chat).2 chat
              (setThinking session mode))
    as [Hset Hset_other].
  assert (Hmode : isThinkingMode mode = true) by apply parseThinkingMode_valid.
  assert (Hread : currentThinking {| history := history session;
                                     thinking := mode |}
                  = (mode, {| history := history session;
                              thinking := mode |})).
  { by apply currentThinking_ok. }
  assert (Hchat : sessions (App.sessions chosen.2) !! chat
                  = Some {| history := history session; thinking := mode |}).
  { by rewrite Hsessions, Hset. }
  split; [|split; [done|split; [|split; [|split; [|split]]]]].
  - unfold chosen, handleModeSelection. fold mode.
    destruct (sessionManager_get (App.sessions a) chat) as [found manager].
    cbv zeta. by destruct (sendWithFallback _ _ _ _).
  - intros other Hne. rewrite Hsessions, Hset_other by done. by apply Hother.
  - unfold chosen, handleModeSelection.
    destruct (sessionManager_get (App.sessions a) chat) as [found manager].
    cbv zeta. by destruct (sendWithFallback _ _ _ _).
  - by rewrite Hread.
  - unfold shown, handleSettings. unfold sessionManager_get at 1.
    cbn [expect App.sessions App.bot]. rewrite Hchat, Hread. cbv zeta.
    unfold tele.Inline.
    exists {| tele.ReplyMarkup.InlineKeyboard :=
                [[tele.Data "Dynamic reasoning" selectThinkingModeUnique
                    [thinkingModeDynamic]]] |}.
    rewrite !sendWithFallback_outcome.
    unfold nextAnswer, afterAnswer, logged.
    cbn [tele.Bot.calls tele.Bot.answers].
    destruct (isParseError (default None (head answers)));
      cbn [snd App.bot tele.Bot.calls]; reflexivity.
  - destruct (handleSettings_sessions (expect chosen.2 answers) chat)
      as [Hshown _].
    cbv zeta in Hshown. fold shown in Hshown. rewrite Hshown.
    cbn [expect App.sessions]. unfold sessionManager_get.
    rewrite Hchat. cbn [fst snd]. rewrite Hread. cbn [fst snd].
    unfold sessionManager_set. rewrite insert_id by done.
    by destruct (App.sessions chosen.2).
Qed.

(** ** The callbacks of the reply buttons *)

Lemma string_snoc (s : string) :
  s <> "" -> exists t c, s = t +:+ String c "".
Proof.
  induction s as [|c s IH]; [done|]. intros _.
  destruct s as [|c' s].
  - by exists "", c.
  - destruct IH as (t & d & Heq); [done|].
    exists (String c t), d. by rewrite Heq.
Qed.

Lemma dropLeading_rev_snoc (cut c : ascii) (t : string) :
  c <> cut ->
  dropLeading cut (Strings.rev (t +:+ String c ""))
  = Strings.rev (t +:+ String c "").
Proof.
  intros Hc. rewrite rev_append. cbn [Strings.rev].
  change ("" +:+ String c "") with (String c "").
  change (String c "" +:+ Strings.rev t) with (String c (Strings.rev t)).
  cbn [dropLeading]. by destruct (Ascii.eqb_spec c cut).
Qed.

(** [strings.TrimRight] removes one trailing byte of the cutset after a text
    that ends otherwise. *)
Lemma TrimRight_one (t : string) (c cut : ascii) :
  c <> cut ->
  TrimRight ((t +:+ String c "") +:+ String cut "") cut = t +:+ String c "".
Proof.
  intros Hc. unfold TrimRight.
  rewrite (rev_append (t +:+ String c "") (String cut "")).
  change (Strings.rev (String cut "")) with (String cut "").
  change (String cut "" +:+ Strings.rev (t +:+ String c ""))
    with (String cut (Strings.rev (t +:+ String c ""))).
  cbn [dropLeading]. rewrite Ascii.eqb_refl.
  rewrite dropLeading_rev_snoc by done. apply rev_involutive.
Qed.

Lemma foldl_writeStep (b : string) (steps : list string) :
  foldl writeStep b steps
  = b +:+ glue ((fun step => ("- " +:+ step) +:+ Strings.newline) <$> steps).
Proof.
  revert b. induction steps as [|step steps IH]; intros b; cbn [foldl].
  - cbn. by rewrite append_nil_r.
  - rewrite IH. unfold writeStep. cbn [fmap list_fmap glue foldr].
    by rewrite !append_assoc.
Qed.

(** The lines written one after the other, each closed by a line feed, are
    the lines each opened by a line feed, with one line feed at the end. *)
Lemma lines_shift (title : string) (line : string -> string)
    (steps : list string) :
  steps <> [] ->
  (title +:+ Strings.newline)
  +:+ glue ((fun step => line step +:+ Strings.newline) <$> steps)
  = (title +:+ glue ((fun step => Strings.newline +:+ line step) <$> steps))
    +:+ Strings.newline.
Proof.
  revert title. induction steps as [|step steps IH]; intros title; [done|].
  intros _. rewrite !fmap_cons.
  change (glue (?x :: ?l)) with (x +:+ glue l).
  destruct (decide (steps = [])) as [->|Hsteps].
  - cbn [fmap list_fmap glue foldr]. by rewrite !append_nil_r, !append_assoc.
  - specialize (IH (title +:+ Strings.newline +:+ line step) Hsteps).
    rewrite !append_assoc in IH. by rewrite !append_assoc.
Qed.

Lemma lines_end (title : string) (steps : list string) :
  steps <> [] -> Forall oneLine steps ->
  exists t c,
    title +:+ glue (stepLine <$> steps) = t +:+ String c ""
    /\ c <> Strings.LF.
Proof.
  intros Hne Hlines.
  destruct steps as [|step steps _] using rev_ind; [done|].
  apply Forall_app in Hlines as [_ Hlast].
  apply Forall_singleton in Hlast as [Hfull Hfeed].
  destruct (string_snoc step Hfull) as (t & c & ->).
  exists (title +:+ glue (stepLine <$> steps) +:+ Strings.newline +:+ "- "
          +:+ t), c.
  split.
  - rewrite fmap_app, glue_app. cbn [fmap list_fmap glue foldr].
    unfold stepLine. by rewrite append_nil_r, !append_assoc.
  - intros ->. apply Hfeed. rewrite bytesOf_app. set_solver.
Qed.

Lemma summaryOf_oneLine (thoughts : list string) (limit : nat) :
  Forall oneLine (summaryOf thoughts limit).
Proof.
  assert (Hchunks : Forall oneLine (concat (chunksOf <$> thoughts))).
  { apply Forall_forall.
    intros chunk (chunks & Hin & (thought & -> & _)%list_elem_of_fmap)%elem_of_concat.
    split; [by eapply chunksOf_nonempty|].
    intros Hfeed. apply chunksOf_boundaryFree in Hin.
    unfold boundaryFree in Hin. rewrite Forall_forall in Hin.
    by specialize (Hin _ Hfeed). }
  unfold summaryOf. cbv zeta.
  destruct (limit <? length (concat (chunksOf <$> thoughts))); [|done].
  apply Forall_app. split; [by apply Forall_take|].
  apply Forall_singleton. split; [done|].
  cbn. rewrite !elem_of_cons. intros [H|[H|[H|H]]]; try done. inversion H.
Qed.

(** X24. What the thoughts button shows: when the key is unknown, or the bundle
    has no thought with a chunk in it, the line that no summary is
    available; otherwise the title and, each on a line of its own and
    marked by a dash, the summary steps of the thoughts.  There are at most
    six steps, none of which is empty or broken over lines, so the text has
    at most seven lines. *)
Theorem thoughtsPrompt_listing (store : artifactStore) (key : string) :
  let steps :=
    default [] ((fun art => summaryOf (Thoughts art) 5) <$> items store !! key)
  in
  length steps <= 6
  /\ Forall oneLine steps
  /\ thoughtsPrompt (get store key)
     = if decide (steps = []) then "Reasoning summary is unavailable."
       else "Reasoning summary:" +:+ glue (stepLine <$> steps).
Proof.
  cbv zeta. unfold get.
  destruct (items store !! key) as [art|];
    cbn [fmap option_fmap option_map default from_option id];
    [|split; [cbn; lia|split; [constructor|done]]].
  split; [apply summaryOf_length|]. split; [apply summaryOf_oneLine|].
  unfold thoughtsPrompt.
  destruct (Nat.ltb_spec 0 (length (Thoughts art))) as [Hthoughts|Hnone].
  - rewrite summarizeThoughts_summaryOf by lia.
    change (Z.to_nat 5) with 5.
    destruct (Nat.ltb_spec 0 (length (summaryOf (Thoughts art) 5)))
      as [Hsteps|Hempty].
    + assert (Hne : summaryOf (Thoughts art) 5 <> []).
      { intros Heq. rewrite Heq in Hsteps. cbn in Hsteps. lia. }
      destruct (decide (summaryOf (Thoughts art) 5 = [])) as [|_]; [done|].
      cbv zeta. rewrite foldl_writeStep.
      rewrite (lines_shift "Reasoning summary:" (String.append "- ")) by done.
      change (fun step => Strings.newline +:+ "- " +:+ step) with stepLine.
      destruct (lines_end "Reasoning summary:" (summaryOf (Thoughts art) 5))
        as (t & c & -> & Hc); [done|apply summaryOf_oneLine|].
      by apply TrimRight_one.
    + destruct (summaryOf (Thoughts art) 5) as [|step steps] eqn:Hsummary;
        [done|cbn in Hempty; lia].
  - destruct (Thoughts art) as [|thought thoughts]; [done|cbn in Hnone; lia].
Qed.

Lemma Edit_spec (target : nat) (text : string) (opts : tele.SendOptions.t)
    (b : tele.Bot.t) (edits : list Edited.t) :
  Edit target text opts b edits
  = (nextAnswer b, afterAnswer b, edits ++ [edited target text opts]).
Proof.
  unfold Edit, nextAnswer, afterAnswer, edited.
  destruct b as [calls [|answer rest]]; reflexivity.
Qed.

Lemma editWithFallback_outcome (b : tele.Bot.t) (edits : list Edited.t)
    (target : nat) (text : string) (opts : tele.SendOptions.t) :
  editWithFallback b edits target text opts
  = if isParseError (nextAnswer b)
    then (nextAnswer (afterAnswer b), afterAnswer (afterAnswer b),
          edits ++ [edited target text (firstOptions opts);
                    edited target (escapeMarkdownV2 text)
                      (withParseMode (firstOptions opts)
                         tele.ModeMarkdownV2)])
    else (nextAnswer b, afterAnswer b,
          edits ++ [edited target text (firstOptions opts)]).
Proof.
  unfold editWithFallback. cbv zeta. fold (firstOptions opts).
  rewrite Edit_spec.
  destruct (isParseError (nextAnswer b)); cbn [negb]; [|done].
  by rewrite Edit_spec, <- app_assoc.
Qed.

(** X25. The thoughts button is served in two steps.  A placeholder is sent; when
    that fails, its error is returned and nothing is edited.  Otherwise the
    message the placeholder created, the last one sent, is edited into the
    summary, and once more with the summary escaped if the channel could
    not parse it; the error returned is that of the last edit.  The edits
    send no message, and sessions and artifact store are left alone. *)
Theorem show_thoughts_two_steps (a : App.t) (edits : list Edited.t)
    (chat : Z) (key : string) :
  let placeholder :=
    sendWithFallback (App.bot a) chat placeholderText plainOptions in
  let prompt := thoughtsPrompt (get (App.artifacts a) key) in
  let target := pred (length (tele.Bot.calls placeholder.2)) in
  let shown := handleShowThoughts a edits chat key in
  tele.Bot.calls (App.bot shown.1.2) = tele.Bot.calls placeholder.2
  /\ App.sessions shown.1.2 = App.sessions a
  /\ App.artifacts shown.1.2 = App.artifacts a
  /\ (exists call,
        tele.Bot.calls placeholder.2 !! target = Some call
        /\ tele.Sent.To call = chat
        /\ (tele.Sent.Body call = placeholderText
            \/ tele.Sent.Body call = escapeMarkdownV2 placeholderText))
  /\ (forall err, placeholder.1 = Some err ->
        shown.1.1 = Some err /\ shown.2 = edits)
  /\ (placeholder.1 = None ->
        let plain := withParseMode plainOptions tele.ModeMarkdownV2 in
        (isParseError (nextAnswer placeholder.2) = false
         /\ shown.1.1 = nextAnswer placeholder.2
         /\ shown.2 = edits ++ [edited target prompt plain])
        \/ (isParseError (nextAnswer placeholder.2) = true
            /\ shown.1.1 = nextAnswer (afterAnswer placeholder.2)
            /\ shown.2
               = edits ++ [edited target prompt plain;
                           edited target (escapeMarkdownV2 prompt) plain])).
Proof.
  intros placeholder prompt target shown.
  assert (Hcall : exists call,
            tele.Bot.calls placeholder.2 !! target = Some call
            /\ tele.Sent.To call = chat
            /\ (tele.Sent.Body call = placeholderText
                \/ tele.Sent.Body call = escapeMarkdownV2 placeholderText)).
  { unfold target, placeholder. rewrite sendWithFallback_outcome.
    destruct (isParseError (nextAnswer (App.bot a)));
      cbn [snd logged tele.Bot.calls afterAnswer];
      rewrite length_app, Nat.add_comm; cbn [length Nat.add pred].
    - exists (sent chat (escapeMarkdownV2 placeholderText)
                (withParseMode plainOptions tele.ModeMarkdownV2)).
      split; [|by split; [|right]].
      rewrite lookup_app_r by lia.
      by replace (S (length (tele.Bot.calls (App.bot a)))
                  - length (tele.Bot.calls (App.bot a))) with 1 by lia.
    - exists (sent chat placeholderText (firstOptions plainOptions)).
      split; [|by split; [|left]].
      rewrite lookup_app_r by lia. by rewrite Nat.sub_diag. }
  unfold shown, handleShowThoughts. fold prompt.
  fold placeholderText. fold placeholder.
  destruct placeholder as [[err|] b] eqn:Hplaceholder; cbn [fst snd] in *.
  - repeat split; done.
  - fold target. rewrite editWithFallback_outcome.
    change (firstOptions plainOptions)
      with (withParseMode plainOptions tele.ModeMarkdownV2).
    change (withParseMode (withParseMode plainOptions tele.ModeMarkdownV2)
              tele.ModeMarkdownV2)
      with (withParseMode plainOptions tele.ModeMarkdownV2).
    destruct (isParseError (nextAnswer b)); cbn [fst snd App.bot
      App.sessions App.artifacts afterAnswer tele.Bot.calls];
      (split; [done|]); (split; [done|]); (split; [done|]);
      (split; [done|]); (split; [done|]); intros _; [right|left]; done.
Qed.

Lemma writeSources_lines (b : string) (i : nat) (sources : list sourceRef) :
  writeSources b i sources
  = b +:+ glue ((fun line => line +:+ Strings.newline)
                <$> imap (fun j => sourceLine (i + j)) sources).
Proof.
  revert b i. induction sources as [|src sources IH]; intros b i;
    cbn [writeSources imap fmap list_fmap].
  - cbn. by rewrite append_nil_r.
  - rewrite IH. change (glue (?x :: ?l)) with (x +:+ glue l).
    assert (Hext : imap (fun j => sourceLine (S i + j)) sources
                   = imap ((fun j => sourceLine (i + j)) ∘ S) sources).
    { apply imap_ext. intros j src' _. cbn. f_equal. lia. }
    rewrite Hext, Nat.add_0_r. unfold writeSource, sourceLine. cbv zeta.
    by rewrite !append_assoc.
Qed.

(** A trimmed text that is not empty does not end with a line feed. *)
Lemma trimmed_end (s : string) :
  Strings.TrimSpace s = s -> s <> "" ->
  exists t c, s = t +:+ String c "" /\ c <> Strings.LF.
Proof.
  intros Htrim Hne. destruct (string_snoc s Hne) as (t & c & Hs).
  exists t, c. split; [done|]. intros ->.
  destruct (TrimSpace_spec s) as (_ & _ & _ & _ & _ & _ & Hend).
  specialize (Hend Strings.newline).
  rewrite Htrim, Hs, rev_append in Hend.
  assert (Hin : Strings.newline ∈ spaceRunes).
  { change Strings.newline with (Strings.utf8 10).
    apply (list_elem_of_fmap_2 Strings.utf8 Strings.whiteSpace 10%N).
    unfold Strings.whiteSpace. rewrite !elem_of_cons. auto. }
  specialize (Hend Hin).
  change (String.prefix Strings.newline
            (String Strings.LF (Strings.rev t)) = false) in Hend.
  unfold Strings.newline in Hend. cbn [String.prefix] in Hend.
  destruct (ascii_dec Strings.LF Strings.LF) as [_|Hne']; [|done].
  by destruct (Strings.rev t).
Qed.

Lemma sources_end (title : string) (sources : list sourceRef) :
  sources <> [] -> Forall tidy sources ->
  exists t c,
    title +:+ glue (String.append Strings.newline <$> imap sourceLine sources)
    = t +:+ String c ""
    /\ c <> Strings.LF.
Proof.
  intros Hne Htidy.
  destruct sources as [|last front _] using rev_ind; [done|].
  apply Forall_app in Htidy as [_ Hlast].
  apply Forall_singleton in Hlast as (Huri & Htrim & _).
  destruct (trimmed_end (URI last) Htrim Huri) as (t & c & Hlast & Hc).
  rewrite imap_app, fmap_app, glue_app.
  cbn [imap fmap list_fmap glue foldr]. unfold sourceLine at 2.
  rewrite Hlast, append_nil_r, <- !append_assoc.
  by eexists _, c.
Qed.

(** X26. What the sources button sends.  When the key is unknown or the bundle
    has no source, a fixed notice.  Otherwise, for the sources the bot
    stores (trimmed, with a URI that is not empty), the title line and one
    numbered line per source, counted from 1 and in the order of the bundle,
    with the page preview left on.  Sessions and artifact store are left
    alone, and the error returned is that of the send. *)
Theorem show_sources_listing (a : App.t) (chat : Z) (key : string) :
  let sources := default [] (Sources <$> items (App.artifacts a) !! key) in
  Forall tidy sources ->
  let body :=
    if decide (sources = []) then "No sources available for this reply."
    else "Sources:"
         +:+ glue (String.append Strings.newline <$> imap sourceLine sources)
  in
  let opts := if decide (sources = []) then plainOptions else previewOptions in
  let sending := sendWithFallback (App.bot a) chat body opts in
  handleShowSources a chat key
  = (sending.1,
     {| App.bot := sending.2;
        App.client := App.client a;
        App.sessions := App.sessions a;
        App.artifacts := App.artifacts a |}).
Proof.
  cbv zeta. intros Htidy. unfold handleShowSources, get. cbv zeta.
  destruct (items (App.artifacts a) !! key) as [art|];
    cbn [fmap option_fmap option_map default from_option id] in *; [|done].
  destruct (decide (Sources art = [])) as [Hnil|Hsome].
  { by rewrite Hnil. }
  assert (Hlen : (length (Sources art) =? 0) = false).
  { by destruct (Sources art). }
  rewrite Hlen.
  assert (Hbody :
    TrimRight (writeSources ("Sources:" +:+ Strings.newline) 0 (Sources art))
      Strings.LF
    = "Sources:"
      +:+ glue (String.append Strings.newline
                <$> imap sourceLine (Sources art))).
  { rewrite writeSources_lines.
    change (fun j => sourceLine (0 + j)) with sourceLine.
    rewrite (lines_shift "Sources:" (fun line => line))
      by (by destruct (Sources art)).
    change (fun step : string => Strings.newline +:+ step)
      with (String.append Strings.newline).
    destruct (sources_end "Sources:" (Sources art) Hsome Htidy)
      as (t & c & -> & Hc).
    by apply TrimRight_one. }
  by rewrite Hbody.
Qed.

Lemma show_sources_listing_witness :
  (handleShowSources
     {| App.bot := tele.Bot.idle; App.client := fun _ _ => Err "";
        App.sessions := newSessionManager defaultThinkingMode;
        App.artifacts := storeWithSource |} 7 "1").1 = None.
Proof.
  refine (f_equal fst
    (show_sources_listing
       {| App.bot := tele.Bot.idle; App.client := fun _ _ => Err "";
          App.sessions := newSessionManager defaultThinkingMode;
          App.artifacts := storeWithSource |} 7 "1" _)).
  vm_compute. repeat constructor; discriminate.
Defined.

Lemma sendWithFallback_plainly (a : App.t) (chat : Z) (text : string)
    (opts : tele.SendOptions.t) :
  tele.SendOptions.ReplyMarkup opts = None ->
  repliesPlainly a
    {| App.bot := (sendWithFallback (App.bot a) chat text opts).2;
       App.client := App.client a;
       App.sessions := App.sessions a;
       App.artifacts := App.artifacts a |} chat.
Proof.
  intros Hopts. unfold repliesPlainly.
  cbn [App.client App.sessions App.artifacts App.bot].
  split; [done|]. split; [done|]. split; [done|].
  destruct (sendWithFallback_added (App.bot a) chat text opts)
    as (new & Hcalls & Hnew).
  exists new. split; [done|]. by rewrite <- Hopts.
Qed.

Lemma handleShowThoughts_plainly (a : App.t) (edits : list Edited.t)
    (chat : Z) (key : string) :
  repliesPlainly a (handleShowThoughts a edits chat key).1.2 chat.
Proof.
  pose proof (sendWithFallback_plainly a chat "Summarising thoughts..."
                plainOptions eq_refl) as Hplain.
  unfold handleShowThoughts.
  destruct (sendWithFallback _ _ _ _) as [[err|] b]; cbn [fst snd] in *;
    [done|].
  rewrite editWithFallback_outcome.
  by destruct (isParseError (nextAnswer b)).
Qed.

Lemma handleShowSources_plainly (a : App.t) (chat : Z) (key : string) :
  repliesPlainly a (handleShowSources a chat key).2 chat.
Proof.
  unfold handleShowSources. cbv zeta.
  destruct (get (App.artifacts a) key) as [[art|] [|]]; cbn [snd];
    try by apply sendWithFallback_plainly.
  destruct (length (Sources art) =? 0); cbn [snd];
    by apply sendWithFallback_plainly.
Qed.

Lemma handleShowCode_plainly (toLower : string -> string) (a : App.t)
    (chat : Z) (key : string) :
  repliesPlainly a (handleShowCode toLower a chat key).2 chat.
Proof.
  unfold handleShowCode. cbv zeta.
  destruct (get (App.artifacts a) key) as [[art|] [|]]; cbn [snd];
    try by apply sendWithFallback_plainly.
  destruct (length (CodeSnippets art) =? 0); cbn [snd];
    by apply sendWithFallback_plainly.
Qed.

Lemma handleStart_plainly (a : App.t) (chat : Z) :
  repliesPlainly a (handleStart a chat).2 chat.
Proof.
  pose proof (sendWithFallback_plainly a chat
    "Hi, I am Eteon. Share a prompt, a link, or media and I will respond concisely."
    plainOptions eq_refl) as Hplain.
  unfold handleStart. cbv zeta. by destruct (sendWithFallback _ _ _ _).
Qed.

(** X27. The start command and the three buttons under a reply only answer:
    whatever the key, known or not, they change no session, store nothing,
    and what they send goes to the chat of the press, without a keyboard.
    A press with a key the store does not hold is answered by a fixed
    notice. *)
Theorem show_handlers_only_answer (toLower : string -> string) (a : App.t)
    (edits : list Edited.t) (chat : Z) (key : string) :
  let notice (text : string) :=
    let sending := sendWithFallback (App.bot a) chat text plainOptions in
    (sending.1,
     {| App.bot := sending.2;
        App.client := App.client a;
        App.sessions := App.sessions a;
        App.artifacts := App.artifacts a |}) in
  repliesPlainly a (handleStart a chat).2 chat
  /\ repliesPlainly a (handleShowThoughts a edits chat key).1.2 chat
  /\ repliesPlainly a (handleShowSources a chat key).2 chat
  /\ repliesPlainly a (handleShowCode toLower a chat key).2 chat
  /\ (items (App.artifacts a) !! key = None ->
      thoughtsPrompt (get (App.artifacts a) key)
      = "Reasoning summary is unavailable."
      /\ handleShowSources a chat key
         = notice "No sources available for this reply."
      /\ handleShowCode toLower a chat key
         = notice "No executable code was used for this reply.").
Proof.
  cbv zeta.
  split; [apply handleStart_plainly|].
  split; [apply handleShowThoughts_plainly|].
  split; [apply handleShowSources_plainly|].
  split; [apply handleShowCode_plainly|].
  intros Hnone. unfold handleShowSources, handleShowCode, get.
  by rewrite Hnone.
Qed.

(** ** The bot over a run of events *)

Lemma get_found (s : artifactStore) (key : string) :
  (get s key).2 = true <-> is_Some (items s !! key).
Proof.
  unfold get. destruct (items s !! key); cbn [snd].
  - split; [by eexists|done].
  - split; [done|]. by intros [? ?].
Qed.

Lemma grows_found (s s' : artifactStore) (key : string) :
  grows s s' -> (get s key).2 = true -> (get s' key).2 = true.
Proof.
  intros [->|(art & ->)]; [done|]. rewrite !get_found. cbn [put snd items].
  intros Hkey. rewrite lookup_insert_is_Some.
  destruct (decide (FormatUint (uint64_succ (counter s)) = key)); auto.
Qed.

Lemma sent_resolves (b : tele.Bot.t) (chat : Z) (text : string)
    (opts : tele.SendOptions.t) (store : artifactStore) :
  (forall markup row btn,
      tele.SendOptions.ReplyMarkup opts = Some markup ->
      row ∈ tele.ReplyMarkup.InlineKeyboard markup -> btn ∈ row ->
      tele.Btn.Unique btn ∈ showUniques ->
      (get store (tele.Btn.Data btn)).2 = true) ->
  exists new,
    tele.Bot.calls (sendWithFallback b chat text opts).2
    = tele.Bot.calls b ++ new
    /\ Forall (showButtonsResolve store) new.
Proof.
  intros Hopts.
  destruct (sendWithFallback_added b chat text opts) as (new & Hcalls & Hnew).
  exists new. split; [done|].
  eapply Forall_impl; [exact Hnew|].
  intros call [_ Hmarkup] markup row btn Hcall.
  rewrite Hmarkup in Hcall. by apply Hopts.
Qed.

Lemma repliesPlainly_effect (a a' : App.t) (chat : Z) :
  repliesPlainly a a' chat -> effect a a'.
Proof.
  intros (_ & _ & Hstore & new & Hcalls & Hnew).
  split; [by left|]. exists new. split; [done|].
  eapply Forall_impl; [exact Hnew|].
  intros call [_ Hmarkup] markup row btn Hcall. congruence.
Qed.

Lemma sending_effect (a : App.t) (chat : Z) (text : string)
    (opts : tele.SendOptions.t) (m : sessionManager) (store : artifactStore) :
  grows (App.artifacts a) store ->
  (forall markup row btn,
      tele.SendOptions.ReplyMarkup opts = Some markup ->
      row ∈ tele.ReplyMarkup.InlineKeyboard markup -> btn ∈ row ->
      tele.Btn.Unique btn ∈ showUniques ->
      (get store (tele.Btn.Data btn)).2 = true) ->
  effect a
    {| App.bot := (sendWithFallback (App.bot a) chat text opts).2;
       App.client := App.client a;
       App.sessions := m;
       App.artifacts := store |}.
Proof.
  intros Hgrows Hopts. split; [done|].
  cbn [App.bot App.artifacts]. by apply sent_resolves.
Qed.

Lemma handleUserMessage_effect (a : App.t) (msg : tele.Message.t) :
  effect a (handleUserMessage a (Some msg)).2.
Proof.
  assert (Hplain : forall text m,
            effect a
              {| App.bot := (sendWithFallback (App.bot a)
                               (tele.Message.ChatID msg) text plainOptions).2;
                 App.client := App.client a;
                 App.sessions := m;
                 App.artifacts := App.artifacts a |}).
  { intros text m. apply sending_effect; [by left|done]. }
  unfold handleUserMessage.
  destruct (sessionManager_get (App.sessions a) (tele.Message.ChatID msg))
    as [session manager].
  destruct (collectParts msg) as [[|part parts]|err].
  - specialize (Hplain "Please send text or supported media."
                  (sessionManager_set manager (tele.Message.ChatID msg)
                     session)).
    by destruct (sendWithFallback _ _ _ _).
  - cbv zeta. destruct (currentThinking session) as [mode session'].
    destruct (App.client a _ _) as [resp|err].
    + destruct (blocked resp).
      * specialize (Hplain safetyWarning
                      (sessionManager_set manager (tele.Message.ChatID msg)
                         session')).
        by destruct (sendWithFallback _ _ _ _).
      * destruct (renderResponse (Some resp)) as [reply bundle].
        set (session'' := match firstCandidate (Some resp) with
                          | Some _ => _ | None => _ end).
        set (text := if String.eqb reply "" then _ else _).
        cbn [put].
        set (key := FormatUint (uint64_succ (counter (App.artifacts a)))).
        set (store := {| items := _; counter := _ |}).
        assert (Hkey : key <> "") by apply FormatUint_nonempty.
        destruct (buildResponseMarkup_buttons key bundle Hkey)
          as (markup & Hmarkup & _ & Hbuttons).
        apply String.eqb_neq in Hkey. rewrite Hkey, Hmarkup.
        pose proof (sending_effect a (tele.Message.ChatID msg) text
                      {| tele.SendOptions.ReplyMarkup := Some markup;
                         tele.SendOptions.DisableWebPagePreview := true;
                         tele.SendOptions.ParseMode := "" |}
                      (sessionManager_set manager (tele.Message.ChatID msg)
                         session'') store) as Heffect.
        destruct (sendWithFallback _ _ _ _) as [sendErr b].
        apply Heffect.
        { right. by exists bundle. }
        intros markup' row btn [= <-] Hrow Hbtn _.
        destruct (Hbuttons row btn Hrow Hbtn) as [-> _].
        apply get_found. unfold store. cbn [items].
        rewrite lookup_insert_eq. by eexists.
    + specialize (Hplain "Eteon could not complete that request."
                    (sessionManager_set manager (tele.Message.ChatID msg)
                       session')).
      by destruct (sendWithFallback _ _ _ _).
  - specialize (Hplain "I could not process that input."
                  (sessionManager_set manager (tele.Message.ChatID msg)
                     session)).
    by destruct (sendWithFallback _ _ _ _).
Qed.

Lemma effect_refl (a : App.t) : effect a a.
Proof.
  split; [by left|]. exists []. split; [by rewrite app_nil_r|constructor].
Qed.

Lemma dispatch_effect (a : App.t) (u : update) : effect a (dispatch a u).
Proof.
  destruct u as [[msg|]|chat|chat payload]; cbn [dispatch].
  - apply handleUserMessage_effect.
  - apply effect_refl.
  - unfold handleSettings.
    destruct (sessionManager_get (App.sessions a) chat) as [session manager].
    cbv zeta. destruct (currentThinking session) as [mode session'].
    match goal with
    | |- context [sendWithFallback ?b ?c ?t ?o] =>
        pose proof (sending_effect a c t o
                      (sessionManager_set manager chat session')
                      (App.artifacts a)) as Heffect
    end.
    destruct (sendWithFallback _ _ _ _) as [err b].
    apply Heffect; [by left|].
    unfold tele.Inline, tele.Data.
    intros markup row btn [= <-] Hrow%list_elem_of_singleton Hbtn. subst row.
    apply list_elem_of_singleton in Hbtn. subst btn.
    cbn [tele.Btn.Unique]. unfold showUniques. rewrite !elem_of_cons.
    intros [H|[H|[H|H]]]; try discriminate H. inversion H.
  - unfold handleModeSelection. cbv zeta.
    destruct (sessionManager_get (App.sessions a) chat) as [session manager].
    pose proof (sending_effect a chat
                  ("Thinking budget switched to "
                   +:+ label (parseThinkingMode payload)) plainOptions
                  (sessionManager_set manager chat
                     (setThinking session (parseThinkingMode payload)))
                  (App.artifacts a)) as Heffect.
    destruct (sendWithFallback _ _ _ _) as [err b].
    apply Heffect; [by left|done].
Qed.

Lemma serve_effect (toLower : string -> string) (st : App.t * list Edited.t)
    (e : list (option error) * event) :
  effect st.1 (serve toLower st e).1.
Proof.
  assert (Hexpect : forall a', effect (expect st.1 e.1) a' -> effect st.1 a').
  { by intros a' Heffect. }
  apply Hexpect. unfold serve. cbv zeta.
  destruct e.2 as [u|chat|chat key|chat key|chat key]; cbn [fst].
  - apply dispatch_effect.
  - eapply repliesPlainly_effect, handleStart_plainly.
  - eapply repliesPlainly_effect, handleShowThoughts_plainly.
  - eapply repliesPlainly_effect, handleShowSources_plainly.
  - eapply repliesPlainly_effect, handleShowCode_plainly.
Qed.

Lemma effect_buttonsResolve (a a' : App.t) :
  effect a a' -> buttonsResolve a -> buttonsResolve a'.
Proof.
  intros [Hgrows (new & Hcalls & Hnew)] Hold. unfold buttonsResolve.
  rewrite Hcalls. apply Forall_app. split; [|done].
  eapply Forall_impl; [exact Hold|].
  intros call Hcall markup row btn Hmarkup Hrow Hbtn Hunique.
  eapply grows_found; [done|]. by eapply Hcall.
Qed.

Lemma serveAll_buttonsResolve (toLower : string -> string)
    (events : list (list (option error) * event))
    (st : App.t * list Edited.t) :
  buttonsResolve st.1 -> buttonsResolve (serveAll toLower st events).1.
Proof.
  revert st. induction events as [|e events IH]; intros st Hst; [done|].
  cbn [serveAll foldl]. apply IH.
  eapply effect_buttonsResolve; [apply serve_effect|done].
Qed.

(** X28. No button the bot has ever put under a reply dangles.  After any run of
    events, every button of every message sent that calls for the thoughts,
    the sources or the code carries a key under which the store holds a
    bundle, so its handler finds one. *)
Theorem show_buttons_never_dangle (toLower : string -> string)
    (client : genai.Client)
    (events : list (list (option error) * event)) :
  let a := (serveAll toLower (New client, []) events).1 in
  forall call markup row btn,
    call ∈ tele.Bot.calls (App.bot a) ->
    tele.SendOptions.ReplyMarkup (tele.Sent.Options call) = Some markup ->
    row ∈ tele.ReplyMarkup.InlineKeyboard markup -> btn ∈ row ->
    tele.Btn.Unique btn ∈ showUniques ->
    exists bundle,
      get (App.artifacts a) (tele.Btn.Data btn) = (Some bundle, true).
Proof.
  intros a call markup row btn Hcall Hmarkup Hrow Hbtn Hunique.
  assert (Hall : buttonsResolve a).
  { apply serveAll_buttonsResolve. constructor. }
  unfold buttonsResolve in Hall. rewrite Forall_forall in Hall.
  specialize (Hall call Hcall markup row btn Hmarkup Hrow Hbtn Hunique).
  apply get_found in Hall as [bundle Hbundle].
  exists bundle. unfold get. by rewrite Hbundle.
Qed.

Lemma grows_keeps (s s' : artifactStore) (issued : list string) :
  grows s s' -> storeInv s issued -> (counter s + 1 < 2 ^ 64)%N ->
  (exists issued', storeInv s' issued')
  /\ (counter s' <= counter s + 1)%N
  /\ forall key, is_Some (items s !! key) -> items s' !! key = items s !! key.
Proof.
  intros [->|(art & ->)] Hinv Hlt.
  - split; [by exists issued|]. split; [lia|done].
  - destruct (storeInv_put s issued (Some art) Hinv Hlt) as [Hinv' Hcount].
    split; [by eexists|]. split; [done|].
    intros key Hkey.
    pose proof (putAll_keeps [Some art] s issued key Hinv) as Hkeep.
    cbn [putAll length] in Hkeep.
    destruct (put s (Some art)) as [key' s'].
    apply Hkeep; [lia|done].
Qed.

Lemma serveAll_keeps (toLower : string -> string)
    (events : list (list (option error) * event))
    (st : App.t * list Edited.t) (issued : list string) :
  storeInv (App.artifacts st.1) issued ->
  (counter (App.artifacts st.1) + N.of_nat (length events) < 2 ^ 64)%N ->
  (exists issued',
      storeInv (App.artifacts (serveAll toLower st events).1) issued')
  /\ (counter (App.artifacts (serveAll toLower st events).1)
      <= counter (App.artifacts st.1) + N.of_nat (length events))%N
  /\ forall key,
       is_Some (items (App.artifacts st.1) !! key) ->
       items (App.artifacts (serveAll toLower st events).1) !! key
       = items (App.artifacts st.1) !! key.
Proof.
  revert st issued.
  induction events as [|e events IH]; intros st issued Hinv Hlt.
  - cbn [serveAll foldl]. split; [by exists issued|]. split; [lia|done].
  - cbn [serveAll foldl length] in *.
    destruct (serve_effect toLower st e) as [Hgrows _].
    destruct (grows_keeps _ _ issued Hgrows Hinv)
      as ([issued' Hinv'] & Hcount & Hkeep); [lia|].
    destruct (IH (serve toLower st e) issued' Hinv')
      as (Hinv'' & Hcount' & Hkeep'); [lia|].
    split; [done|]. split; [unfold serveAll in *; lia|].
    intros key Hkey. unfold serveAll in *.
    rewrite Hkeep', Hkeep; [done|done|]. by rewrite Hkeep.
Qed.

(** X29. The buttons of a reply keep their bundle.  The key the handler stores
    the bundle of a reply under was free before, and as long as the bot has
    served fewer than [2^64] events in all, the store holds this very bundle
    under the key after any further events. *)
Theorem reply_buttons_keep_their_bundle (toLower : string -> string)
    (client : genai.Client)
    (before more : list (list (option error) * event))
    (answers : list (option error)) (msg : tele.Message.t)
    (parts : list (option genai.Part.t))
    (resp : genai.GenerateContentResponse.t) :
  let st := serveAll toLower (New client, []) before in
  let a := expect st.1 answers in
  let chat := tele.Message.ChatID msg in
  let session := (sessionManager_get (App.sessions a) chat).1 in
  collectParts msg = Ok parts ->
  parts <> [] ->
  App.client a
    (conversationWith session
       (genai.NewContentFromParts parts genai.RoleUser))
    (buildGenerateConfig (currentThinking session).1) = Ok resp ->
  blocked resp = false ->
  (N.of_nat (length before + 1 + length more) < 2 ^ 64)%N ->
  let bundle := (renderResponse (Some resp)).2 in
  let key := FormatUint (uint64_succ (counter (App.artifacts a))) in
  let after := (handleUserMessage a (Some msg)).2 in
  let final := (serveAll toLower (after, st.2) more).1 in
  get (App.artifacts a) key = (None, false)
  /\ get (App.artifacts after) key = (Some bundle, true)
  /\ get (App.artifacts final) key = (Some bundle, true).
Proof.
  intros st a chat session Hparts Hne Hclient Hblocked Hbound bundle key
    after final.
  destruct (serveAll_keeps toLower before (New client, []) [] storeInv_new)
    as ([issued Hinv] & Hcount & _); [cbn; lia|].
  fold st in Hinv, Hcount.
  cbn [fst New App.artifacts newArtifactStore counter] in Hcount.
  change (App.artifacts st.1) with (App.artifacts a) in Hinv, Hcount.
  pose proof (handleUserMessage_answered a msg parts resp
                Hparts Hne Hclient Hblocked) as Hafter.
  cbv zeta in Hafter. apply (f_equal snd) in Hafter as Hstore.
  cbn [snd] in Hstore. fold a bundle after in Hstore.
  assert (Hlt : (counter (App.artifacts a) + 1 < 2 ^ 64)%N) by lia.
  rewrite put_some in Hstore by done. cbn [snd] in Hstore.
  unfold key. rewrite uint64_succ_small by done.
  assert (Hfree : items (App.artifacts a)
                  !! FormatUint (counter (App.artifacts a) + 1) = None).
  { destruct (items (App.artifacts a)
              !! FormatUint (counter (App.artifacts a) + 1)) as [old|] eqn:Hold;
      [|done].
    destruct Hinv as [Hdom Hkeys].
    destruct (Hdom _ (mk_is_Some _ _ Hold)) as [Hin _].
    destruct (Hkeys _ Hin) as [Hempty|(id & Hid & Heq)].
    - by apply FormatUint_nonempty in Hempty.
    - apply FormatUint_inj in Heq. lia. }
  assert (Hnow : items (App.artifacts after)
                 !! FormatUint (counter (App.artifacts a) + 1) = Some bundle).
  { rewrite Hstore. cbn [items]. by rewrite lookup_insert_eq. }
  destruct (storeInv_put (App.artifacts a) issued (Some bundle) Hinv Hlt)
    as [Hinv' _].
  rewrite put_some in Hinv' by done. cbn [fst snd] in Hinv'.
  rewrite <- Hstore in Hinv'.
  destruct (serveAll_keeps toLower more (after, st.2) _ Hinv')
    as (_ & _ & Hkeep).
  { cbn [fst]. rewrite Hstore. cbn [counter]. lia. }
  specialize (Hkeep _ (mk_is_Some _ _ Hnow)). cbn [fst] in Hkeep.
  fold final in Hkeep. unfold get.
  by rewrite Hfree, Hkeep, Hnow.
Qed.

Lemma reply_buttons_keep_their_bundle_witness :
  collectParts question = Ok [textPart "2+2?"]
  /\ blocked plainAnswer = false
  /\ get (App.artifacts
            (serveAll (fun s => s)
               ((handleUserMessage (New (fun _ _ => Ok plainAnswer))
                   (Some question)).2, [])
               [([], OnShowThoughts 7 "1")]).1) "1"
     = (Some (renderResponse (Some plainAnswer)).2, true).
Proof.
  split; [reflexivity|]. split; [reflexivity|].
  refine (proj2 (proj2
    (reply_buttons_keep_their_bundle (fun s => s)
       (fun _ _ => Ok plainAnswer) [] [([], OnShowThoughts 7 "1")] []
       question [textPart "2+2?"] plainAnswer eq_refl _ eq_refl eq_refl
       eq_refl))).
  discriminate.
Defined.

Lemma show_buttons_never_dangle_witness :
  exists bundle,
    get (App.artifacts
           (serveAll (fun s => s) (New (fun _ _ => Ok plainAnswer), [])
              [([], OnUpdate (OnMessage (Some question)))]).1) "1"
    = (Some bundle, true).
Proof.
  refine (show_buttons_never_dangle (fun s => s)
            (fun _ _ => Ok plainAnswer)
            [([], OnUpdate (OnMessage (Some question)))]
            (sent 7 "4"
               {| tele.SendOptions.ReplyMarkup :=
                    Some {| tele.ReplyMarkup.InlineKeyboard :=
                              [[thoughtsButton "1"]] |};
                  tele.SendOptions.DisableWebPagePreview := true;
                  tele.SendOptions.ParseMode := tele.ModeMarkdownV2 |})
            {| tele.ReplyMarkup.InlineKeyboard := [[thoughtsButton "1"]] |}
            [thoughtsButton "1"] (thoughtsButton "1") _ eq_refl _ _ _).
  - vm_compute. apply list_elem_of_here.
  - apply list_elem_of_here.
  - apply list_elem_of_here.
  - apply list_elem_of_here.
Defined.

Lemma historyOk_nil : historyOk [].
Proof. split; [constructor|]. intros i turn H. inversion H. Qed.

Lemma historyOk_drop (k : nat) (h : list genai.Content.t) :
  historyOk h -> historyOk (drop k h).
Proof.
  intros [Hturns Hpairs]. split; [by apply Forall_drop|].
  intros i turn Hturn Hrole. rewrite lookup_drop in Hturn.
  replace (k + S i) with (S (k + i)) in Hturn by lia.
  destruct (Hpairs _ _ Hturn Hrole) as (user & Huser & Hu).
  exists user. by rewrite lookup_drop.
Qed.

Lemma historyOk_user (h : list genai.Content.t) (user : genai.Content.t) :
  genai.Content.Role user = genai.RoleUser ->
  genai.Content.Parts user <> [] ->
  historyOk h -> historyOk (h ++ [user]).
Proof.
  intros Hrole Hparts [Hturns Hpairs]. split.
  - apply Forall_app. split; [done|]. apply Forall_singleton. by left.
  - intros i turn Hturn Hmodel.
    destruct (decide (S i < length h)) as [Hlt|Hge].
    + rewrite lookup_app_l in Hturn by done.
      rewrite lookup_app_l by lia. by apply (Hpairs i turn).
    + rewrite lookup_app_r in Hturn by lia.
      destruct (S i - length h) as [|n] eqn:Hn; [|by destruct n].
      injection Hturn as <-. rewrite Hrole in Hmodel. discriminate.
Qed.

Lemma historyOk_model (h : list genai.Content.t)
    (user model : genai.Content.t) :
  genai.Content.Role user = genai.RoleUser ->
  genai.Content.Role model = genai.RoleModel ->
  historyOk (h ++ [user]) -> historyOk ((h ++ [user]) ++ [model]).
Proof.
  intros Huser Hmodel [Hturns Hpairs]. split.
  - apply Forall_app. split; [done|]. apply Forall_singleton. by right.
  - intros i turn Hturn Hrole.
    destruct (decide (S i < length (h ++ [user]))) as [Hlt|Hge].
    + rewrite lookup_app_l in Hturn by done.
      rewrite (lookup_app_l (h ++ [user])) by lia. by apply (Hpairs i turn).
    + rewrite lookup_app_r in Hturn by lia.
      destruct (S i - length (h ++ [user])) as [|n] eqn:Hn;
        [|by destruct n].
      exists user. split; [|done].
      rewrite length_app in Hn, Hge. cbn [length] in Hn, Hge.
      rewrite (lookup_app_l (h ++ [user]))
        by (rewrite length_app; cbn [length]; lia).
      rewrite lookup_app_r by lia.
      by replace (i - length h) with 0 by lia.
Qed.

Lemma modelTurn_role (resp : genai.GenerateContentResponse.t)
    (model : genai.Content.t) :
  modelTurn resp = Some model -> genai.Content.Role model = genai.RoleModel.
Proof.
  unfold modelTurn. destruct (firstCandidate (Some resp)) as [cand|]; [|done].
  cbn [mbind option_bind].
  destruct (genai.Candidate.Content cand) as [content|]; [|done].
  by intros [= <-].
Qed.

Lemma sessionAfter_historyOk (client : genai.Client) (session : sessionState)
    (msg : tele.Message.t) :
  historyOk (history session) ->
  historyOk (history (sessionAfter client session msg)).
Proof.
  intros Hok. unfold sessionAfter.
  assert (Hread : history (currentThinking session).2 = history session).
  { unfold currentThinking. by destruct (String.eqb (thinking session) ""). }
  destruct (collectParts msg) as [[|part parts]|err]; [done| |done].
  cbv zeta. destruct (client _ _) as [resp|err]; [|by rewrite Hread].
  destruct (blocked resp); [by rewrite Hread|].
  rewrite appendTurn_history, Hread. unfold lastN. apply historyOk_drop.
  cbn [option_list].
  assert (Huser : historyOk
            (history session
             ++ [genai.NewContentFromParts (part :: parts) genai.RoleUser])).
  { by apply historyOk_user. }
  destruct (modelTurn resp) as [model|] eqn:Hmodel; cbn [option_list app].
  - change (history session ++ ?u :: [model])
      with (history session ++ [u] ++ [model]).
    rewrite app_assoc. apply historyOk_model; [done| |done].
    by eapply modelTurn_role.
  - done.
Qed.

Lemma dispatch_historiesOk (a : App.t) (u : update) :
  historiesOk (App.sessions a) -> historiesOk (App.sessions (dispatch a u)).
Proof.
  intros Hm.
  assert (Hfound : forall chat,
            historyOk (history (sessionManager_get (App.sessions a) chat).1)
            /\ historiesOk (sessionManager_get (App.sessions a) chat).2).
  { intros chat.
    destruct (sessionManager_get_spec (App.sessions a) chat)
      as (Hchat & Hother & _ & Hfound).
    assert (Hone : historyOk
              (history (sessionManager_get (App.sessions a) chat).1)).
    { rewrite Hfound.
      destruct (sessions (App.sessions a) !! chat) as [s|] eqn:Hs.
      - by apply (Hm chat).
      - apply historyOk_nil. }
    split; [done|]. intros other s.
    destruct (decide (other = chat)) as [->|Hne].
    - rewrite Hchat. by intros [= <-].
    - rewrite Hother by done. apply Hm. }
  assert (Hstep : forall m chat session,
            m = sessionManager_set
                  (sessionManager_get (App.sessions a) chat).2 chat session ->
            historyOk (history session) -> historiesOk m).
  { intros m chat session -> Hsession other s.
    destruct (sessionManager_set_spec
                (sessionManager_get (App.sessions a) chat).2 chat session)
      as [Hset Hset_other].
    destruct (decide (other = chat)) as [->|Hne].
    - rewrite Hset. by intros [= <-].
    - rewrite Hset_other by done. by apply Hfound. }
  destruct u as [[msg|]|chat|chat payload]; cbn [dispatch snd]; [| done | |].
  - destruct (handleUserMessage_sessions a msg) as [Hsessions _].
    eapply Hstep; [exact Hsessions|].
    apply sessionAfter_historyOk, Hfound.
  - destruct (handleSettings_sessions a chat) as [Hsessions _].
    eapply Hstep; [exact Hsessions|].
    unfold currentThinking.
    destruct (String.eqb _ ""); apply Hfound.
  - destruct (handleModeSelection_sessions a chat payload) as [Hsessions _].
    eapply Hstep; [exact Hsessions|]. apply Hfound.
Qed.

(** What [serve] does to the sessions: a handler that touches a session
    runs, or they are left alone. *)
Lemma serve_sessions (toLower : string -> string)
    (st : App.t * list Edited.t) (e : list (option error) * event) :
  (exists u, App.sessions (serve toLower st e).1
             = App.sessions (dispatch (expect st.1 e.1) u)
             /\ App.client (serve toLower st e).1
                = App.client (dispatch (expect st.1 e.1) u))
  \/ (App.sessions (serve toLower st e).1 = App.sessions st.1
      /\ App.client (serve toLower st e).1 = App.client st.1).
Proof.
  unfold serve. cbv zeta.
  destruct e.2 as [u|chat|chat key|chat key|chat key]; cbn [fst].
  - left. by exists u.
  - right. by destruct (handleStart_plainly (expect st.1 e.1) chat)
      as (? & ? & _).
  - right. by destruct (handleShowThoughts_plainly (expect st.1 e.1) st.2
                          chat key) as (? & ? & _).
  - right. by destruct (handleShowSources_plainly (expect st.1 e.1) chat key)
      as (? & ? & _).
  - right. by destruct (handleShowCode_plainly toLower (expect st.1 e.1)
                          chat key) as (? & ? & _).
Qed.

Lemma serveAll_sessions (toLower : string -> string) (client : genai.Client)
    (events : list (list (option error) * event))
    (st : App.t * list Edited.t) :
  appOk client st.1 -> historiesOk (App.sessions st.1) ->
  appOk client (serveAll toLower st events).1
  /\ historiesOk (App.sessions (serveAll toLower st events).1).
Proof.
  revert st. induction events as [|e events IH]; intros st Hok Hhist;
    [done|].
  cbn [serveAll foldl]. apply IH.
  - destruct (serve_sessions toLower st e)
      as [(u & Hsessions & Hclient)|[Hsessions Hclient]].
    + pose proof (dispatch_appOk client (expect st.1 e.1) u Hok)
        as (Hc & Hd & Hs).
      split; [congruence|]. rewrite Hsessions. by split.
    + destruct Hok as (Hc & Hd & Hs).
      split; [congruence|]. rewrite Hsessions. by split.
  - destruct (serve_sessions toLower st e)
      as [(u & Hsessions & _)|[Hsessions _]]; rewrite Hsessions; [|done].
    by apply dispatch_historiesOk.
Qed.

(** X30. Whatever events the bot has served, every session it holds is well
    formed.  Its mode is one of the enumeration.  Its history has at most 20
    entries, so the conversation of the next request has at most 21.  Every
    entry is a model turn or a user turn with at least one part, no entry
    has a nil part or a part marked as reasoning, and a model turn that is
    not the first entry comes directly after a user turn. *)
Theorem sessions_stay_well_formed (toLower : string -> string)
    (client : genai.Client) (events : list (list (option error) * event))
    (chat : Z) (session : sessionState) :
  let a := (serveAll toLower (New client, []) events).1 in
  sessions (App.sessions a) !! chat = Some session ->
  thinking session ∈ thinkingModes
  /\ length (history session) <= 20
  /\ (forall user, length (conversationWith session user) <= 21)
  /\ Forall turnClean (history session)
  /\ historyOk (history session).
Proof.
  intros a Hsession.
  destruct (serveAll_sessions toLower client events (New client, []))
    as [(_ & _ & Hok) Hhist].
  { apply New_appOk. }
  { intros c s Hs. cbn in Hs. by rewrite lookup_empty in Hs. }
  destruct (Hok chat session Hsession) as (Hmode & Hlen & Hclean).
  split; [by apply isThinkingMode_elem|]. split; [done|].
  split; [|split; [done|by apply (Hhist chat)]].
  intros user. unfold conversationWith. rewrite length_app. cbn [length].
  unfold maxHistoryEntries in Hlen. lia.
Qed.

Lemma sessions_stay_well_formed_witness :
  historyOk
    [genai.NewContentFromParts [textPart "2+2?"] genai.RoleUser;
     {| genai.Content.Parts := [textPart "4"];
        genai.Content.Role := genai.RoleModel |}].
Proof.
  refine (proj2 (proj2 (proj2 (proj2
    (sessions_stay_well_formed (fun s => s) (fun _ _ => Ok plainAnswer)
       [([], OnUpdate (OnMessage (Some question)))] 7
       {| history :=
            [genai.NewContentFromParts [textPart "2+2?"] genai.RoleUser;
             {| genai.Content.Parts := [textPart "4"];
                genai.Content.Role := genai.RoleModel |}];
          thinking := thinkingModeMedium |} _))))).
  reflexivity.
Defined.
